(** * devleaks/streamdecks: dataref observation, animation task and
    Loupedeck serial framing, embedded from the Python sources.

    - [Py]         the fragment of Python the embedded code relies on:
                   values and [==], [round], [int()], slices, exceptions,
                   and a state-and-exception monad;
    - [Dataref]    [cockpitdecks/simulator.py], class [Dataref];
    - [Simulator]  [cockpitdecks/simulator.py], class [Simulator];
    - [DrawAnimation] [cockpitdecks/buttons/representation/draw_animation.py];
    - [LoupedeckLive] [decks/Loupedeck/Devices/LoupedeckLive.py]. *)

From Stdlib Require Import ZArith Bool Ascii String List Lia.
From Stdlib Require Import Floats.PrimFloat Floats.SpecFloat Floats.FloatOps.
From Stdlib Require Import Strings.Byte DecimalString.
From stdpp Require Import base option list gmap strings.
From Equations Require Import Equations.

Local Open Scope string_scope.
Local Open Scope Z_scope.

(* ===================================================================== *)
(** * The Python fragment *)
(* ===================================================================== *)

Module Py.

(** Python values that a dataref can hold: [None], [bool], [int] (unbounded),
    [float] (IEEE binary64, the kernel's primitive floats) and [str]. *)
Inductive pyval : Type :=
| VNone
| VBool (b : bool)
| VInt (z : Z)
| VFloat (f : float)
| VStr (s : string).

(** [x is None] *)
Definition is_None (v : pyval) : bool :=
  match v with VNone => true | _ => false end.

(** [type(x) in [int, float]]: [bool] is a subclass of [int] but its [type]
    is [bool], so it is not in the list. *)
Definition type_in_int_float (v : pyval) : bool :=
  match v with VInt _ | VFloat _ => true | _ => false end.

(** Truth value of an object, as [if x:] and [not x] compute it. *)
Definition truthy (v : pyval) : bool :=
  match v with
  | VNone => false
  | VBool b => b
  | VInt z => negb (z =? 0)
  | VFloat f => negb (PrimFloat.eqb f 0)
  | VStr s => negb (String.eqb s "")
  end.

(** ** Numeric comparison

    [int == float] compares the exact mathematical values. A finite float is
    [(-1)^s * m * 2^e]. *)
Definition float_eq_Z (f : float) (z : Z) : bool :=
  match Prim2SF f with
  | S754_zero _ => z =? 0
  | S754_finite s m e =>
      let a := cond_Zopp s (Zpos m) in
      if 0 <=? e then z =? a * 2 ^ e
      else ((a mod 2 ^ (- e)) =? 0) && (z =? a / 2 ^ (- e))
  | S754_infinity _ | S754_nan => false
  end.

Definition Z_of_bool (b : bool) : Z := if b then 1 else 0.

(** [a == b] on the modelled values. Floats compare as IEEE requires
    ([nan] differs from itself, [0.0 == -0.0]). *)
Definition py_eq (a b : pyval) : bool :=
  match a, b with
  | VNone, VNone => true
  | VBool x, VBool y => Bool.eqb x y
  | VBool x, VInt y | VInt y, VBool x => Z_of_bool x =? y
  | VBool x, VFloat y | VFloat y, VBool x => float_eq_Z y (Z_of_bool x)
  | VInt x, VInt y => x =? y
  | VInt x, VFloat y | VFloat y, VInt x => float_eq_Z y x
  | VFloat x, VFloat y => PrimFloat.eqb x y
  | VStr x, VStr y => String.eqb x y
  | _, _ => false
  end.

(** [a != b] *)
Definition py_ne (a b : pyval) : bool := negb (py_eq a b).

(** ** Exceptions *)
Inductive exn : Type :=
| KeyError (key : string)
| ValueError
| TypeError
| AttributeError
| OverflowError
| IndexError
| RuntimeError
| NotImplementedError
| RecursionError
| OtherException (name : string).

(** [isinstance(e, RuntimeError)]: the class and its two builtin subclasses.
    [OtherException] stands for classes outside the [RuntimeError] tree. *)
Definition is_RuntimeError (e : exn) : bool :=
  match e with
  | RuntimeError | NotImplementedError | RecursionError => true
  | _ => false
  end.

Inductive result (A : Type) : Type :=
| Ok (a : A)
| Raise (e : exn).
Arguments Ok {A} a.
Arguments Raise {A} e.

(** ** [round(x, ndigits)] *)

(** Nearest integer to [n / d] for [d > 0], ties to the even one. *)
Definition div_half_even (n d : Z) : Z :=
  let q := n / d in
  let r := n mod d in
  match 2 * r ?= d with
  | Lt => q
  | Gt => q + 1
  | Eq => if Z.even q then q else q + 1
  end.

(** [int.__round__]: the integer itself for [ndigits >= 0], otherwise the
    nearest multiple of [10 ** -ndigits], ties to even. *)
Definition round_int (z ndigits : Z) : Z :=
  if 0 <=? ndigits then z
  else let p := 10 ^ (- ndigits) in div_half_even z p * p.

(** [float.__round__] with [ndigits] given: non-finite values round to
    themselves; beyond 323 digits the value is returned, below -308 a signed
    zero; otherwise the exact binary value is rounded to [ndigits] decimal
    places (ties to even) and the decimal result converted back to the
    nearest double. A result too large for a double raises
    [OverflowError]. *)
Definition NDIGITS_MAX : Z := 323.
Definition NDIGITS_MIN : Z := -308.

Definition round_float (x : float) (ndigits : Z) : result float :=
  match Prim2SF x with
  | S754_finite s m e =>
      if NDIGITS_MAX <? ndigits then Ok x
      else if ndigits <? NDIGITS_MIN then Ok (0 * x)%float
      else
        let num := Zpos m * 2 ^ (Z.max e 0) * 10 ^ (Z.max ndigits 0) in
        let den := 2 ^ (Z.max (- e) 0) * 10 ^ (Z.max (- ndigits) 0) in
        match div_half_even num den with
        | Zpos r =>
            let y :=
              if 0 <=? ndigits
              then SFdiv prec emax (S754_finite s r 0)
                     (S754_finite false (Z.to_pos (10 ^ ndigits)) 0)
              else binary_round prec emax s
                     (r * Z.to_pos (10 ^ (- ndigits)))%positive 0 in
            match y with
            | S754_infinity _ => Raise OverflowError
            | _ => Ok (SF2Prim y)
            end
        | _ => Ok (SF2Prim (S754_zero s))
        end
  | _ => Ok x
  end.

(** [round(v, ndigits)] for [v] an [int] or a [float]. Other types do not
    reach it in the embedded code. *)
Definition round (v : pyval) (ndigits : Z) : result pyval :=
  match v with
  | VInt z => Ok (VInt (round_int z ndigits))
  | VFloat x =>
      match round_float x ndigits with
      | Ok y => Ok (VFloat y)
      | Raise e => Raise e
      end
  | VBool b => Ok (VInt (round_int (Z_of_bool b) ndigits))
  | _ => Raise TypeError
  end.

(** ** Strings

    [str] is modelled by [string], each character standing for the code
    point of its number: these are the strings whose code points are below
    256. The paths handled here are ASCII. *)

(** [len(s)] *)
Definition len (s : string) : Z := Z.of_nat (String.length s).

(** Normalisation of one slice bound against a length: negative bounds count
    from the end, and the result is clamped to [0, n]. *)
Definition clamp_index (n i : Z) : Z :=
  let j := if i <? 0 then i + n else i in
  Z.max 0 (Z.min n j).

(** [s[start:stop]]; an omitted bound is [None]. *)
Definition slice (s : string) (start stop : option Z) : string :=
  let n := len s in
  let i := match start with Some i => clamp_index n i | None => 0 end in
  let j := match stop with Some j => clamp_index n j | None => n end in
  String.substring (Z.to_nat i) (Z.to_nat (j - i)) s.

(** [s[-1]]: the last character, [IndexError] on the empty string. *)
Definition last_char (s : string) : result string :=
  if len s =? 0 then Raise IndexError else Ok (slice s (Some (-1)) None).

(** [needle in hay] on strings: substring containment. *)
Definition str_in (needle hay : string) : bool :=
  match String.index 0 needle hay with Some _ => true | None => false end.

(** [s.find(sub)]: lowest index of [sub] in [s], or [-1]. *)
Definition find (s sub : string) : Z :=
  match String.index 0 sub s with Some i => Z.of_nat i | None => -1 end.

(** [s.startswith(prefix)] *)
Definition startswith (s pre : string) : bool := String.prefix pre s.

(** *** [int(s)] for a string argument

    Surrounding whitespace is ignored, then an optional sign and decimal
    digits, where single underscores may separate digits; anything else
    raises [ValueError], and so do more than 4300 digits, the default of
    [sys.int_max_str_digits]. The whitespace of [int] below code point 256
    is tab to carriage return, the space, U+0085 and U+00A0 (not the
    separators U+001C to U+001F); the only decimal digits there are 0 to
    9. *)
Definition is_space (c : ascii) : bool :=
  let n := nat_of_ascii c in
  ((9 <=? n) && (n <=? 13))%nat || (n =? 32)%nat
  || (n =? 133)%nat || (n =? 160)%nat.

Definition int_max_str_digits : Z := 4300.

Definition digit_of (c : ascii) : option Z :=
  let n := nat_of_ascii c in
  if ((48 <=? n) && (n <=? 57))%nat then Some (Z.of_nat n - 48) else None.

Fixpoint lstrip (l : list ascii) : list ascii :=
  match l with
  | c :: l' => if is_space c then lstrip l' else l
  | [] => []
  end.

Definition strip (l : list ascii) : list ascii :=
  rev (lstrip (rev (lstrip l))).

(** Digits with separating underscores; [after_digit] tells whether the
    previous character was a digit (an underscore is only allowed there, and
    must be followed by a digit). *)
Fixpoint parse_digits (l : list ascii) (acc : Z) (after_digit : bool)
  : option Z :=
  match l with
  | [] => if after_digit then Some acc else None
  | c :: l' =>
      match digit_of c with
      | Some d => parse_digits l' (10 * acc + d) true
      | None =>
          if (Ascii.eqb c "_"%char) && after_digit
          then match l' with
               | c' :: _ =>
                   match digit_of c' with
                   | Some _ => parse_digits l' acc false
                   | None => None
                   end
               | [] => None
               end
          else None
      end
  end.

Definition int_of_str (s : string) : result Z :=
  let l := strip (list_ascii_of_string s) in
  let '(neg, body) :=
    match l with
    | c :: l' =>
        if Ascii.eqb c "-"%char then (true, l')
        else if Ascii.eqb c "+"%char then (false, l')
        else (false, l)
    | [] => (false, [])
    end in
  match parse_digits body 0 false with
  | Some z =>
      let digits :=
        List.filter
          (fun c => match digit_of c with Some _ => true | None => false end)
          body in
      if int_max_str_digits <? Z.of_nat (List.length digits)
      then Raise ValueError
      else Ok (if neg then - z else z)
  | None => Raise ValueError
  end.

(** ** State and exceptions

    A computation reads and writes a state [Σ] and either returns a value or
    raises; what was written before a [raise] stays written, as for Python
    objects mutated before an exception. *)
Section Monad.
Context {Σ : Type}.

Definition M (A : Type) : Type := Σ -> result A * Σ.

Definition ret {A} (a : A) : M A := fun s => (Ok a, s).

Definition bind {A B} (m : M A) (k : A -> M B) : M B :=
  fun s =>
    match m s with
    | (Ok a, s') => k a s'
    | (Raise e, s') => (Raise e, s')
    end.

Definition raise {A} (e : exn) : M A := fun s => (Raise e, s).

Definition get : M Σ := fun s => (Ok s, s).
Definition gets {A} (f : Σ -> A) : M A := fun s => (Ok (f s), s).
Definition modify (f : Σ -> Σ) : M unit := fun s => (Ok tt, f s).

(** Lifting of a pure fallible result. *)
Definition lift {A} (r : result A) : M A := fun s => (r, s).

(** [try: m  except C: handler] for the exception classes selected by
    [catches]. *)
Definition try_except {A} (m : M A) (catches : exn -> bool)
    (handler : exn -> M A) : M A :=
  fun s =>
    match m s with
    | (Raise e, s') => if catches e then handler e s' else (Raise e, s')
    | r => r
    end.

(** [for x in l: body(x)] *)
Fixpoint for_each {B} (l : list B) (body : B -> M unit) : M unit :=
  match l with
  | [] => ret tt
  | x :: l' => bind (body x) (fun _ => for_each l' body)
  end.
End Monad.
Arguments M : clear implicits.

Module Import Notations.
Notation "'let*' x := c1 'in' c2" := (bind c1 (fun x => c2))
  (at level 10, x name, c1 at level 100, c2 at level 200,
   format "'[v' 'let*'  x  :=  c1  'in' '/' c2 ']'").
Notation "'do' c1 'then' c2" := (bind c1 (fun _ => c2))
  (at level 10, c1 at level 100, c2 at level 200,
   format "'[v' 'do'  c1  'then' '/' c2 ']'").
End Notations.

(** ** The observable world: log records, listener calls, the clock *)
Inductive level := DEBUG | SPAM_LEVEL | INFO | WARNING | ERROR.

Inductive event : Type :=
| EvLog (logger : string) (lvl : level) (msg : string)
| EvUpdated (listener : nat) (path : string) (old new : pyval)
| EvChanged (listener : nat) (path : string) (old new : pyval)
| EvThreadStart (thread : nat) (name : string)
| EvThreadJoin (thread : nat) (timeout : pyval)
| EvSerialWrite (data : list byte).

Record World := mkWorld {
  events : list event;   (* in the order they happened *)
  clock : nat;           (* what the next call of [now()] returns *)
  threads : nat          (* number of Thread objects created so far *)
}.

Definition emit (e : event) (w : World) : World :=
  {| events := events w ++ [e]; clock := clock w; threads := threads w |}.

Definition tick (w : World) : World :=
  {| events := events w; clock := S (clock w); threads := threads w |}.

Definition new_world : World := {| events := []; clock := 0; threads := 0 |}.

(** Operations on the world, for any state that carries one next to an
    object [X]. *)
Section WorldOps.
Context {X : Type}.

(** [logger.log(lvl, msg)]; [msg] is the message template of the source,
    its interpolated values are not rendered. *)
Definition log (logger : string) (lvl : level) (msg : string)
  : M (X * World) unit :=
  modify (fun s => (fst s, emit (EvLog logger lvl msg) (snd s))).

Definition emit_event (e : event) : M (X * World) unit :=
  modify (fun s => (fst s, emit e (snd s))).

(** [now()] *)
Definition now : M (X * World) nat :=
  fun s => (Ok (clock (snd s)), (fst s, tick (snd s))).

(** [threading.Thread(...)]: a fresh thread object, not yet started. *)
Definition new_thread : M (X * World) nat :=
  fun s =>
    let w := snd s in
    (Ok (threads w),
     (fst s,
      {| events := events w; clock := clock w; threads := S (threads w) |})).

Definition get_self : M (X * World) X := gets fst.
Definition modify_self (f : X -> X) : M (X * World) unit :=
  modify (fun s => (f (fst s), snd s)).
End WorldOps.

(** ** Bytes *)

(** [len(b)] for a bytes object *)
Definition blen (b : list byte) : Z := Z.of_nat (List.length b).

(** Conversion of an [int] to one byte, as item assignment into a
    [bytearray] does it: [ValueError] outside [range(0, 256)]. *)
Definition byte_of_int (n : Z) : result byte :=
  if (0 <=? n) && (n <? 256)
  then match Byte.of_N (Z.to_N n) with
       | Some b => Ok b
       | None => Raise ValueError
       end
  else Raise ValueError.

Definition int_of_byte (b : byte) : Z := Z.of_N (Byte.to_N b).

(** The [k] low-order base-256 digits of [n], most significant first. *)
Fixpoint be_digits (k : nat) (n : Z) : list byte :=
  match k with
  | O => []
  | S k' =>
      be_digits k' (n / 256)
        ++ [default x00 (Byte.of_N (Z.to_N (n mod 256)))]
  end.

(** [n.to_bytes(length, byteorder)]: [ValueError] for a byte order other
    than "big" and "little", [OverflowError] for a negative [n] or one that
    does not fit. *)
Definition to_bytes (n : Z) (length : nat) (byteorder : string)
  : result (list byte) :=
  if negb (String.eqb byteorder "big" || String.eqb byteorder "little")
  then Raise ValueError
  else if n <? 0 then Raise OverflowError
  else if 256 ^ Z.of_nat length <=? n then Raise OverflowError
  else if String.eqb byteorder "big" then Ok (be_digits length n)
  else Ok (rev (be_digits length n)).

(** [b.find(x)] for a byte value [x]: index of its first occurrence. *)
Fixpoint bytes_find (b : list byte) (x : byte) : option nat :=
  match b with
  | [] => None
  | y :: b' =>
      if Byte.eqb y x then Some O
      else match bytes_find b' x with Some i => Some (S i) | None => None end
  end.

(** [str(n)] for an int: its decimal digits, with a minus sign when
    negative. *)
Definition str_of_int (n : Z) : string := NilZero.string_of_int (Z.to_int n).

(** [d[k]] for a dict with string keys *)
Definition getkey {V} (d : gmap string V) (k : string) : result V :=
  match d !! k with
  | Some v => Ok v
  | None => Raise (KeyError k)
  end.

(** [b[i]] for a bytes object and an index [i >= 0]: the byte as an int,
    [IndexError] past the end. *)
Definition byte_at (b : list byte) (i : nat) : result Z :=
  match b !! i with
  | Some x => Ok (int_of_byte x)
  | None => Raise IndexError
  end.

(** [b[i:j]] for a bytes object and bounds [0 <= i <= j] *)
Definition bytes_slice (b : list byte) (i j : nat) : list byte :=
  take (j - i) (drop i b).

(** [int.from_bytes(b, byteorder)], unsigned; the empty bytes give 0. *)
Definition from_bytes (b : list byte) (byteorder : string) : result Z :=
  if negb (String.eqb byteorder "big" || String.eqb byteorder "little")
  then Raise ValueError
  else
    Ok (fold_left (fun acc x => acc * 256 + int_of_byte x)
          (if String.eqb byteorder "big" then b else rev b) 0).

(** ** True division and [math.floor]

    [a / b] for two ints is the double nearest to the exact quotient (ties
    to even), whatever the size of the operands; [ZeroDivisionError] for
    [b == 0], [OverflowError] when the quotient is too large for a
    double. *)
Definition ZeroDivisionError : exn := OtherException "ZeroDivisionError".

Definition int_truediv (a b : Z) : result float :=
  if b =? 0 then Raise ZeroDivisionError
  else
    let s := xorb (a <? 0) (b <? 0) in
    if a =? 0 then Ok (SF2Prim (S754_zero s))
    else
      match SFdiv prec emax
              (S754_finite (a <? 0) (Z.to_pos (Z.abs a)) 0)
              (S754_finite (b <? 0) (Z.to_pos (Z.abs b)) 0) with
      | S754_infinity _ => Raise OverflowError
      | y => Ok (SF2Prim y)
      end.

(** [math.floor(x)] for a float: the largest int not above [x];
    [OverflowError] for an infinity, [ValueError] for a NaN. *)
Definition floor (x : float) : result Z :=
  match Prim2SF x with
  | S754_zero _ => Ok 0
  | S754_finite s m e =>
      let a := cond_Zopp s (Zpos m) in
      Ok (if 0 <=? e then a * 2 ^ e else a / 2 ^ (- e))
  | S754_infinity _ => Raise OverflowError
  | S754_nan => Raise ValueError
  end.

End Py.

(* ===================================================================== *)
(** * cockpitdecks/simulator.py: class Dataref *)
(* ===================================================================== *)

Module Dataref.
Import Py Py.Notations.

Definition INTERNAL_DATAREF_PREFIX : string := "data:".

(** An object handed to [add_listener]. Its identity is [lid]; the list
    membership test [obj in self.listeners] compares identities, which is
    what [==] does for classes that do not redefine it. The two callbacks
    receive the dataref; here they see its path, previous and current value,
    and either return ([None]) or raise. They are assumed not to modify the
    dataref or the registry while being called. *)
Record Listener : Type := mkListener {
  lid : nat;
  is_DatarefListener : bool;      (* isinstance(obj, DatarefListener) *)
  lname : option string;          (* obj.name, None when it has none *)
  lpage : option string;          (* obj.page.name when obj.page is set *)
  dataref_changed : string -> pyval -> pyval -> option exn;
  dataref_updated : string -> pyval -> pyval -> option exn
}.

(** The attributes of a [Dataref], as [__init__] declares them. The two
    times are readings of the world's clock. *)
Record t : Type := mk {
  path : string   (* some/path/values[6] *);
  dataref : string   (* some/path/values *);
  index : Z   (* 6 *);
  length : option Z   (* length of the array, if available *);
  sim_datatype : pyval;
  data_type : string   (* int, float, byte *);
  is_array : bool;
  is_decimal : bool;
  is_string : pyval   (* a bool, or the string byte *);
  _previous_value : pyval   (* raw values *);
  _current_value : pyval;
  _last_updated : option nat;
  _last_changed : option nat;
  _updated : Z   (* number of time value updated *);
  _changed : Z   (* number of time value changed *);
  previous_value : pyval;
  current_value : pyval;
  current_array : list pyval;
  listeners : list Listener   (* will get notified if changes *);
  round : option Z;
  update_frequency : pyval
}.

(** Attribute assignment [self.f = v]. *)
Definition set_path (v : string) (d : t) : t :=
  {| path := v; dataref := dataref d; index := index d; length := length d;
     sim_datatype := sim_datatype d; data_type := data_type d; is_array :=
     is_array d; is_decimal := is_decimal d; is_string := is_string d;
     _previous_value := _previous_value d; _current_value := _current_value
     d; _last_updated := _last_updated d; _last_changed := _last_changed d;
     _updated := _updated d; _changed := _changed d; previous_value :=
     previous_value d; current_value := current_value d; current_array :=
     current_array d; listeners := listeners d; round := round d;
     update_frequency := update_frequency d |}.

Definition set_dataref (v : string) (d : t) : t :=
  {| path := path d; dataref := v; index := index d; length := length d;
     sim_datatype := sim_datatype d; data_type := data_type d; is_array :=
     is_array d; is_decimal := is_decimal d; is_string := is_string d;
     _previous_value := _previous_value d; _current_value := _current_value
     d; _last_updated := _last_updated d; _last_changed := _last_changed d;
     _updated := _updated d; _changed := _changed d; previous_value :=
     previous_value d; current_value := current_value d; current_array :=
     current_array d; listeners := listeners d; round := round d;
     update_frequency := update_frequency d |}.

Definition set_index (v : Z) (d : t) : t :=
  {| path := path d; dataref := dataref d; index := v; length := length d;
     sim_datatype := sim_datatype d; data_type := data_type d; is_array :=
     is_array d; is_decimal := is_decimal d; is_string := is_string d;
     _previous_value := _previous_value d; _current_value := _current_value
     d; _last_updated := _last_updated d; _last_changed := _last_changed d;
     _updated := _updated d; _changed := _changed d; previous_value :=
     previous_value d; current_value := current_value d; current_array :=
     current_array d; listeners := listeners d; round := round d;
     update_frequency := update_frequency d |}.

Definition set_length (v : option Z) (d : t) : t :=
  {| path := path d; dataref := dataref d; index := index d; length := v;
     sim_datatype := sim_datatype d; data_type := data_type d; is_array :=
     is_array d; is_decimal := is_decimal d; is_string := is_string d;
     _previous_value := _previous_value d; _current_value := _current_value
     d; _last_updated := _last_updated d; _last_changed := _last_changed d;
     _updated := _updated d; _changed := _changed d; previous_value :=
     previous_value d; current_value := current_value d; current_array :=
     current_array d; listeners := listeners d; round := round d;
     update_frequency := update_frequency d |}.

Definition set_sim_datatype (v : pyval) (d : t) : t :=
  {| path := path d; dataref := dataref d; index := index d; length :=
     length d; sim_datatype := v; data_type := data_type d; is_array :=
     is_array d; is_decimal := is_decimal d; is_string := is_string d;
     _previous_value := _previous_value d; _current_value := _current_value
     d; _last_updated := _last_updated d; _last_changed := _last_changed d;
     _updated := _updated d; _changed := _changed d; previous_value :=
     previous_value d; current_value := current_value d; current_array :=
     current_array d; listeners := listeners d; round := round d;
     update_frequency := update_frequency d |}.

Definition set_data_type (v : string) (d : t) : t :=
  {| path := path d; dataref := dataref d; index := index d; length :=
     length d; sim_datatype := sim_datatype d; data_type := v; is_array :=
     is_array d; is_decimal := is_decimal d; is_string := is_string d;
     _previous_value := _previous_value d; _current_value := _current_value
     d; _last_updated := _last_updated d; _last_changed := _last_changed d;
     _updated := _updated d; _changed := _changed d; previous_value :=
     previous_value d; current_value := current_value d; current_array :=
     current_array d; listeners := listeners d; round := round d;
     update_frequency := update_frequency d |}.

Definition set_is_array (v : bool) (d : t) : t :=
  {| path := path d; dataref := dataref d; index := index d; length :=
     length d; sim_datatype := sim_datatype d; data_type := data_type d;
     is_array := v; is_decimal := is_decimal d; is_string := is_string d;
     _previous_value := _previous_value d; _current_value := _current_value
     d; _last_updated := _last_updated d; _last_changed := _last_changed d;
     _updated := _updated d; _changed := _changed d; previous_value :=
     previous_value d; current_value := current_value d; current_array :=
     current_array d; listeners := listeners d; round := round d;
     update_frequency := update_frequency d |}.

Definition set_is_decimal (v : bool) (d : t) : t :=
  {| path := path d; dataref := dataref d; index := index d; length :=
     length d; sim_datatype := sim_datatype d; data_type := data_type d;
     is_array := is_array d; is_decimal := v; is_string := is_string d;
     _previous_value := _previous_value d; _current_value := _current_value
     d; _last_updated := _last_updated d; _last_changed := _last_changed d;
     _updated := _updated d; _changed := _changed d; previous_value :=
     previous_value d; current_value := current_value d; current_array :=
     current_array d; listeners := listeners d; round := round d;
     update_frequency := update_frequency d |}.

Definition set_is_string (v : pyval) (d : t) : t :=
  {| path := path d; dataref := dataref d; index := index d; length :=
     length d; sim_datatype := sim_datatype d; data_type := data_type d;
     is_array := is_array d; is_decimal := is_decimal d; is_string := v;
     _previous_value := _previous_value d; _current_value := _current_value
     d; _last_updated := _last_updated d; _last_changed := _last_changed d;
     _updated := _updated d; _changed := _changed d; previous_value :=
     previous_value d; current_value := current_value d; current_array :=
     current_array d; listeners := listeners d; round := round d;
     update_frequency := update_frequency d |}.

Definition set__previous_value (v : pyval) (d : t) : t :=
  {| path := path d; dataref := dataref d; index := index d; length :=
     length d; sim_datatype := sim_datatype d; data_type := data_type d;
     is_array := is_array d; is_decimal := is_decimal d; is_string :=
     is_string d; _previous_value := v; _current_value := _current_value d;
     _last_updated := _last_updated d; _last_changed := _last_changed d;
     _updated := _updated d; _changed := _changed d; previous_value :=
     previous_value d; current_value := current_value d; current_array :=
     current_array d; listeners := listeners d; round := round d;
     update_frequency := update_frequency d |}.

Definition set__current_value (v : pyval) (d : t) : t :=
  {| path := path d; dataref := dataref d; index := index d; length :=
     length d; sim_datatype := sim_datatype d; data_type := data_type d;
     is_array := is_array d; is_decimal := is_decimal d; is_string :=
     is_string d; _previous_value := _previous_value d; _current_value := v;
     _last_updated := _last_updated d; _last_changed := _last_changed d;
     _updated := _updated d; _changed := _changed d; previous_value :=
     previous_value d; current_value := current_value d; current_array :=
     current_array d; listeners := listeners d; round := round d;
     update_frequency := update_frequency d |}.

Definition set__last_updated (v : option nat) (d : t) : t :=
  {| path := path d; dataref := dataref d; index := index d; length :=
     length d; sim_datatype := sim_datatype d; data_type := data_type d;
     is_array := is_array d; is_decimal := is_decimal d; is_string :=
     is_string d; _previous_value := _previous_value d; _current_value :=
     _current_value d; _last_updated := v; _last_changed := _last_changed d;
     _updated := _updated d; _changed := _changed d; previous_value :=
     previous_value d; current_value := current_value d; current_array :=
     current_array d; listeners := listeners d; round := round d;
     update_frequency := update_frequency d |}.

Definition set__last_changed (v : option nat) (d : t) : t :=
  {| path := path d; dataref := dataref d; index := index d; length :=
     length d; sim_datatype := sim_datatype d; data_type := data_type d;
     is_array := is_array d; is_decimal := is_decimal d; is_string :=
     is_string d; _previous_value := _previous_value d; _current_value :=
     _current_value d; _last_updated := _last_updated d; _last_changed := v;
     _updated := _updated d; _changed := _changed d; previous_value :=
     previous_value d; current_value := current_value d; current_array :=
     current_array d; listeners := listeners d; round := round d;
     update_frequency := update_frequency d |}.

Definition set__updated (v : Z) (d : t) : t :=
  {| path := path d; dataref := dataref d; index := index d; length :=
     length d; sim_datatype := sim_datatype d; data_type := data_type d;
     is_array := is_array d; is_decimal := is_decimal d; is_string :=
     is_string d; _previous_value := _previous_value d; _current_value :=
     _current_value d; _last_updated := _last_updated d; _last_changed :=
     _last_changed d; _updated := v; _changed := _changed d; previous_value
     := previous_value d; current_value := current_value d; current_array :=
     current_array d; listeners := listeners d; round := round d;
     update_frequency := update_frequency d |}.

Definition set__changed (v : Z) (d : t) : t :=
  {| path := path d; dataref := dataref d; index := index d; length :=
     length d; sim_datatype := sim_datatype d; data_type := data_type d;
     is_array := is_array d; is_decimal := is_decimal d; is_string :=
     is_string d; _previous_value := _previous_value d; _current_value :=
     _current_value d; _last_updated := _last_updated d; _last_changed :=
     _last_changed d; _updated := _updated d; _changed := v; previous_value
     := previous_value d; current_value := current_value d; current_array :=
     current_array d; listeners := listeners d; round := round d;
     update_frequency := update_frequency d |}.

Definition set_previous_value (v : pyval) (d : t) : t :=
  {| path := path d; dataref := dataref d; index := index d; length :=
     length d; sim_datatype := sim_datatype d; data_type := data_type d;
     is_array := is_array d; is_decimal := is_decimal d; is_string :=
     is_string d; _previous_value := _previous_value d; _current_value :=
     _current_value d; _last_updated := _last_updated d; _last_changed :=
     _last_changed d; _updated := _updated d; _changed := _changed d;
     previous_value := v; current_value := current_value d; current_array :=
     current_array d; listeners := listeners d; round := round d;
     update_frequency := update_frequency d |}.

Definition set_current_value (v : pyval) (d : t) : t :=
  {| path := path d; dataref := dataref d; index := index d; length :=
     length d; sim_datatype := sim_datatype d; data_type := data_type d;
     is_array := is_array d; is_decimal := is_decimal d; is_string :=
     is_string d; _previous_value := _previous_value d; _current_value :=
     _current_value d; _last_updated := _last_updated d; _last_changed :=
     _last_changed d; _updated := _updated d; _changed := _changed d;
     previous_value := previous_value d; current_value := v; current_array
     := current_array d; listeners := listeners d; round := round d;
     update_frequency := update_frequency d |}.

Definition set_current_array (v : list pyval) (d : t) : t :=
  {| path := path d; dataref := dataref d; index := index d; length :=
     length d; sim_datatype := sim_datatype d; data_type := data_type d;
     is_array := is_array d; is_decimal := is_decimal d; is_string :=
     is_string d; _previous_value := _previous_value d; _current_value :=
     _current_value d; _last_updated := _last_updated d; _last_changed :=
     _last_changed d; _updated := _updated d; _changed := _changed d;
     previous_value := previous_value d; current_value := current_value d;
     current_array := v; listeners := listeners d; round := round d;
     update_frequency := update_frequency d |}.

Definition set_listeners (v : list Listener) (d : t) : t :=
  {| path := path d; dataref := dataref d; index := index d; length :=
     length d; sim_datatype := sim_datatype d; data_type := data_type d;
     is_array := is_array d; is_decimal := is_decimal d; is_string :=
     is_string d; _previous_value := _previous_value d; _current_value :=
     _current_value d; _last_updated := _last_updated d; _last_changed :=
     _last_changed d; _updated := _updated d; _changed := _changed d;
     previous_value := previous_value d; current_value := current_value d;
     current_array := current_array d; listeners := v; round := round d;
     update_frequency := update_frequency d |}.

Definition set_round (v : option Z) (d : t) : t :=
  {| path := path d; dataref := dataref d; index := index d; length :=
     length d; sim_datatype := sim_datatype d; data_type := data_type d;
     is_array := is_array d; is_decimal := is_decimal d; is_string :=
     is_string d; _previous_value := _previous_value d; _current_value :=
     _current_value d; _last_updated := _last_updated d; _last_changed :=
     _last_changed d; _updated := _updated d; _changed := _changed d;
     previous_value := previous_value d; current_value := current_value d;
     current_array := current_array d; listeners := listeners d; round := v;
     update_frequency := update_frequency d |}.

Definition set_update_frequency (v : pyval) (d : t) : t :=
  {| path := path d; dataref := dataref d; index := index d; length :=
     length d; sim_datatype := sim_datatype d; data_type := data_type d;
     is_array := is_array d; is_decimal := is_decimal d; is_string :=
     is_string d; _previous_value := _previous_value d; _current_value :=
     _current_value d; _last_updated := _last_updated d; _last_changed :=
     _last_changed d; _updated := _updated d; _changed := _changed d;
     previous_value := previous_value d; current_value := current_value d;
     current_array := current_array d; listeners := listeners d; round :=
     round d; update_frequency := v |}.

(** The attribute assignments that open [Dataref.__init__], before the
    path is looked at. *)
Definition init_fields (path0 : string) (is_decimal0 is_string0 : bool)
    (length0 : option Z) : t :=
  {| path := path0; dataref := path0; index := 0; length := length0;
     sim_datatype := VNone; data_type := "float"; is_array := false;
     is_decimal := is_decimal0; is_string := VBool is_string0;
     _previous_value := VNone; _current_value := VNone;
     _last_updated := None; _last_changed := None;
     _updated := 0; _changed := 0;
     previous_value := VNone; current_value := VNone;
     current_array := []; listeners := []; round := None;
     update_frequency := VInt 1 |}.

(** [Dataref.__init__(path, is_decimal, is_string, length)] *)
Definition __init__ (path0 : string) (is_decimal0 is_string0 : bool)
    (length0 : option Z) : M (unit * World) t :=
  let self := init_fields path0 is_decimal0 is_string0 length0 in
  (* dataref/path:t where t in d, i, f, s, b. *)
  let* suffixed :=
    if (3 <? len path0)
       && String.eqb (slice path0 (Some (-2)) (Some (-1))) ":"
    then let* c := lift (last_char path0) in ret (str_in c "difsb")
    else ret false in
  let* ps :=
    if suffixed : bool then
      let path1 := slice path0 None (Some (-2)) in
      let* typ := lift (last_char path1) in
      ret (path1,
           if String.eqb typ "d" then
             set_data_type "int" (set_is_decimal true self)
           else if String.eqb typ "s" then
             set_is_array true
               (set_data_type "str" (set_is_string (VBool true) self))
           else if String.eqb typ "b" then
             set_is_string (VStr "byte") self
           else self)
    else ret (path0, self) in
  let path1 := fst ps in
  let self := snd ps in
  do (if is_decimal self && truthy (is_string self)
      then log "Dataref" ERROR
             "__init__: index {path} cannot be both decimal and string"
      else ret tt) then
  let self :=
    match length self with
    | Some n => if 1 <? n then set_is_array true self else self
    | None => self
    end in
  (* is dataref a path to an array element? *)
  if str_in "[" path1 then
    let lb := find (path self) "[" in
    let self := set_dataref (slice (path self) None (Some lb)) self in
    let* idx :=
      lift (int_of_str
              (slice (path self) (Some (lb + 1))
                 (Some (find (path self) "]")))) in
    let self := set_is_array true (set_index idx self) in
    let self :=
      match length self with
      | None => set_length (Some (index self + 1)) self
      | Some _ => self
      end in
    do (match length self with
        | Some n =>
            if n <=? index self
            then log "Dataref" ERROR
                   "__init__: index {self.index} out of range [0,{self.length-1}]"
            else ret tt
        | None => raise TypeError
        end) then
    ret self
  else ret self.

(** [is_internal_dataref(path)], [mk_internal_dataref(path)],
    [is_internal()] *)
Definition is_internal_dataref (p : string) : bool :=
  startswith p INTERNAL_DATAREF_PREFIX.
Definition mk_internal_dataref (p : string) : string :=
  INTERNAL_DATAREF_PREFIX ++ p.
Definition is_internal (self : t) : bool := is_internal_dataref (path self).

(** [set_round(rounding)] *)
Definition set_round_ (rounding : option Z) (self : t) : t :=
  set_round rounding self.

(** [set_update_frequency(frequency)] *)
Definition set_update_frequency_ (frequency : pyval) (self : t) : t :=
  if negb (is_None frequency) && type_in_int_float frequency
  then set_update_frequency frequency self
  else set_update_frequency (VInt 1) self.

(** [value()] *)
Definition value (self : t) : pyval := current_value self.

(** [has_changed()] *)
Definition has_changed (self : t) : bool :=
  if is_None (previous_value self) && is_None (current_value self)
  then false
  else if is_None (previous_value self)
          && negb (is_None (current_value self))
  then true
  else if negb (is_None (previous_value self))
          && is_None (current_value self)
  then true
  else py_ne (current_value self) (previous_value self).

(** [updated()] *)
Definition updated (self : t) : bool := 0 <? _updated self.

(** One listener call followed by its log line. Both log lines read
    [dref.name]. *)
Definition logged_call (self : t) (dref : Listener) (ev : event)
    (outcome : option exn) (msg_page msg_nopage : string)
  : M (t * World) unit :=
  do emit_event ev then
  do (match outcome with Some e => raise e | None => ret tt end) then
  match lname dref with
  | None => raise AttributeError
  | Some _ =>
      match lpage dref with
      | Some _ => log "Dataref" SPAM_LEVEL msg_page
      | None => log "Dataref" SPAM_LEVEL msg_nopage
      end
  end.

(** The log lines of [notify], [notify_updated] and [update_value]. *)
Definition msg_changed_page : string :=
  "{self.path}: notified {dref.page.name}/{dref.name}".
Definition msg_changed_nopage : string :=
  "{self.path}: notified {dref.name} (not on an page)".
Definition msg_updated_page : string :=
  "{self.path}: notified {dref.page.name}/{dref.name} or update".
Definition msg_updated_nopage : string :=
  "{self.path}: notified {dref.name} of update (not on an page)".
Definition msg_value_updated : string :=
  "dataref {self.path} updated {self.previous_value} -> {self.current_value}".

(** [notify()] *)
Definition notify : M (t * World) unit :=
  let* self := get_self in
  if has_changed self then
    for_each (listeners self) (fun dref =>
      logged_call self dref
        (EvChanged (lid dref) (path self)
           (previous_value self) (current_value self))
        (dataref_changed dref (path self)
           (previous_value self) (current_value self))
        msg_changed_page msg_changed_nopage)
  else ret tt.

(** [notify_updated()] *)
Definition notify_updated : M (t * World) unit :=
  let* self := get_self in
  for_each (listeners self) (fun dref =>
    logged_call self dref
      (EvUpdated (lid dref) (path self)
         (previous_value self) (current_value self))
      (dataref_updated dref (path self)
         (previous_value self) (current_value self))
      msg_updated_page msg_updated_nopage).

(** The right-hand side of the assignment to [self.current_value] in
    [update_value]: [round(new_value, self.round)] when a rounding is set
    and the value is an [int] or a [float], otherwise the value itself. *)
Definition value_to_store (self : t) (new_value : pyval) : result pyval :=
  match round self with
  | Some ndigits =>
      if type_in_int_float new_value then Py.round new_value ndigits
      else Ok new_value
  | None => Ok new_value
  end.

(** [update_value(new_value, cascade)] *)
Definition update_value (new_value : pyval) (cascade : bool)
  : M (t * World) unit :=
  do modify_self (fun d => set__previous_value (_current_value d) d) then
  do modify_self (set__current_value new_value) then
  do modify_self (fun d => set_previous_value (current_value d) d) then
  let* self := get_self in
  let* stored := lift (value_to_store self new_value) in
  do modify_self (set_current_value stored) then
  do modify_self (fun d => set__updated (_updated d + 1) d) then
  let* t0 := now in
  do modify_self (set__last_updated (Some t0)) then
  do notify_updated then
  let* self := get_self in
  if has_changed self then
    do modify_self (fun d => set__changed (_changed d + 1) d) then
    let* t1 := now in
    do modify_self (set__last_changed (Some t1)) then
    do log "Dataref" SPAM_LEVEL msg_value_updated then
    if cascade then notify else ret tt
  else ret tt.

(** [obj in self.listeners] *)
Definition listener_in (obj : Listener) (l : list Listener) : bool :=
  existsb (fun x => Nat.eqb (lid x) (lid obj)) l.

(** [add_listener(obj)] *)
Definition add_listener (obj : Listener) : M (t * World) unit :=
  do (if negb (is_DatarefListener obj)
      then log "Dataref" WARNING "{self.dataref} not a listener {obj}"
      else ret tt) then
  let* self := get_self in
  do (if negb (listener_in obj (listeners self))
      then modify_self (set_listeners (listeners self ++ [obj]))
      else ret tt) then
  log "Dataref" DEBUG "{self.dataref} added listener ({len(self.listeners)})".

End Dataref.

(* ===================================================================== *)
(** * cockpitdecks/simulator.py: class Simulator *)
(* ===================================================================== *)

Module Simulator.
Import Py Py.Notations.

(** [logging.getLogger(__name__)] *)
Definition logger : string := "cockpitdecks.simulator".

(** A [dict] whose iteration order is observed: the items in insertion
    order, keys pairwise distinct. *)
Definition odict (V : Type) : Type := list (string * V).

(** [d.keys()] *)
Definition keys {V} (d : odict V) : list string := map fst d.

(** [d[k]] *)
Fixpoint getitem {V} (d : odict V) (k : string) : result V :=
  match d with
  | [] => Raise (KeyError k)
  | (k', v) :: d' => if String.eqb k' k then Ok v else getitem d' k
  end.

(** The registry fields that the embedded methods read or write. The
    datarefs of [all_datarefs] are the objects themselves: a method call on
    [all_datarefs[d]] changes the stored dataref ([on_dataref] below). *)
Record t : Type := mk {
  all_datarefs : gmap string Dataref.t;
  datarefs_to_monitor : gmap string Z;   (* path, number of objects monitoring *)
  previous_values : gmap string pyval;
  current_values : odict pyval;
  roundings : gmap string Z;             (* path: int *)
  dataref_frequencies : gmap string pyval;
  _startup : bool
}.

Definition set_all_datarefs (v : gmap string Dataref.t) (s : t) : t :=
  {| all_datarefs := v; datarefs_to_monitor := datarefs_to_monitor s;
     previous_values := previous_values s;
     current_values := current_values s; roundings := roundings s;
     dataref_frequencies := dataref_frequencies s; _startup := _startup s |}.

Definition set_datarefs_to_monitor (v : gmap string Z) (s : t) : t :=
  {| all_datarefs := all_datarefs s; datarefs_to_monitor := v;
     previous_values := previous_values s;
     current_values := current_values s; roundings := roundings s;
     dataref_frequencies := dataref_frequencies s; _startup := _startup s |}.

Definition set_previous_values (v : gmap string pyval) (s : t) : t :=
  {| all_datarefs := all_datarefs s;
     datarefs_to_monitor := datarefs_to_monitor s; previous_values := v;
     current_values := current_values s; roundings := roundings s;
     dataref_frequencies := dataref_frequencies s; _startup := _startup s |}.

Definition set_current_values (v : odict pyval) (s : t) : t :=
  {| all_datarefs := all_datarefs s;
     datarefs_to_monitor := datarefs_to_monitor s;
     previous_values := previous_values s; current_values := v;
     roundings := roundings s;
     dataref_frequencies := dataref_frequencies s; _startup := _startup s |}.

(** [Simulator.__init__], for the fields kept here; [roundings] and
    [dataref_frequencies] as [set_roundings] and [set_dataref_frequencies]
    leave them. *)
Definition __init__ (roundings0 : gmap string Z)
    (frequencies0 : gmap string pyval) : t :=
  {| all_datarefs := ∅; datarefs_to_monitor := ∅; previous_values := ∅;
     current_values := []; roundings := roundings0;
     dataref_frequencies := frequencies0; _startup := true |}.

(** [set_rounding(dataref)] *)
Definition set_rounding (self : t) (dataref : Dataref.t) : Dataref.t :=
  let p := Dataref.path dataref in
  if 0 <? find p "[" then
    match roundings self !! p with
    | Some rnd => Dataref.set_round_ (Some rnd) dataref
    | None =>
        let idx := find p "[" in
        let base := slice p None (Some idx) in
        match roundings self !! (base ++ "[*]")%string with
        | Some rnd => Dataref.set_round_ (Some rnd) dataref
        | None => dataref
        end
    end
  else Dataref.set_round_ (roundings self !! p) dataref.

(** [set_frequency(dataref)]; [get] gives [None] for a missing entry. *)
Definition set_frequency (self : t) (dataref : Dataref.t) : Dataref.t :=
  let p := Dataref.path dataref in
  let get k := default VNone (dataref_frequencies self !! k) in
  if 0 <? find p "[" then
    let freq := get p in
    if negb (is_None freq) then Dataref.set_update_frequency_ freq dataref
    else
      let idx := find p "[" in
      let base := slice p None (Some idx) in
      let freq := get (base ++ "[*]")%string in
      if negb (is_None freq) then Dataref.set_update_frequency_ freq dataref
      else dataref
  else Dataref.set_update_frequency_ (get p) dataref.

(** [register(dataref)]: the object is configured in place and stored; the
    result is that same object. [dataref.exists()] holds for every value of
    the record type, whose path is a string. *)
Definition register (dataref : Dataref.t) : M (t * World) Dataref.t :=
  let* self := get_self in
  match all_datarefs self !! Dataref.path dataref with
  | None =>
      let dataref := set_frequency self (set_rounding self dataref) in
      do modify_self
           (fun s =>
              set_all_datarefs
                (<[Dataref.path dataref := dataref]> (all_datarefs s)) s) then
      ret dataref
  | Some _ => ret dataref
  end.

(** A method call on the object stored at [all_datarefs[d]]: [KeyError]
    when there is none; the object is mutated in place, also when the
    method raises. *)
Definition on_dataref {A} (d : string) (m : M (Dataref.t * World) A)
  : M (t * World) A :=
  fun s =>
    match all_datarefs (fst s) !! d with
    | None => (Raise (KeyError d), s)
    | Some dr =>
        let out := m (dr, snd s) in
        (fst out,
         (set_all_datarefs (<[d := fst (snd out)]> (all_datarefs (fst s)))
            (fst s),
          snd (snd out)))
    end.

(** The body of the [for] loop of [detect_changed] for the path [d] of the
    copied snapshot [currvalues]. *)
Definition detect_step (currvalues : odict pyval) (d : string)
  : M (t * World) unit :=
  let* self := get_self in
  let* v := lift (getitem currvalues d) in
  if match previous_values self !! d with
     | None => true
     | Some pv => py_ne v pv
     end
  then
    if bool_decide (is_Some (datarefs_to_monitor self !! d))
    then on_dataref d (Dataref.update_value v true)
    else on_dataref d (Dataref.update_value v false)
  else ret tt.

(** The body of the [try] block of [detect_changed]. The lock around the
    copy has no counterpart in this sequential model. *)
Definition detect_changed_try : M (t * World) unit :=
  let* self := get_self in
  let currvalues : option (odict pyval) := Some (current_values self) in
  match currvalues with
  | Some currvalues => for_each (keys currvalues) (detect_step currvalues)
  | None => log logger WARNING "no current values"
  end.

(** [detect_changed()] *)
Definition detect_changed : M (t * World) unit :=
  try_except detect_changed_try is_RuntimeError
    (fun _ => log logger WARNING "detect_changed:").

(** [get_dataref_value(dataref, default)] *)
Definition get_dataref_value (dataref : string) (default : pyval)
  : M (t * World) pyval :=
  let* self := get_self in
  match all_datarefs self !! dataref with
  | None => do log logger WARNING "{dataref} not found" then ret VNone
  | Some d =>
      ret (if negb (is_None (Dataref.current_value d))
           then Dataref.current_value d else default)
  end.

(** [clean_datarefs_to_monitor()] *)
Definition clean_datarefs_to_monitor : M (t * World) unit :=
  modify_self (set_datarefs_to_monitor ∅).

(** [add_datarefs_to_monitor(datarefs)]; the argument is
    [datarefs.values()] in order. *)
Definition add_datarefs_to_monitor (datarefs : list Dataref.t)
  : M (t * World) unit :=
  do for_each datarefs (fun d =>
       if startswith (Dataref.path d) Dataref.INTERNAL_DATAREF_PREFIX
       then log logger DEBUG "local dataref {d.path} is not monitored"
       else
         modify_self (fun s =>
           match datarefs_to_monitor s !! Dataref.path d with
           | None =>
               set_datarefs_to_monitor
                 (<[Dataref.path d := 1]> (datarefs_to_monitor s)) s
           | Some n =>
               set_datarefs_to_monitor
                 (<[Dataref.path d := n + 1]> (datarefs_to_monitor s)) s
           end)) then
  do log logger DEBUG "added {prnt}" then
  log logger DEBUG "currently monitoring {self.datarefs_to_monitor}".

(** [remove_datarefs_to_monitor(datarefs)] *)
Definition remove_datarefs_to_monitor (datarefs : list Dataref.t)
  : M (t * World) unit :=
  do for_each datarefs (fun d =>
       if startswith (Dataref.path d) Dataref.INTERNAL_DATAREF_PREFIX
       then log logger DEBUG "local dataref {d.path} is not monitored"
       else
         let* self := get_self in
         match datarefs_to_monitor self !! Dataref.path d with
         | Some n =>
             if n - 1 =? 0
             then modify_self
                    (set_datarefs_to_monitor
                       (delete (Dataref.path d) (datarefs_to_monitor self)))
             else modify_self
                    (set_datarefs_to_monitor
                       (<[Dataref.path d := n - 1]>
                          (datarefs_to_monitor self)))
         | None =>
             if negb (_startup self)
             then log logger WARNING "dataref {d.path} not monitored"
             else ret tt
         end) then
  do log logger DEBUG "removed {prnt}" then
  log logger DEBUG "currently monitoring {self.datarefs_to_monitor}".

End Simulator.

(* ===================================================================== *)
(** * cockpitdecks/buttons/representation/draw_animation.py *)
(* ===================================================================== *)

Module DrawAnimation.
Import Py Py.Notations.

Definition logger : string :=
  "cockpitdecks.buttons.representation.draw_animation".

(** The fields the animation task works with. [exit] is the
    [threading.Event] that [loop] creates when the background thread begins
    to run: [None] until then, afterwards whether the event is set.
    [thread] is the handle of the last [Thread] object created. *)
Record t : Type := mk {
  speed : option float;
  tween : Z;
  running : option bool;     (* None: state unknown *)
  exit : option bool;
  thread : option nat
}.

Definition set_running (v : option bool) (a : t) : t :=
  {| speed := speed a; tween := tween a; running := v; exit := exit a;
     thread := thread a |}.
Definition set_exit (v : option bool) (a : t) : t :=
  {| speed := speed a; tween := tween a; running := running a; exit := v;
     thread := thread a |}.
Definition set_thread (v : option nat) (a : t) : t :=
  {| speed := speed a; tween := tween a; running := running a;
     exit := exit a; thread := v |}.
Definition set_tween (v : Z) (a : t) : t :=
  {| speed := speed a; tween := v; running := running a; exit := exit a;
     thread := thread a |}.

(** [DrawAnimation.__init__]: [speed] is [float(...)] of the configured
    value. *)
Definition __init__ (speed0 : float) : t :=
  {| speed := Some speed0; tween := 0; running := None; exit := None;
     thread := None |}.

(** Truth value of [self.running] *)
Definition is_running (a : t) : bool :=
  match running a with Some b => b | None => false end.


(** [anim_start()] *)
Definition anim_start : M (t * World) unit :=
  let* self := get_self in
  if negb (is_running self) && bool_decide (is_Some (speed self)) then
    do modify_self (set_running (Some true)) then
    let* th := new_thread in
    do modify_self (set_thread (Some th)) then
    do emit_event (EvThreadStart th "ButtonAnimate::loop({self.button.name})") then
    log logger DEBUG "started"
  else log logger WARNING "button {self.button.name}: already started".

(** [anim_stop()]. [caller] is the thread that makes the call, when it is
    one of the threads that [anim_start] created, and [None] for any other
    thread: [Thread.join] raises [RuntimeError] when it is called from the
    thread to be joined, which is the case when the loop thread itself
    comes to [anim_stop]. What [self.thread.is_alive()] answers after the
    bounded [join] is decided by the thread, hence an argument too. *)
Definition anim_stop (caller : option nat) (is_alive : bool)
  : M (t * World) unit :=
  let* self := get_self in
  if is_running self then
    do modify_self (set_running (Some false)) then
    do (match exit self with
        | Some _ => modify_self (set_exit (Some true))
        | None => raise AttributeError
        end) then
    let* th :=
      match thread self with
      | Some th => ret th
      | None => raise AttributeError
      end in
    let timeout :=
      match speed self with
      | Some sp => VFloat (2 * sp)
      | None => VInt (2 * 5)
      end in
    do (if bool_decide (caller = Some th) then raise RuntimeError
        else emit_event (EvThreadJoin th timeout)) then
    do (if is_alive then
          match speed self with
          | Some _ =>
              log logger WARNING
                "button {self.button.name}: animation did not terminate (timetout {2 * self.speed}secs.)"
          | None => raise TypeError
          end
        else ret tt) then
    log logger DEBUG "stopped"
  else log logger DEBUG "button {self.button.name}: already stopped".

End DrawAnimation.

(* ===================================================================== *)
(** * decks/Loupedeck/Devices/LoupedeckLive.py *)
(* ===================================================================== *)

Module LoupedeckLive.
Import Py Py.Notations.

Definition logger : string := "LoupedeckLive".

Definition MAX_TRANSACTIONS : Z := 256.

(** Modelled from the spec: [BIG_ENDIAN] is imported from [constants.py],
    which is not among the sources; the wire format has its integers
    big-endian, so the constant is the byte order "big" of [to_bytes]. *)
Definition BIG_ENDIAN : string := "big".

(** The fields of the device object used by the serial transport. The
    queue [_messages] lists the enqueued payloads, oldest first. A pending
    transaction maps to the action it was sent for, or to [None] once
    [on_default_callback] has seen its id. *)
Record t : Type := mk {
  inited : bool;
  transaction_id : Z;
  pendingTransactions : gmap Z (option Z);
  _buffer : list byte;
  _messages : list (list byte)
}.

Definition set_transaction_id (v : Z) (d : t) : t :=
  {| inited := inited d; transaction_id := v;
     pendingTransactions := pendingTransactions d; _buffer := _buffer d;
     _messages := _messages d |}.
Definition set_pendingTransactions (v : gmap Z (option Z)) (d : t) : t :=
  {| inited := inited d; transaction_id := transaction_id d;
     pendingTransactions := v; _buffer := _buffer d;
     _messages := _messages d |}.
Definition set__buffer (v : list byte) (d : t) : t :=
  {| inited := inited d; transaction_id := transaction_id d;
     pendingTransactions := pendingTransactions d; _buffer := v;
     _messages := _messages d |}.
Definition set__messages (v : list (list byte)) (d : t) : t :=
  {| inited := inited d; transaction_id := transaction_id d;
     pendingTransactions := pendingTransactions d; _buffer := _buffer d;
     _messages := v |}.

(** Modelled from the spec: the base class [Loupedeck], whose [__init__]
    sets these fields, is not among the sources. The framing state starts
    with an empty accumulation buffer, an empty message queue and no pending
    transaction; [inited] is what [init_ws] leaves once the device has
    answered. The counter is taken to start at 0, the id that is never
    handed out; no statement about the allocator depends on that. *)
Definition connected : t :=
  {| inited := true; transaction_id := 0; pendingTransactions := ∅;
     _buffer := []; _messages := [] |}.

(** [self.connection.write(b)] *)
Definition write (b : list byte) : M (t * World) unit :=
  emit_event (EvSerialWrite b).

(** [prep[i:j] = v] for a slice and a value of the same length *)
Definition assign_slice (prep : list byte) (i j : nat) (v : list byte)
  : list byte :=
  take i prep ++ v ++ drop j prep.

(** [send(buff, raw)] *)
Definition send (buff : list byte) (raw : bool) : M (t * World) unit :=
  do (if negb raw then
        let* prep :=
          if 0x80 <? blen buff then
            let prep := replicate 14 x00 in
            let prep := <[0%nat := x82]> prep in
            let prep := <[1%nat := xff]> prep in
            let buff_len := blen buff in
            let* b := lift (to_bytes buff_len 4 BIG_ENDIAN) in
            ret (assign_slice prep 6 10 b)
          else
            let prep := replicate 6 x00 in
            let prep := <[0%nat := x82]> prep in
            let* b := lift (byte_of_int (0x80 + blen buff)) in
            ret (<[1%nat := b]> prep) in
        write prep
      else ret tt) then
  write buff.

(** One round of the [while] loop of [magic_byte_length_parser] on the
    current buffer: [None] when the loop ends (no magic byte, or a frame
    that is not complete yet), otherwise the message to enqueue and the
    buffer that remains. *)
Definition next_frame (magicByte : byte) (buffer : list byte)
  : option (list byte * list byte) :=
  match bytes_find buffer magicByte with
  | None => None
  | Some position =>
      (* We need to at least be able to read the length byte *)
      if (List.length buffer <? position + 2)%nat then None
      else
        match buffer !! (position + 1)%nat with
        | None => None
        | Some b =>
            let nextLength := Z.to_nat (int_of_byte b) in
            (* Make sure we have enough bytes to meet self length *)
            let expectedEnd := (position + nextLength + 2)%nat in
            if (List.length buffer <? expectedEnd)%nat then None
            else
              Some (take (expectedEnd - (position + 2))
                      (drop (position + 2) buffer),
                    drop expectedEnd buffer)
        end
  end.

(** A value together with the equation that says where it comes from. *)
Definition inspect {A} (a : A) : {b : A | a = b} := exist _ a eq_refl.

(** The [while position != -1] loop: frames are taken off the buffer and
    enqueued until [next_frame] finds none. *)
Equations? scan (magicByte : byte) (buffer : list byte)
    (messages : list (list byte)) : list byte * list (list byte)
    by wf (List.length buffer) lt :=
  scan magicByte buffer messages with inspect (next_frame magicByte buffer) := {
    | exist _ None _ => (buffer, messages)
    | exist _ (Some fr) H => scan magicByte (snd fr) (messages ++ [fst fr])
  }.
Proof.
  clear scan. unfold next_frame in H.
  repeat case_match; simplify_eq/=.
  rewrite length_drop.
  repeat match goal with E : (_ <? _)%nat = false |- _ =>
    apply Nat.ltb_ge in E end.
  lia.
Qed.

(** [magic_byte_length_parser(chunk, magicByte)] *)
Definition magic_byte_length_parser (chunk : list byte) (magicByte : byte)
  : M (t * World) unit :=
  do modify_self (fun d => set__buffer (_buffer d ++ chunk) d) then
  modify_self (fun d =>
    let out := scan magicByte (_buffer d) (_messages d) in
    set__messages (snd out) (set__buffer (fst out) d)).

(** The read loop of [_read_serial] over the bytes the connection delivers,
    one [read()] at a time; an empty read is skipped. *)
Definition _read_serial (reads : list (list byte)) : M (t * World) unit :=
  for_each reads (fun raw_byte =>
    if negb (bool_decide (raw_byte = []))
    then magic_byte_length_parser raw_byte x82
    else ret tt).

(** The [data] argument of [do_action]: a bytes object, or something else
    that is converted with [to_bytes(1, ...)], that is an [int]. *)
Inductive data_arg : Type :=
| DataBytes (b : list byte)
| DataInt (n : Z).

(** [do_action(action, data, track)] *)
Definition do_action (action : Z) (data : option data_arg) (track : bool)
  : M (t * World) unit :=
  let* self := get_self in
  if negb (inited self) then log logger WARNING "do_action: not started"
  else
    let* data :=
      match data with
      | Some (DataInt n) =>
          let* b := lift (to_bytes n 1 BIG_ENDIAN) in ret (Some b)
      | Some (DataBytes b) => ret (Some b)
      | None => ret None
      end in
    do modify_self (fun d =>
         set_transaction_id ((transaction_id d + 1) mod MAX_TRANSACTIONS) d) then
    let* self := get_self in
    (* Skip transaction ID's of zero since the device seems to ignore them *)
    do (if transaction_id self =? 0
        then modify_self (fun d =>
               set_transaction_id (transaction_id d + 1) d)
        else ret tt) then
    let* self := get_self in
    let* h_action := lift (to_bytes action 2 BIG_ENDIAN) in
    let* h_id := lift (to_bytes (transaction_id self) 1 BIG_ENDIAN) in
    let header := (h_action ++ h_id)%list in
    let payload :=
      match data with
      | Some data => (header ++ data)%list
      | None => header
      end in
    do (if track
        then modify_self (fun d =>
               set_pendingTransactions
                 (<[transaction_id d := Some action]> (pendingTransactions d))
                 d)
        else ret tt) then
    send payload false.

(** [on_default_callback(transaction_id, response)] *)
Definition on_default_callback (transaction_id : Z) (response : list byte)
  : M (t * World) unit :=
  modify_self (fun d =>
    set_pendingTransactions
      (<[transaction_id := None]> (pendingTransactions d)) d).

(** ** Requests to the device

    The tables [HEADERS] and [DISPLAYS] and the bound [MAX_BRIGHTNESS] come
    from [constants.py], and [PILHelper.to_native_format] from the package's
    image helpers; neither module is among the sources, so the embedded
    methods take them as parameters. *)

(** An entry of [DISPLAYS]: the id is the bytes object that goes on the
    wire. *)
Record display_info : Type := mkDisplay {
  display_id : list byte;
  display_width : Z;
  display_height : Z
}.

Section Constants.
Variable HEADERS : gmap string Z.
Variable DISPLAYS : gmap string display_info.
Variable MAX_BRIGHTNESS : Z.
Variable image : Type.
Variable to_native_format : string -> image -> result (list byte).

(** [set_brightness(brightness)] *)
Definition set_brightness (brightness : Z) : M (t * World) unit :=
  let* q := lift (int_truediv brightness 10) in
  let* brightness := lift (floor q) in
  let* brightness :=
    if brightness <? 1
    then do log logger WARNING "set_brightness: brightness set to 0" then
         ret 0
    else ret brightness in
  let brightness :=
    if MAX_BRIGHTNESS <? brightness then MAX_BRIGHTNESS else brightness in
  let* action := lift (getkey HEADERS "SET_BRIGHTNESS") in
  let* data := lift (to_bytes brightness 1 BIG_ENDIAN) in
  do_action action (Some (DataBytes data)) false.

(** [refresh(display)] *)
Definition refresh (display : string) : M (t * World) unit :=
  let* display_info := lift (getkey DISPLAYS display) in
  let* action := lift (getkey HEADERS "DRAW") in
  do_action action (Some (DataBytes (display_id display_info))) true.

(** [draw_buffer(buff, display, width, height, x, y, auto_refresh)]; an
    omitted [width] or [height] is [None]. *)
Definition draw_buffer (buff : list byte) (display : string)
    (width height : option Z) (x y : Z) (auto_refresh : bool)
  : M (t * World) unit :=
  let* display_info := lift (getkey DISPLAYS display) in
  let width := default (display_width display_info) width in
  let height := default (display_height display_info) height in
  let expected := width * height * 2 in
  do (if negb (blen buff =? expected)
      then log logger ERROR
             "draw_buffer: invalid buffer {len(buff)}, expected={expected}"
      else ret tt) then
  let* header := lift (to_bytes x 2 BIG_ENDIAN) in
  let* hy := lift (to_bytes y 2 BIG_ENDIAN) in
  let header := (header ++ hy)%list in
  let* hw := lift (to_bytes width 2 BIG_ENDIAN) in
  let header := (header ++ hw)%list in
  let* hh := lift (to_bytes height 2 BIG_ENDIAN) in
  let header := (header ++ hh)%list in
  let payload := (display_id display_info ++ header ++ buff)%list in
  let* action := lift (getkey HEADERS "WRITE_FRAMEBUFF") in
  do do_action action (Some (DataBytes payload)) true then
  if auto_refresh then refresh display else ret tt.

(** [draw_image(image, display, width, height, x, y, auto_refresh)] *)
Definition draw_image (img : image) (display : string)
    (width height : option Z) (x y : Z) (auto_refresh : bool)
  : M (t * World) unit :=
  let* buff := lift (to_native_format display img) in
  draw_buffer buff display width height x y auto_refresh.

(** An image argument: a [bytearray], or something else, which is taken
    for a PIL image. *)
Inductive image_arg : Type :=
| ImageBytearray (b : list byte)
| ImagePIL (img : image).

(** [draw_screen(image, display, auto_refresh)] *)
Definition draw_screen (img : image_arg) (display : string)
    (auto_refresh : bool) : M (t * World) unit :=
  match img with
  | ImageBytearray b => draw_buffer b display None None 0 0 auto_refresh
  | ImagePIL i => draw_image i display None None 0 0 auto_refresh
  end.

(** [set_key_image(idx, image)] *)
Definition set_key_image (idx : Z) (img : image_arg) : M (t * World) unit :=
  (* Get offset x/y for key index *)
  let width := 90 in
  let height := 90 in
  let x := idx mod 4 * width in
  let* q := lift (int_truediv idx 4) in
  let* row := lift (floor q) in
  let y := row * height in
  match img with
  | ImageBytearray b =>
      draw_buffer b "center" (Some width) (Some height) x y true
  | ImagePIL i =>
      draw_image i "center" (Some width) (Some height) x y true
  end.

End Constants.

(** ** Messages from the device *)

(** The dict that [on_touch] builds and hands to the callback. *)
Record touch : Type := mkTouch {
  touch_id : Z;
  touch_action : string;
  touch_screen : string;
  touch_key : option Z;
  touch_x : Z;
  touch_y : Z;
  touch_ts : nat
}.

Definition set_touch_action (v : string) (m : touch) : touch :=
  {| touch_id := touch_id m; touch_action := v;
     touch_screen := touch_screen m; touch_key := touch_key m;
     touch_x := touch_x m; touch_y := touch_y m; touch_ts := touch_ts m |}.

(** The device object as the message loop and the input handlers use it:
    the fields of the transport, the touches in progress and the user's
    callback, here for the messages of [on_touch]: it is called with the
    touch and returns or raises, and is assumed neither to call back into
    the device nor to change the touch. [delivered] is not a field of the
    object: it lists the touches the callback was called with, oldest
    first. *)
Record device : Type := mkDevice {
  transport : t;
  touches : gmap Z touch;
  callback : option (touch -> option exn);
  delivered : list touch
}.

Definition set_transport (v : t) (d : device) : device :=
  {| transport := v; touches := touches d; callback := callback d;
     delivered := delivered d |}.
Definition set_touches (v : gmap Z touch) (d : device) : device :=
  {| transport := transport d; touches := v; callback := callback d;
     delivered := delivered d |}.
Definition set_callback_ (v : option (touch -> option exn)) (d : device)
  : device :=
  {| transport := transport d; touches := touches d; callback := v;
     delivered := delivered d |}.
Definition set_delivered (v : list touch) (d : device) : device :=
  {| transport := transport d; touches := touches d;
     callback := callback d; delivered := v |}.

(** A method of the transport called on the device object. *)
Definition on_transport {A} (m : M (t * World) A) : M (device * World) A :=
  fun s =>
    let out := m (transport (fst s), snd s) in
    (fst out, (set_transport (fst (snd out)) (fst s), snd (snd out))).

(** [set_callback(callback)] *)
Definition set_callback (cb : touch -> option exn)
  : M (device * World) unit :=
  modify_self (set_callback_ (Some cb)).

(** [on_touch(buff, event)]; [datetime.now().timestamp()] is a reading of
    the clock. *)
Definition on_touch (buff : list byte) (event : string)
  : M (device * World) unit :=
  let* x := lift (from_bytes (bytes_slice buff 1 3) BIG_ENDIAN) in
  let* y := lift (from_bytes (bytes_slice buff 3 5) BIG_ENDIAN) in
  let* idx := lift (byte_at buff 5) in
  (* Determine target *)
  let screen :=
    if x <? 60 then "left" else if 420 <? x then "right" else "center" in
  let* key :=
    if String.eqb screen "center" then
      let* q := lift (int_truediv (x - 60) 90) in
      let* column := lift (floor q) in
      let* q := lift (int_truediv y 90) in
      let* row := lift (floor q) in
      ret (Some (row * 4 + column))
    else ret None in
  (* Create touch *)
  let* ts := now in
  let touch :=
    {| touch_id := idx; touch_action := event; touch_screen := screen;
       touch_key := key; touch_x := x; touch_y := y; touch_ts := ts |} in
  let* touch :=
    if String.eqb event "touchmove" then
      let* self := get_self in
      match touches self !! idx with
      | None =>
          let touch := set_touch_action "touchstart" touch in
          do modify_self (fun d => set_touches (<[idx := touch]> (touches d)) d) then
          ret touch
      | Some _ => ret touch
      end
    else
      let* self := get_self in
      match touches self !! idx with
      | Some _ =>
          do modify_self (fun d => set_touches (delete idx (touches d)) d) then
          ret touch
      | None => raise (KeyError (str_of_int idx))
      end in
  let* self := get_self in
  match callback self with
  | Some cb =>
      do modify_self (fun d => set_delivered (delivered d ++ [touch]) d) then
      match cb touch with
      | Some e => raise e
      | None => ret tt
      end
  | None => ret tt
  end.

(** [on_touch_end(buff)] *)
Definition on_touch_end (buff : list byte) : M (device * World) unit :=
  on_touch buff "touchend".

(** [on_tick(buff)] *)
Definition on_tick (buff : list byte) : M (device * World) unit :=
  log logger DEBUG "on_tick: {buff}".

(** A handler of [self.handlers]: it is called with the message after its
    first three bytes. *)
Definition handler : Type := list byte -> M (device * World) unit.

(** The body of the inner loop of [_process_messages] for the message
    [buff] taken from the queue. The response is what the handler returns,
    [None] for the handlers of this class, or the message itself when there
    is no handler; [on_default_callback] makes no use of it. The resolver
    found for a pending transaction is the action that [do_action] stored,
    an int, and calling it raises [TypeError]; the bare [except] catches
    every exception. *)
Definition process_message (handlers : gmap Z handler) (buff : list byte)
  : M (device * World) unit :=
  try_except
    (let* header := lift (from_bytes (bytes_slice buff 0 2) BIG_ENDIAN) in
     let handler := handlers !! header in
     let* transaction_id := lift (byte_at buff 2) in
     let* response :=
       match handler with
       | Some h => do h (drop 3 buff) then ret None
       | None => ret (Some buff)
       end in
     let* self := get_self in
     let resolver :=
       match pendingTransactions (transport self) !! transaction_id with
       | Some r => r
       | None => None
       end in
     match resolver with
     | Some _ => raise TypeError
     | None =>
         on_transport
           (on_default_callback transaction_id (default [] response))
     end)
    (fun _ => true)
    (fun _ =>
       do log logger ERROR "_process_messages: exception:" then
       log logger ERROR "_process_messages: resuming").

(** The inner loop of [_process_messages], for at most [rounds] messages:
    while the queue is not empty, its oldest message is taken off and
    processed. *)
Fixpoint _process_messages (handlers : gmap Z handler) (rounds : nat)
  : M (device * World) unit :=
  match rounds with
  | O => ret tt
  | S rounds' =>
      let* self := get_self in
      match _messages (transport self) with
      | [] => ret tt
      | buff :: rest =>
          do modify_self (fun d =>
               set_transport (set__messages rest (transport d)) d) then
          do process_message handlers buff then
          _process_messages handlers rounds'
      end
  end.

End LoupedeckLive.

(* ===================================================================== *)
(** * Vocabulary of the statements *)
(* ===================================================================== *)

(** ** Events of a run *)

(** The events that a run from world [w] to world [w'] added. *)
Definition new_events (w w' : Py.World) : list Py.event :=
  drop (List.length (Py.events w)) (Py.events w').


(** A call of some listener's [dataref_changed]; one of listener [l]; one
    about path [d]. *)
Definition is_changed_event (e : Py.event) : bool :=
  match e with Py.EvChanged _ _ _ _ => true | _ => false end.

Definition changed_event_of (l : nat) (e : Py.event) : bool :=
  match e with Py.EvChanged l' _ _ _ => Nat.eqb l' l | _ => false end.

Definition changed_on (d : string) (e : Py.event) : bool :=
  match e with Py.EvChanged _ p _ _ => String.eqb p d | _ => false end.

(** ** Serial transport *)

Section TransportVocabulary.
Import Py Py.Notations LoupedeckLive.

(** What [magic_byte_length_parser] does to the device object. *)
Definition parsed (chunk : list byte) (m : byte) (d : t) : t :=
  let out := scan m (_buffer d ++ chunk)%list (_messages d) in
  set__messages (snd out) (set__buffer (fst out) d).

(** The id that follows [t] in the allocation order of [do_action]. *)
Definition next_id (t : Z) : Z :=
  if (t + 1) mod 256 =? 0 then 1 else (t + 1) mod 256.

(** A [data] argument that [do_action] can turn into bytes. *)
Definition data_ok (data : option data_arg) : Prop :=
  match data with
  | Some (DataInt n) => 0 <= n < 256
  | _ => True
  end.

(** One [do_action] call, and the state it leaves, whether it returned or
    raised. *)
Definition call : Type := Z * option data_arg * bool.

Definition after_call (st : t * World) (c : call) : t * World :=
  snd (do_action (fst (fst c)) (snd (fst c)) (snd c) st).

Definition after_calls (calls : list call) (st : t * World) : t * World :=
  fold_left after_call calls st.

End TransportVocabulary.

(** ** Dataref updates *)

Section DatarefVocabulary.
Import Py Py.Notations Dataref.

(** A listener whose callbacks return and that has a name to log. *)
Definition quiet (l : Listener) : Prop :=
  is_Some (lname l)
  /\ (forall p o n, dataref_changed l p o n = None)
  /\ (forall p o n, dataref_updated l p o n = None).

(** The test of [has_changed] on a previous and a current value. *)
Definition changed_values (o n : pyval) : bool :=
  if is_None o && is_None n then false
  else if is_None o && negb (is_None n) then true
  else if negb (is_None o) && is_None n then true
  else py_ne n o.

(** [update_value] up to the call of [round]: the values are shifted. *)
Definition stage_shifted (d : t) (v : pyval) : t :=
  set_previous_value (current_value d)
    (set__current_value v (set__previous_value (_current_value d) d)).

(** The dataref as [update_value] has it when it calls [notify_updated]:
    values shifted, [x] stored, update counter and time set. *)
Definition stage_updated (d : t) (v x : pyval) (t0 : nat) : t :=
  set__last_updated (Some t0)
    (set__updated (_updated d + 1) (set_current_value x (stage_shifted d v))).

(** The same after the change counter and time are set. *)
Definition stage_changed (d : t) (t1 : nat) : t :=
  set__last_changed (Some t1) (set__changed (_changed d + 1) d).

(** The dataref that [update_value] leaves when [x] is stored and the
    listeners are quiet, called at time [t0]. *)
Definition updated_dataref (d : t) (v x : pyval) (t0 : nat) : t :=
  if changed_values (current_value d) x
  then stage_changed (stage_updated d v x t0) (S t0)
  else stage_updated d v x t0.

(** The calls made by [notify_updated] and [notify]. *)
Definition ev_updated (p : string) (o n : pyval) (l : Listener) : event :=
  EvUpdated (lid l) p o n.
Definition ev_changed (p : string) (o n : pyval) (l : Listener) : event :=
  EvChanged (lid l) p o n.

(** The events of one listener call that returns: the call, its log line. *)
Definition call_events (ev : Listener -> event)
    (msg_page msg_nopage : string) (l : Listener) : list event :=
  [ev l;
   EvLog "Dataref" SPAM_LEVEL
     (match lpage l with Some _ => msg_page | None => msg_nopage end)].

Definition log_updated : event :=
  EvLog "Dataref" SPAM_LEVEL msg_value_updated.

(** The events of [update_value(v, cascade)] on [d] when [x] is stored and
    every listener is quiet. *)
Definition update_events (d : t) (x : pyval) (cascade : bool) : list event :=
  let p := path d in
  let o := current_value d in
  (flat_map (call_events (ev_updated p o x) msg_updated_page
               msg_updated_nopage) (listeners d)
   ++ if changed_values o x then
        log_updated
          :: (if cascade
              then flat_map
                     (call_events (ev_changed p o x) msg_changed_page
                        msg_changed_nopage) (listeners d)
              else [])
      else [])%list.

(** The listener list that [add_listener(obj)] leaves. *)
Definition with_listener (obj : Listener) (ls : list Listener)
  : list Listener :=
  if listener_in obj ls then ls else (ls ++ [obj])%list.

(** [x] is the object [obj]. *)
Definition same_listener (obj x : Listener) : bool :=
  Nat.eqb (lid x) (lid obj).

End DatarefVocabulary.

(** ** Detection passes *)

Section DetectionVocabulary.
Import Py Py.Notations Simulator.

(** The test of [detect_changed] on one snapshot entry: the path is new, or
    its value differs from the last one seen. *)
Definition needs_update (prev : gmap string pyval) (d : string) (v : pyval)
  : bool :=
  match prev !! d with
  | None => true
  | Some pv => py_ne v pv
  end.

(** [d in self.datarefs_to_monitor.keys()] *)
Definition monitored (mon : gmap string Z) (d : string) : bool :=
  bool_decide (is_Some (mon !! d)).

(** What a detection pass needs of a snapshot entry to run to its end: if
    the entry needs an update, its path is registered, under that path, with
    quiet listeners and a value that can be stored. *)
Definition entry_ready (sim : t) (d : string) (v : pyval) : Prop :=
  needs_update (previous_values sim) d v = true ->
  exists dr x,
    all_datarefs sim !! d = Some dr
    /\ Forall quiet (Dataref.listeners dr)
    /\ Dataref.value_to_store dr v = Ok x
    /\ Dataref.path dr = d.

(** The events of one detection pass over the paths [ks], when every entry
    is ready. *)
Definition pass_events (sim : t) (cur : odict pyval) (ks : list string)
  : list event :=
  flat_map (fun d =>
    match getitem cur d, all_datarefs sim !! d with
    | Ok v, Some dr =>
        if needs_update (previous_values sim) d v then
          match Dataref.value_to_store dr v with
          | Ok x => update_events dr x (monitored (datarefs_to_monitor sim) d)
          | Raise _ => []
          end
        else []
    | _, _ => []
    end) ks.

(** The 'changed' calls between two states of a registry. *)
Definition changed_calls (st st' : t * World) : list event :=
  List.filter is_changed_event (new_events (snd st) (snd st')).

End DetectionVocabulary.

(** ** Scenarios *)

Section Scenarios.
Import Py Py.Notations.

(** A listener that returns from every call, and one whose
    [dataref_changed] raises [e]. *)
Definition quiet_listener (id : nat) (name : string) : Dataref.Listener :=
  {| Dataref.lid := id; Dataref.is_DatarefListener := true;
     Dataref.lname := Some name; Dataref.lpage := None;
     Dataref.dataref_changed := fun _ _ _ => None;
     Dataref.dataref_updated := fun _ _ _ => None |}.

Definition raising_listener (id : nat) (name : string) (e : exn)
  : Dataref.Listener :=
  {| Dataref.lid := id; Dataref.is_DatarefListener := true;
     Dataref.lname := Some name; Dataref.lpage := None;
     Dataref.dataref_changed := fun _ _ _ => Some e;
     Dataref.dataref_updated := fun _ _ _ => None |}.

(** What a consumer does to have a path observed: the dataref is created,
    given its listener, registered and added to the monitored set. *)
Definition enroll (p : string) (l : Dataref.Listener)
  : M (Simulator.t * World) unit :=
  fun st =>
    match Dataref.__init__ p false false None (tt, snd st) with
    | (Ok d, (_, w0)) =>
        let out := Dataref.add_listener l (d, w0) in
        bind (Simulator.register (fst (snd out)))
          (fun d2 => Simulator.add_datarefs_to_monitor [d2])
          (fst st, snd (snd out))
    | (Raise e, (_, w0)) => (Raise e, (fst st, w0))
    end.

(** A registry that knows one dataref, with one listener, monitored once. *)
Definition registry_of (p : string) (l : Dataref.Listener)
  : Simulator.t * World :=
  snd (enroll p l (Simulator.__init__ ∅ ∅, new_world)).

(** The arrival of a snapshot, which the transport of a subclass does:
    [current_values] is replaced; [previous_values] is left as it is, or
    ([shift]) takes the snapshot that is replaced. *)
Definition arrives (shift : bool) (snapshot : Simulator.odict pyval)
    (st : Simulator.t * World) : Simulator.t * World :=
  (Simulator.set_current_values snapshot
     (if shift
      then Simulator.set_previous_values
             (list_to_map (Simulator.current_values (fst st))) (fst st)
      else fst st),
   snd st).

(** Concrete inputs: a dataref as [Dataref("a/b")] builds it, one rounded
    to whole numbers as [set_round(0)] leaves it, an animation whose loop
    thread is running, a registry whose first snapshot has arrived, and a
    registry that receives a value for a path it never registered. *)
Definition sample_dataref : Dataref.t :=
  Dataref.init_fields "a/b" false false None.

Definition rounded_dataref : Dataref.t :=
  Dataref.set_round_ (Some 0) (Dataref.init_fields "sim/x" false false None).

Definition running_animation : DrawAnimation.t :=
  {| DrawAnimation.speed := Some 1%float; DrawAnimation.tween := 0;
     DrawAnimation.running := Some true; DrawAnimation.exit := Some false;
     DrawAnimation.thread := Some 0%nat |}.

Definition first_snapshot : Simulator.t * World :=
  arrives false [("a/b", VFloat 1)]
    (registry_of "a/b" (quiet_listener 0 "button")).

Definition unregistered_snapshot : Simulator.t :=
  Simulator.set_current_values [("a/b", VFloat 1)]
    (Simulator.__init__ ∅ ∅).

End Scenarios.

(** ** Monitoring counts *)

Section MonitorVocabulary.
Import Py Py.Notations Simulator.

(** A dataref that the monitoring functions pass over: its path starts with
    the prefix of internal datarefs. *)
Definition is_local (d : Dataref.t) : bool :=
  startswith (Dataref.path d) Dataref.INTERNAL_DATAREF_PREFIX.

(** How many datarefs of [ds] count for the path [p]: the ones with that
    path that are not local. *)
Definition occurrences (ds : list Dataref.t) (p : string) : Z :=
  Z.of_nat
    (List.length
       (List.filter
          (fun d => negb (is_local d) && String.eqb (Dataref.path d) p) ds)).

(** Every monitored path has at least one object monitoring it. *)
Definition counts_positive (mon : gmap string Z) : Prop :=
  forall p n, mon !! p = Some n -> 1 <= n.

(** The monitor table after the loop of [add_datarefs_to_monitor] and after
    the loop of [remove_datarefs_to_monitor]. *)
Definition counted (mon : gmap string Z) (d : Dataref.t) : gmap string Z :=
  if is_local d then mon
  else match mon !! Dataref.path d with
       | None => <[Dataref.path d := 1]> mon
       | Some n => <[Dataref.path d := n + 1]> mon
       end.

Definition discounted (mon : gmap string Z) (d : Dataref.t)
  : gmap string Z :=
  if is_local d then mon
  else match mon !! Dataref.path d with
       | Some n =>
           if n - 1 =? 0 then delete (Dataref.path d) mon
           else <[Dataref.path d := n - 1]> mon
       | None => mon
       end.

Definition log_local : event :=
  EvLog logger DEBUG "local dataref {d.path} is not monitored".

Definition log_not_monitored : event :=
  EvLog logger WARNING "dataref {d.path} not monitored".

End MonitorVocabulary.

(** ** Registration *)

Section RegistryVocabulary.
Import Py Py.Notations Simulator.

(** Every dataref of the registry is stored under its own path. *)
Definition keyed_by_path (all : gmap string Dataref.t) : Prop :=
  forall p d, all !! p = Some d -> Dataref.path d = p.

(** The string of one character. *)
Definition char (c : ascii) : string := String c "".

End RegistryVocabulary.

(** ** Array elements *)

Section ConstructorVocabulary.
Import Py Py.Notations Dataref.

Definition log_both_types : event :=
  EvLog "Dataref" ERROR
    "__init__: index {path} cannot be both decimal and string".

Definition log_out_of_range : event :=
  EvLog "Dataref" ERROR
    "__init__: index {self.index} out of range [0,{self.length-1}]".

(** The number of decimal digits in a string. *)
Definition digit_count (s : string) : Z :=
  Z.of_nat
    (List.length
       (List.filter
          (fun c => match digit_of c with Some _ => true | None => false end)
          (list_ascii_of_string s))).

(** The dataref that [__init__] has built when it looks at the brackets
    of the path. *)
Definition init_sized (p : string) (dec str : bool) (length0 : option Z)
  : t :=
  let self := init_fields p dec str length0 in
  match length0 with
  | Some n => if 1 <? n then set_is_array true self else self
  | None => self
  end.

End ConstructorVocabulary.

(** ** Updates and detection passes *)

Section UpdateVocabulary.
Import Py Py.Notations.

(** What no update changes of a dataref: its path, its listeners, its
    rounding. *)
Definition same_settings (dr dr' : Dataref.t) : Prop :=
  Dataref.path dr' = Dataref.path dr
  /\ Dataref.dataref dr' = Dataref.dataref dr
  /\ Dataref.listeners dr' = Dataref.listeners dr
  /\ Dataref.round dr' = Dataref.round dr.

(** A run of [update_value] calls, each with its value and its [cascade]
    flag, whatever their outcome. *)
Definition after_updates (us : list (pyval * bool))
    (st : Dataref.t * World) : Dataref.t * World :=
  fold_left (fun st u => snd (Dataref.update_value (fst u) (snd u) st)) us st.

(** What a detection pass may change of a registry: nothing but datarefs
    registered under the paths [ks], and of these neither the settings nor
    the presence. *)
Definition registry_frame (ks : list string) (sim sim' : Simulator.t)
  : Prop :=
  Simulator.previous_values sim' = Simulator.previous_values sim
  /\ Simulator.current_values sim' = Simulator.current_values sim
  /\ Simulator.datarefs_to_monitor sim' = Simulator.datarefs_to_monitor sim
  /\ Simulator.roundings sim' = Simulator.roundings sim
  /\ Simulator.dataref_frequencies sim' = Simulator.dataref_frequencies sim
  /\ Simulator._startup sim' = Simulator._startup sim
  /\ forall p,
       match Simulator.all_datarefs sim !! p,
             Simulator.all_datarefs sim' !! p with
       | None, None => True
       | Some dr, Some dr' => same_settings dr dr' /\ (p ∉ ks -> dr' = dr)
       | _, _ => False
       end.


End UpdateVocabulary.

(** ** Frames and requests *)

Section RequestVocabulary.
Import Py Py.Notations LoupedeckLive.

(** A frame as the device sends it: the magic byte, the length of the
    payload in one byte, the payload. *)
Definition frame (payload : list byte) : list byte :=
  x82 :: default x00 (Byte.of_N (N.of_nat (List.length payload))) :: payload.

(** Bytes that hold no magic byte, then a frame. *)
Definition noisy_frame (gp : list byte * list byte) : list byte :=
  (fst gp ++ frame (snd gp))%list.

Definition no_magic (g : list byte) : Prop := bytes_find g x82 = None.

(** The bytes that [do_action] appends for its [data] argument. *)
Definition data_bytes (data : option data_arg) : result (list byte) :=
  match data with
  | None => Ok []
  | Some (DataBytes b) => Ok b
  | Some (DataInt n) => to_bytes n 1 BIG_ENDIAN
  end.

(** The payload of a request: the action in two bytes, the transaction id
    in one, the data. *)
Definition request (action id : Z) (bs : list byte) : list byte :=
  (be_digits 2 action ++ be_digits 1 id ++ bs)%list.

(** The header that [send] writes before a payload of [n] bytes. *)
Definition send_header (n : Z) : list byte :=
  if 0x80 <? n
  then ([x82; xff; x00; x00; x00; x00] ++ be_digits 4 n
          ++ [x00; x00; x00; x00])%list
  else [x82; default x00 (Byte.of_N (Z.to_N (0x80 + n)));
        x00; x00; x00; x00].

(** The device object after [do_action] has taken the next id, and noted
    the request as pending when it is tracked. *)
Definition requested (action : Z) (track : bool) (d : t) : t :=
  let id := next_id (transaction_id d) in
  if track
  then set_pendingTransactions
         (<[id := Some action]> (pendingTransactions d))
         (set_transaction_id id d)
  else set_transaction_id id d.

End RequestVocabulary.

(** ** Animation records *)

Section AnimationVocabulary.
Import Py DrawAnimation.

Definition log_stopped : event := EvLog logger DEBUG "stopped".
Definition log_already_stopped : event :=
  EvLog logger DEBUG "button {self.button.name}: already stopped".
Definition log_not_terminated : event :=
  EvLog logger WARNING
    "button {self.button.name}: animation did not terminate (timetout {2 * self.speed}secs.)".
Definition log_started : event := EvLog logger DEBUG "started".

End AnimationVocabulary.

(** ** Touches and keys *)

Section TouchVocabulary.
Import Py Py.Notations LoupedeckLive.

(** A check of every int from [lo] on, [fuel] of them. *)
Fixpoint forall_range (fuel : nat) (lo : Z) (P : Z -> bool) : bool :=
  match fuel with
  | O => true
  | S fuel' => P lo && forall_range fuel' (lo + 1) P
  end.

(** [math.floor(a / b)] is the quotient of the integer division. *)
Definition floors_as (b a : Z) : bool :=
  match int_truediv a b with
  | Ok q => match floor q with Ok z => z =? a / b | Raise _ => false end
  | Raise _ => false
  end.

(** Two bytes read as an int, most significant first. *)
Definition word (hi lo : byte) : Z := int_of_byte hi * 256 + int_of_byte lo.

(** The screen under a touch at abscissa [x], and the key under a touch at
    [(x, y)] of the center screen. *)
Definition screen_of (x : Z) : string :=
  if x <? 60 then "left" else if 420 <? x then "right" else "center".

Definition key_of (x y : Z) : option Z :=
  if (60 <=? x) && (x <=? 420) then Some (y / 90 * 4 + (x - 60) / 90)
  else None.

Definition touch_at (id : Z) (action : string) (x y : Z) (ts : nat)
  : touch :=
  {| touch_id := id; touch_action := action; touch_screen := screen_of x;
     touch_key := key_of x y; touch_x := x; touch_y := y; touch_ts := ts |}.

(** The call of the user's callback, when there is one, with the touch
    [m]: its outcome, and the device with the call noted. *)
Definition deliver (m : touch) (d : device) : result unit * device :=
  match callback d with
  | Some cb =>
      (match cb m with Some e => Raise e | None => Ok tt end,
       set_delivered (delivered d ++ [m]) d)
  | None => (Ok tt, d)
  end.

(** The top left corner of the image of key [idx] on the center screen, as
    [set_key_image] places it. *)
Definition key_origin (idx : Z) : Z * Z := (idx mod 4 * 90, idx / 4 * 90).

End TouchVocabulary.

(** ** Displays *)

Section DisplayVocabulary.
Import Py Py.Notations LoupedeckLive.


(** The two writes of a request with data [bs], sent with transaction id
    [id]. *)
Definition request_writes (action id : Z) (bs : list byte) : list event :=
  [EvSerialWrite (send_header (blen bs + 3));
   EvSerialWrite (request action id bs)].

(** A payload length that [send] can frame. *)
Definition sendable (bs : list byte) : Prop :=
  blen bs + 3 <> 0x80 /\ blen bs + 3 < 2 ^ 32.


Definition log_brightness_zero : event :=
  EvLog logger WARNING "set_brightness: brightness set to 0".

(** The brightness level that [set_brightness] sends for a percentage. *)
Definition brightness_level (MAX_BRIGHTNESS brightness : Z) : Z :=
  let level := if brightness / 10 <? 1 then 0 else brightness / 10 in
  if MAX_BRIGHTNESS <? level then MAX_BRIGHTNESS else level.

End DisplayVocabulary.

(** ** Message loop *)

Section MessageVocabulary.
Import Py Py.Notations LoupedeckLive.

(** The two records that the message loop logs when the processing of a
    message raised. *)
Definition log_exception : event :=
  EvLog logger ERROR "_process_messages: exception:".
Definition log_resuming : event :=
  EvLog logger ERROR "_process_messages: resuming".

Definition logged_exception (w : World) : World :=
  emit log_resuming (emit log_exception w).

(** Handlers that leave the fields of the transport alone. *)
Definition keeps_transport (handlers : gmap Z handler) : Prop :=
  forall k h, handlers !! k = Some h ->
  forall b st, transport (fst (snd (h b st))) = transport (fst st).

(** The call of the handler registered for the header of a message, when
    there is one, with the bytes after the third. *)
Definition handled (handlers : gmap Z handler) (header : Z)
    (rest : list byte) (st : device * World)
  : result unit * (device * World) :=
  match handlers !! header with
  | Some h => h rest st
  | None => (Ok tt, st)
  end.

(** The pending table of the device object. *)
Definition pending (d : device) : gmap Z (option Z) :=
  pendingTransactions (transport d).

(** The device and the world after the message loop has processed the
    messages [msgs], oldest first. *)
Definition after_messages (handlers : gmap Z handler)
    (msgs : list (list byte)) (st : device * World) : device * World :=
  fold_left (fun st buff => snd (process_message handlers buff st)) msgs st.

(** A device object for the examples: connected, no touch in progress, no
    callback. *)
Definition idle_device : device :=
  {| transport := connected; touches := ∅; callback := None;
     delivered := [] |}.

End MessageVocabulary.

(** ** Further scenarios *)

Section MoreScenarios.
Import Py Py.Notations.

(** Concrete inputs: a registry that monitors "a/b" for two consumers, a
    registry whose rounding table has a wildcard entry and a dataref for an
    element of that array, an animation that was never started, and a
    stream of two frames with a stray byte before the first. *)
Definition monitoring_registry : Simulator.t :=
  Simulator.set_datarefs_to_monitor {["a/b" := 2]} (Simulator.__init__ ∅ ∅).

Definition wildcard_registry : Simulator.t :=
  Simulator.__init__ {["sim/a[*]" := 2]} ∅.

Definition element_dataref : Dataref.t :=
  Dataref.init_fields "sim/a[3]" false false None.

(** A text for an index: 5 after a no-break space, which [int] takes for
    whitespace. *)
Definition nbsp_index : string := String (ascii_of_nat 160) "5".

Definition new_animation : DrawAnimation.t := DrawAnimation.__init__ 1%float.


Definition rounding_registry : Simulator.t * World :=
  snd (enroll "a/b" (quiet_listener 0 "button")
         (Simulator.__init__ {["a/b" := 0]} ∅, new_world)).

Definition guarded_dataref : Dataref.t :=
  fst (snd (Dataref.add_listener (raising_listener 0 "first" RuntimeError)
              (sample_dataref, new_world))).

Definition sample_stream : list (list byte * list byte) :=
  [([x00], [x01; x02]); ([], [])].

(** Tables and devices for the examples; the values of the tables are
    arbitrary. *)
Definition sample_headers : gmap string Z :=
  {["WRITE_FRAMEBUFF" := 0xff10; "DRAW" := 0x050f;
    "SET_BRIGHTNESS" := 0x0409]}.

Definition sample_display : LoupedeckLive.display_info :=
  {| LoupedeckLive.display_id := [x00; x41];
     LoupedeckLive.display_width := 360;
     LoupedeckLive.display_height := 270 |}.

Definition sample_displays : gmap string LoupedeckLive.display_info :=
  {["center" := sample_display]}.

Definition listening_device : LoupedeckLive.device :=
  LoupedeckLive.set_callback_ (Some (fun _ => None)) idle_device.

Definition touch_handlers : gmap Z LoupedeckLive.handler :=
  {[0x094d := fun buff => LoupedeckLive.on_touch buff "touchmove"]}.

End MoreScenarios.

(* ===================================================================== *)
(** * Facts *)
(* ===================================================================== *)

(** One statement of a method body: the first [bind] is run on the state
    at hand. *)
Ltac run_step :=
  unfold Py.bind at 1;
  cbn [Py.modify_self Py.modify Py.get_self Py.gets Py.now Py.log
       Py.emit_event fst snd].

Section Framing.
Import Py LoupedeckLive.

Lemma scan_unfold m b msgs :
  scan m b msgs =
  match next_frame m b with
  | None => (b, msgs)
  | Some fr => scan m (snd fr) (msgs ++ [fst fr])%list
  end.
Proof.
  simp scan.
  destruct (inspect (next_frame m b)) as [o H].
  destruct o; simpl; by rewrite H.
Qed.

Lemma bytes_find_app b c x p :
  bytes_find b x = Some p -> bytes_find (b ++ c)%list x = Some p.
Proof.
  revert p. induction b as [|y b IH]; intros p; simpl; [discriminate|].
  destruct (Byte.eqb y x); [done|].
  destruct (bytes_find b x) as [i|]; [|discriminate].
  intros [= <-]. by rewrite (IH i).
Qed.

Lemma next_frame_app m b c msg rest :
  next_frame m b = Some (msg, rest) ->
  next_frame m (b ++ c)%list = Some (msg, rest ++ c)%list.
Proof.
  unfold next_frame.
  destruct (bytes_find b m) as [p|] eqn:Hf; [|discriminate].
  rewrite (bytes_find_app _ c _ _ Hf).
  destruct (List.length b <? p + 2)%nat eqn:E1; [discriminate|].
  apply Nat.ltb_ge in E1.
  destruct (b !! (p + 1)%nat) as [lb|] eqn:Hl; [|discriminate].
  set (n := Z.to_nat (int_of_byte lb)).
  destruct (List.length b <? p + n + 2)%nat eqn:E2; [discriminate|].
  apply Nat.ltb_ge in E2.
  intros [= <- <-].
  rewrite length_app.
  replace (_ <? _)%nat with false by (symmetry; apply Nat.ltb_ge; lia).
  rewrite (lookup_app_l_Some _ _ _ _ Hl). fold n.
  replace (_ <? _)%nat with false by (symmetry; apply Nat.ltb_ge; lia).
  f_equal. f_equal.
  - rewrite drop_app_le by lia. rewrite take_app_le; [done|].
    rewrite length_drop. lia.
  - by rewrite drop_app_le by lia.
Qed.

(** The buffer left by [scan] holds no complete frame. *)
Lemma scan_residue m b msgs : next_frame m (fst (scan m b msgs)) = None.
Proof.
  remember (List.length b) as n eqn:Hn. revert b msgs Hn.
  induction n as [n IH] using lt_wf_ind. intros b msgs ->.
  rewrite scan_unfold. destruct (next_frame m b) as [[msg rest]|] eqn:E; [|done].
  simpl. eapply IH; [|reflexivity].
  clear IH. unfold next_frame in E. repeat case_match; simplify_eq/=.
  rewrite length_drop.
  repeat match goal with E : (_ <? _)%nat = false |- _ =>
    apply Nat.ltb_ge in E end. lia.
Qed.

Lemma next_frame_length m b msg rest :
  next_frame m b = Some (msg, rest) -> (List.length rest < List.length b)%nat.
Proof.
  unfold next_frame. intros E. repeat case_match; simplify_eq/=.
  rewrite length_drop.
  repeat match goal with E : (_ <? _)%nat = false |- _ =>
    apply Nat.ltb_ge in E end. lia.
Qed.

(** Scanning what is left of a chunk together with the next chunk is
    scanning both chunks at once. *)
Lemma scan_app m b msgs c :
  scan m (fst (scan m b msgs) ++ c)%list (snd (scan m b msgs)) =
  scan m (b ++ c)%list msgs.
Proof.
  remember (List.length b) as n eqn:Hn. revert b msgs Hn.
  induction n as [n IH] using lt_wf_ind. intros b msgs ->.
  rewrite (scan_unfold m b msgs).
  destruct (next_frame m b) as [[msg rest]|] eqn:E; simpl; [|done].
  rewrite (scan_unfold m (b ++ c)%list), (next_frame_app _ _ c _ _ E). simpl.
  eapply IH; [|reflexivity]. by eapply next_frame_length.
Qed.

Lemma parser_run chunk m d w :
  magic_byte_length_parser chunk m (d, w) = (Ok tt, (parsed chunk m d, w)).
Proof. reflexivity. Qed.

Lemma parsed_app a b m d : parsed b m (parsed a m d) = parsed (a ++ b)%list m d.
Proof.
  unfold parsed. simpl. rewrite scan_app. by rewrite app_assoc.
Qed.

Lemma parsed_nil m d : next_frame m (_buffer d) = None -> parsed [] m d = d.
Proof.
  intros H. unfold parsed. rewrite app_nil_r, scan_unfold, H. by destruct d.
Qed.

Lemma parsed_residue chunk m d : next_frame m (_buffer (parsed chunk m d)) = None.
Proof. unfold parsed. simpl. apply scan_residue. Qed.

Lemma read_serial_bytewise stream d w :
  next_frame x82 (_buffer d) = None ->
  _read_serial (map (fun b => [b]) stream) (d, w)
  = (Ok tt, (parsed stream x82 d, w)).
Proof.
  revert d. induction stream as [|b stream IH]; intros d Hd.
  - by rewrite parsed_nil.
  - cbn -[magic_byte_length_parser]. unfold bind.
    rewrite parser_run.
    change (for_each (map (fun b => [b]) stream) _ ) with
      (_read_serial (map (fun b => [b]) stream)).
    rewrite IH by apply parsed_residue.
    by rewrite parsed_app.
Qed.

Lemma next_frame_exact (lb : byte) payload :
  List.length payload = Z.to_nat (int_of_byte lb) ->
  next_frame x82 (x82 :: lb :: payload) = Some (payload, []).
Proof.
  intros Hl. unfold next_frame. cbn [bytes_find Byte.eqb].
  replace (Byte.eqb x82 x82) with true by reflexivity.
  cbn [List.length lookup list_lookup Nat.add].
  replace (_ <? _)%nat with false by (symmetry; apply Nat.ltb_ge; lia).
  simpl lookup. rewrite <- Hl.
  replace (_ <? _)%nat with false by (symmetry; apply Nat.ltb_ge; simpl; lia).
  f_equal. f_equal.
  - replace (_ - _)%nat with (List.length payload) by lia.
    change (drop 2 (x82 :: lb :: payload)) with payload.
    by rewrite take_ge by lia.
  - apply drop_ge. simpl. lia.
Qed.

(** C2. From a parser state whose buffer holds no complete frame (as the
    parser leaves it, and as it is at the start), reading a byte stream one
    byte at a time, calling the framing parser after each byte, leaves the
    same buffer and the same queue of enqueued messages as one call of the
    parser on the whole stream. In particular a frame [0x82, n, payload]
    with a payload of any length [n] from 0 to 255 (so also 0, 1, 0x7F and
    0x80), read byte by byte into an empty buffer, enqueues exactly that
    payload and leaves the buffer empty. *)
Theorem framing_bytewise_eq_whole (stream : list byte) (d : t) (w : World) :
  next_frame x82 (_buffer d) = None ->
  _read_serial (map (fun b => [b]) stream) (d, w)
  = magic_byte_length_parser stream x82 (d, w)
  /\ (forall (lb : byte) (payload : list byte),
        _buffer d = [] ->
        List.length payload = Z.to_nat (int_of_byte lb) ->
        let d' :=
          fst (snd (_read_serial (map (fun b => [b]) (x82 :: lb :: payload))
                      (d, w))) in
        _messages d' = (_messages d ++ [payload])%list /\ _buffer d' = []).
Proof.
  intros Hd. split.
  - by rewrite read_serial_bytewise, parser_run.
  - intros lb payload Hb Hl. rewrite read_serial_bytewise by done.
    simpl. unfold parsed. rewrite Hb. simpl app.
    rewrite scan_unfold, (next_frame_exact _ _ Hl). simpl.
    rewrite scan_unfold. simpl. done.
Qed.

Lemma framing_bytewise_eq_whole_witness :
  next_frame x82 (_buffer connected) = None
  /\ _read_serial
       (map (fun b => [b]) [x00; x82; x02; x0a; x0b; x82; x00; x82; x03; x01])
       (connected, new_world)
     = magic_byte_length_parser
         [x00; x82; x02; x0a; x0b; x82; x00; x82; x03; x01] x82
         (connected, new_world).
Proof.
  split; [reflexivity|].
  apply (proj1 (framing_bytewise_eq_whole _ connected new_world eq_refl)).
Defined.

(** The frames of that stream: a payload of two bytes after a garbage byte,
    an empty payload, and a frame that is not complete yet. *)
Example framing_stream :
  fst (snd (magic_byte_length_parser
              [x00; x82; x02; x0a; x0b; x82; x00; x82; x03; x01] x82
              (connected, new_world)))
  = set__messages [[x0a; x0b]; []] (set__buffer [x82; x03; x01] connected).
Proof. reflexivity. Qed.

(** Payloads of 0, 1, 0x7F and 0x80 bytes, here all equal to the magic
    byte, read byte by byte. *)
Example framing_boundary_lengths :
  Forall (fun n =>
    match byte_of_int (Z.of_nat n) with
    | Ok lb =>
        _messages
          (fst (snd (_read_serial
                       (map (fun b => [b]) (x82 :: lb :: replicate n x82))
                       (connected, new_world))))
        = [replicate n x82]
    | Raise _ => False
    end) [0; 1; 127; 128]%nat.
Proof. repeat constructor. Qed.

End Framing.

Section Transport.
Import Py Py.Notations LoupedeckLive.

Lemma byte_of_int_value n b : byte_of_int n = Ok b -> int_of_byte b = n.
Proof.
  unfold byte_of_int, int_of_byte.
  destruct ((0 <=? n) && (n <? 256)) eqn:E; [|discriminate].
  destruct (Byte.of_N (Z.to_N n)) as [b'|] eqn:Hb; [|discriminate].
  intros [= <-]. apply Byte.to_of_N in Hb. rewrite Hb. apply andb_true_iff in E as [E _].
  apply Z.leb_le in E. lia.
Qed.

(** Below 0x80 bytes: a 6-byte header [0x82, 0x80 + len, 0, 0, 0, 0], then
    the payload. *)
Lemma send_small buff d w :
  blen buff < 0x80 ->
  exists b,
    int_of_byte b = 0x80 + blen buff
    /\ send buff false (d, w)
       = (Ok tt,
          (d, emit (EvSerialWrite buff)
                (emit (EvSerialWrite [x82; b; x00; x00; x00; x00]) w))).
Proof.
  intros Hlt.
  assert (Hlen : 0 <= blen buff) by (unfold blen; lia).
  destruct (byte_of_int (0x80 + blen buff)) as [b|e] eqn:Hb.
  - exists b. split; [by apply byte_of_int_value|].
    unfold send. cbn -[byte_of_int blen Z.ltb].
    unfold bind at 1. unfold bind at 1.
    replace (128 <? blen buff) with false by (symmetry; apply Z.ltb_ge; lia).
    unfold bind at 1. unfold lift. rewrite Hb. reflexivity.
  - exfalso. unfold byte_of_int in Hb.
    replace ((0 <=? 128 + blen buff) && (128 + blen buff <? 256)) with true
      in Hb by (symmetry; apply andb_true_iff; split;
                [apply Z.leb_le | apply Z.ltb_lt]; lia).
    destruct (Byte.of_N (Z.to_N (128 + blen buff))) eqn:Hn; [discriminate|].
    apply Byte.of_N_None_iff in Hn. lia.
Qed.

(** C5, at the failing input. For a non-raw payload of exactly 0x80 bytes
    [send] takes the short-header branch, where [prep[1] = 0x80 + len(buff)]
    asks a bytearray to hold 256: [ValueError] is raised and nothing is
    written, neither header nor payload. *)
Theorem send_0x80_raises (buff : list byte) (d : t) (w : World) :
  blen buff = 0x80 ->
  send buff false (d, w) = (Raise ValueError, (d, w)).
Proof.
  intros Hl. unfold send. cbn -[byte_of_int blen Z.ltb].
  unfold bind at 1. unfold bind at 1. rewrite Hl. simpl Z.ltb. cbv iota.
  unfold bind at 1. unfold lift. reflexivity.
Qed.

Lemma send_0x80_raises_witness :
  blen (replicate 128 x00) = 0x80 /\
  send (replicate 128 x00) false (connected, new_world)
  = (Raise ValueError, (connected, new_world)).
Proof. split; [reflexivity | apply send_0x80_raises; reflexivity]. Defined.

(** Above 0x80 bytes (and below 2 ** 32): a 14-byte header [0x82, 0xFF],
    four zero bytes, the length as four bytes, most significant first, four
    zero bytes, then the payload. *)
Lemma send_large buff d w :
  0x80 < blen buff < 2 ^ 32 ->
  send buff false (d, w)
  = (Ok tt,
     (d, emit (EvSerialWrite buff)
           (emit (EvSerialWrite
                    ([x82; xff; x00; x00; x00; x00] ++ be_digits 4 (blen buff)
                       ++ [x00; x00; x00; x00])%list) w))).
Proof.
  intros [Hlo Hhi]. unfold send. cbn -[to_bytes blen Z.ltb be_digits].
  unfold bind at 1. unfold bind at 1.
  replace (128 <? blen buff) with true by (symmetry; apply Z.ltb_lt; lia).
  unfold bind at 1. unfold lift, to_bytes.
  change (negb _) with false. cbv iota.
  replace (blen buff <? 0) with false by (symmetry; apply Z.ltb_ge; lia).
  replace (256 ^ Z.of_nat 4 <=? blen buff) with false
    by (symmetry; apply Z.leb_gt; change (256 ^ Z.of_nat 4) with (2 ^ 32); lia).
  reflexivity.
Qed.

Lemma send_self buff raw d w : fst (snd (send buff raw (d, w))) = d.
Proof.
  unfold send, bind, write, emit_event, modify, lift, ret.
  destruct raw; simpl; [done|].
  destruct (128 <? blen buff); simpl.
  - destruct (to_bytes (blen buff) 4 BIG_ENDIAN); done.
  - destruct (byte_of_int (128 + blen buff)); done.
Qed.

Lemma to_bytes_1_ok n :
  0 <= n < 256 -> exists b, to_bytes n 1 BIG_ENDIAN = Ok b.
Proof.
  intros H. unfold to_bytes. change (negb _) with false. cbv iota.
  replace (n <? 0) with false by (symmetry; apply Z.ltb_ge; lia).
  replace (256 ^ Z.of_nat 1 <=? n) with false
    by (symmetry; apply Z.leb_gt; change (256 ^ Z.of_nat 1) with 256; lia).
  eauto.
Qed.

Lemma do_action_device action data track d w :
  inited d = true -> data_ok data ->
  let d' := fst (snd (do_action action data track (d, w))) in
  transaction_id d' = next_id (transaction_id d)
  /\ inited d' = true
  /\ _buffer d' = _buffer d /\ _messages d' = _messages d
  /\ pendingTransactions d' =
       (if track
        then match to_bytes action 2 BIG_ENDIAN with
             | Ok _ => <[next_id (transaction_id d) := Some action]>
                         (pendingTransactions d)
             | Raise _ => pendingTransactions d
             end
        else pendingTransactions d).
Proof.
  intros Hi Hd.
  destruct (do_action action data track (d, w)) as [r [d' w']] eqn:Heq.
  cbn [fst snd].
  unfold do_action, bind, get_self, gets, modify_self, modify, lift, ret
    in Heq.
  cbn [fst snd] in Heq. rewrite Hi in Heq. cbn [negb] in Heq.
  assert (exists data' : option (list byte),
            match data with
            | Some (DataInt n) =>
                to_bytes n 1 BIG_ENDIAN = Ok (default [] data')
            | _ => True
            end) as [data' Hdata].
  { destruct data as [[b|n]|]; [by exists None|..|by exists None].
    simpl in Hd. destruct (to_bytes_1_ok n Hd) as [b ->]. by exists (Some b). }
  destruct data as [[b|n]|]; [| rewrite Hdata in Heq |]; clear Hdata.
  all: cbn [transaction_id set_transaction_id fst snd] in Heq.
  all: unfold next_id, MAX_TRANSACTIONS in *.
  all: destruct (to_bytes_1_ok (next_id (transaction_id d))) as [hid Hid];
    [ unfold next_id;
      pose proof (Z.mod_pos_bound (transaction_id d + 1) 256 ltac:(lia));
      destruct (Z.eqb_spec ((transaction_id d + 1) mod 256) 0); lia |].
  all: unfold next_id in Hid.
  all: destruct ((transaction_id d + 1) mod 256 =? 0) eqn:E;
    cbn [transaction_id set_transaction_id fst snd] in Heq;
    [apply Z.eqb_eq in E; rewrite E in Heq; change (0 + 1) with 1 in Heq|];
    destruct (to_bytes action 2 BIG_ENDIAN) as [ha|e];
    try (destruct track; by simplify_eq/=);
    rewrite Hid in Heq;
    destruct track; cbn [fst snd] in Heq;
    match type of Heq with
    | send ?p ?b (?d0, ?w0) = _ =>
        pose proof (send_self p b d0 w0) as Hs; rewrite Heq in Hs;
        cbn [fst snd] in Hs; subst d'
    end; done.
Qed.

Lemma next_id_range t : 1 <= next_id t <= 255.
Proof.
  unfold next_id. pose proof (Z.mod_pos_bound (t + 1) 256 ltac:(lia)).
  destruct (Z.eqb_spec ((t + 1) mod 256) 0); lia.
Qed.

Lemma next_id_cycle t : 0 <= t <= 255 -> next_id t = t mod 255 + 1.
Proof.
  intros H. unfold next_id.
  destruct (Z.eq_dec t 255) as [->|Hne]; [reflexivity|].
  rewrite (Z.mod_small (t + 1) 256) by lia.
  rewrite (Z.mod_small t 255) by lia.
  destruct (Z.eqb_spec (t + 1) 0); lia.
Qed.

Lemma after_calls_id calls d w :
  inited d = true -> Forall (fun c : call => data_ok (snd (fst c))) calls ->
  calls <> [] ->
  inited (fst (after_calls calls (d, w))) = true
  /\ 1 <= transaction_id (fst (after_calls calls (d, w))) <= 255
  /\ (0 <= transaction_id d <= 255 ->
      transaction_id (fst (after_calls calls (d, w)))
      = (transaction_id d + Z.of_nat (List.length calls) - 1) mod 255 + 1).
Proof.
  revert d w. induction calls as [|c calls IH]; intros d w Hi Hok Hne; [done|].
  apply Forall_cons in Hok as [Hc Hok].
  pose proof (do_action_device (fst (fst c)) (snd (fst c)) (snd c) d w Hi Hc)
    as (Hid & Hi' & _).
  change (fst (snd (do_action (fst (fst c)) (snd (fst c)) (snd c) (d, w))))
    with (fst (after_call (d, w) c)) in Hid, Hi'.
  change (after_calls (c :: calls) (d, w))
    with (after_calls calls (after_call (d, w) c)).
  destruct (after_call (d, w) c) as [d1 w1]. cbn [fst snd] in *.
  destruct calls as [|c' calls'].
  - cbn. rewrite Hid. split; [done|]. split; [apply next_id_range|].
    intros Hr. rewrite next_id_cycle by done. f_equal. f_equal. lia.
  - destruct (IH d1 w1 Hi' Hok ltac:(done)) as (IHi & IHr & IHf).
    split; [done|]. split; [done|]. intros Hr.
    rewrite IHf by (rewrite Hid; pose proof (next_id_range (transaction_id d)); lia).
    rewrite Hid, next_id_cycle by done. f_equal.
    rewrite <- Z.add_sub_assoc, <- Z.add_assoc, Z.add_mod_idemp_l by lia.
    f_equal. cbn [List.length]. lia.
Qed.

(** C4, as amended. On a started device, after any non-empty sequence of
    [do_action] calls whose [data] can be turned into bytes, the transaction
    id is between 1 and 255, never 0; from 255 one call gives 1; from an id
    in 0..255, [n] calls give [(id + n - 1) mod 255 + 1], so the ids are
    handed out in the fixed cyclic order 1, 2, ..., 255, 1, ... without a
    look at the table of pending transactions: the id in use is not handed
    out again by the next 254 calls, and is handed out again by the 255th,
    pending or not. *)
Theorem do_action_transaction_ids (calls : list call) (d : t) (w : World) :
  inited d = true ->
  Forall (fun c : call => data_ok (snd (fst c))) calls ->
  calls <> [] ->
  let id' := transaction_id (fst (after_calls calls (d, w))) in
  1 <= id' <= 255
  /\ (transaction_id d = 255 -> List.length calls = 1%nat -> id' = 1)
  /\ (0 <= transaction_id d <= 255 ->
      id' = (transaction_id d + Z.of_nat (List.length calls) - 1) mod 255 + 1)
  /\ (1 <= transaction_id d <= 255 -> (List.length calls < 255)%nat ->
      id' <> transaction_id d)
  /\ (1 <= transaction_id d <= 255 -> List.length calls = 255%nat ->
      id' = transaction_id d).
Proof.
  intros Hi Hok Hne id'.
  destruct (after_calls_id calls d w Hi Hok Hne) as (_ & Hr & Hf).
  fold id' in Hr, Hf.
  assert (0 < List.length calls)%nat by (destruct calls; [done|simpl; lia]).
  split; [done|]. split; [|split; [done|split]].
  - intros Ht Hl. rewrite Hf, Ht, Hl by lia. reflexivity.
  - intros Ht Hl. rewrite Hf by lia.
    set (k := Z.of_nat (List.length calls)). assert (1 <= k < 255) by lia.
    destruct (Z_lt_le_dec (transaction_id d + k - 1) 255).
    + rewrite Z.mod_small by lia. lia.
    + replace (transaction_id d + k - 1)
        with ((transaction_id d + k - 1 - 255) + 1 * 255) by lia.
      rewrite Z.mod_add, Z.mod_small by lia. lia.
  - intros Ht Hl. rewrite Hf, Hl by lia.
    replace (transaction_id d + Z.of_nat 255 - 1)
      with ((transaction_id d - 1) + 1 * 255) by lia.
    rewrite Z.mod_add, Z.mod_small by lia. lia.
Qed.

Lemma do_action_transaction_ids_witness :
  inited connected = true /\
  transaction_id
    (fst (after_calls (replicate 255 (3, None, true)) (connected, new_world)))
  = 255.
Proof.
  split; [reflexivity|].
  destruct (do_action_transaction_ids (replicate 255 (3, None, true))
              connected new_world) as (_ & _ & Hf & _).
  - reflexivity.
  - by apply Forall_replicate.
  - discriminate.
  - rewrite Hf by (simpl; lia). reflexivity.
Defined.

(** C4, as stated, fails: one tracked request (id 1) followed by 254
    untracked ones leaves a single pending transaction, far below the id
    space, and the next [do_action] is given id 1 again while id 1 is still
    in the table of pending transactions. *)
Lemma do_action_reuses_pending_id :
  size (pendingTransactions
          (fst (after_calls
                  ((3, None, true) :: replicate 254 (3, None, false))
                  (connected, new_world)))) = 1%nat
  /\ pendingTransactions
       (fst (after_calls
               ((3, None, true) :: replicate 254 (3, None, false))
               (connected, new_world)))
     !! transaction_id
          (fst (after_call
                  (after_calls
                     ((3, None, true) :: replicate 254 (3, None, false))
                     (connected, new_world))
                  (3, None, true)))
     = Some (Some 3).
Proof. vm_compute. split; reflexivity. Qed.

End Transport.

Section Animation.
Import Py Py.Notations DrawAnimation.

Lemma anim_stop_eq caller is_alive a w :
  anim_stop caller is_alive (a, w)
  = if is_running a then
      match exit a with
      | None => (Raise AttributeError, (set_running (Some false) a, w))
      | Some _ =>
          let a1 := set_exit (Some true) (set_running (Some false) a) in
          match thread a with
          | None => (Raise AttributeError, (a1, w))
          | Some th =>
              if bool_decide (caller = Some th)
              then (Raise RuntimeError, (a1, w))
              else
                let w1 :=
                  emit (EvThreadJoin th
                          match speed a with
                          | Some sp => VFloat (2 * sp)
                          | None => VInt (2 * 5)
                          end) w in
                if is_alive then
                  match speed a with
                  | Some _ =>
                      (Ok tt,
                       (a1,
                        emit (EvLog logger DEBUG "stopped")
                          (emit
                             (EvLog logger WARNING
                                "button {self.button.name}: animation did not terminate (timetout {2 * self.speed}secs.)")
                             w1)))
                  | None => (Raise TypeError, (a1, w1))
                  end
                else (Ok tt, (a1, emit (EvLog logger DEBUG "stopped") w1))
          end
      end
    else
      (Ok tt,
       (a, emit (EvLog logger DEBUG
                   "button {self.button.name}: already stopped") w)).
Proof.
  unfold anim_stop. run_step. destruct (is_running a); [|reflexivity].
  run_step. unfold bind at 1.
  destruct (exit a) as [ex|]; [|reflexivity].
  cbn [modify_self modify fst snd]. unfold bind at 1.
  destruct (thread a) as [th|]; [|reflexivity].
  cbn [ret thread set_exit set_running speed]. unfold bind at 1.
  destruct (bool_decide (caller = Some th)); [reflexivity|].
  cbn [emit_event modify fst snd]. unfold bind at 1.
  destruct is_alive, (speed a); reflexivity.
Qed.

Lemma anim_start_fresh a w :
  is_Some (speed a) -> is_running a = false ->
  anim_start (a, w)
  = (Ok tt,
     (set_thread (Some (threads w)) (set_running (Some true) a),
      {| events :=
           (events w
            ++ [EvThreadStart (threads w)
                  "ButtonAnimate::loop({self.button.name})";
                EvLog logger DEBUG "started"])%list;
         clock := clock w; threads := S (threads w) |})).
Proof.
  intros [sp Hsp] Hr. unfold anim_start. run_step. rewrite Hr, Hsp.
  unfold bind, new_thread, emit_event, log, modify_self, modify, emit.
  cbn. by rewrite <- app_assoc.
Qed.


End Animation.

Section DatarefFacts.
Import Py Py.Notations Dataref.

Lemma new_events_app w w' l :
  events w' = (events w ++ l)%list -> new_events w w' = l.
Proof. unfold new_events. intros ->. apply drop_app_length. Qed.

Lemma logged_call_run self l ev out mp mn d w :
  logged_call self l ev out mp mn (d, w) =
  match out with
  | Some e => (Raise e, (d, emit ev w))
  | None =>
      match lname l with
      | None => (Raise AttributeError, (d, emit ev w))
      | Some _ =>
          (Ok tt,
           (d, emit (EvLog "Dataref" SPAM_LEVEL
                       match lpage l with Some _ => mp | None => mn end)
                 (emit ev w)))
      end
  end.
Proof.
  unfold logged_call, bind, emit_event, modify, log, ret, raise.
  destruct out, (lname l), (lpage l); reflexivity.
Qed.

(** A loop of listener calls leaves the dataref alone, only appends events,
    and each of them is the event of one of the calls or a log record. *)
Lemma listener_loop self ev outcome mp mn ls d w :
  exists r evs,
    for_each ls (fun dref =>
      logged_call self dref (ev dref) (outcome dref) mp mn) (d, w)
    = (r, (d, {| events := (events w ++ evs)%list; clock := clock w;
                 threads := threads w |}))
    /\ Forall (fun e => (exists l, l ∈ ls /\ e = ev l)
                        \/ exists lg lv m, e = EvLog lg lv m) evs.
Proof.
  revert w. induction ls as [|l ls IH]; intros w.
  - exists (Ok tt), []. split; [|constructor].
    destruct w. cbn. by rewrite app_nil_r.
  - cbn [for_each]. unfold bind at 1. rewrite logged_call_run.
    destruct (outcome l) as [e|].
    { exists (Raise e), [ev l]. split; [reflexivity|].
      constructor; [|constructor]. left. exists l. split; [left|done]. }
    destruct (lname l) as [nm|].
    2:{ exists (Raise AttributeError), [ev l]. split; [reflexivity|].
        constructor; [|constructor]. left. exists l. split; [left|done]. }
    set (lg := EvLog "Dataref" SPAM_LEVEL
                 match lpage l with Some _ => mp | None => mn end).
    destruct (IH (emit lg (emit (ev l) w))) as (r & evs & Heq & Hall).
    exists r, (ev l :: lg :: evs). split.
    + rewrite Heq. cbn [emit events clock threads].
      rewrite <- !app_assoc. reflexivity.
    + constructor; [left; exists l; split; [left|done]|].
      constructor; [right; unfold lg; eauto|].
      eapply Forall_impl; [exact Hall|].
      intros e [(l' & Hl' & ->)|H]; [|by right].
      left. exists l'. split; [by right|done].
Qed.

(** With quiet listeners the loop returns and logs every call. *)
Lemma listener_loop_quiet self ev outcome mp mn ls d w :
  Forall (fun l => is_Some (lname l) /\ outcome l = None) ls ->
  for_each ls (fun dref =>
    logged_call self dref (ev dref) (outcome dref) mp mn) (d, w)
  = (Ok tt,
     (d, {| events := (events w ++ flat_map (call_events ev mp mn) ls)%list;
            clock := clock w; threads := threads w |})).
Proof.
  revert w. induction ls as [|l ls IH]; intros w Hq.
  - destruct w. cbn. by rewrite app_nil_r.
  - apply Forall_cons in Hq as [[[nm Hnm] Hout] Hq].
    cbn [for_each]. unfold bind at 1. rewrite logged_call_run, Hout, Hnm.
    rewrite IH by done. cbn [emit events clock threads flat_map call_events].
    rewrite <- !app_assoc. reflexivity.
Qed.

Lemma has_changed_values self :
  has_changed self
  = changed_values (previous_value self) (current_value self).
Proof. reflexivity. Qed.

Lemma update_value_eq d w v c :
  update_value v c (d, w) =
  match value_to_store d v with
  | Raise e => (Raise e, (stage_shifted d v, w))
  | Ok x =>
      match notify_updated (stage_updated d v x (clock w), tick w) with
      | (Raise e, s) => (Raise e, s)
      | (Ok _, (d2, w2)) =>
          if has_changed d2 then
            let d3 := stage_changed d2 (clock w2) in
            let w3 := emit log_updated (tick w2) in
            if c then notify (d3, w3) else (Ok tt, (d3, w3))
          else (Ok tt, (d2, w2))
      end
  end.
Proof.
  unfold update_value.
  do 4 run_step. unfold bind at 1. unfold lift at 1.
  change (value_to_store (set_previous_value _ _) v) with (value_to_store d v).
  destruct (value_to_store d v) as [x|e]; [|reflexivity].
  do 4 run_step. unfold bind at 1.
  change (set__last_updated _ _) with (stage_updated d v x (clock w)).
  destruct (notify_updated _) as [[[]|e] [d2 w2]]; [|reflexivity].
  run_step.
  destruct (has_changed d2); [|reflexivity].
  do 4 run_step.
  destruct c; reflexivity.
Qed.

Lemma notify_updated_run d w :
  exists r evs,
    notify_updated (d, w)
    = (r, (d, {| events := (events w ++ evs)%list; clock := clock w;
                 threads := threads w |}))
    /\ Forall (fun e => is_changed_event e = false) evs.
Proof.
  unfold notify_updated, bind. cbn [get_self gets fst snd].
  destruct (listener_loop d
              (ev_updated (path d) (previous_value d) (current_value d))
              (fun l => dataref_updated l (path d) (previous_value d)
                          (current_value d))
              msg_updated_page msg_updated_nopage
              (listeners d) d w) as (r & evs & Heq & Hall).
  exists r, evs. split; [exact Heq|].
  eapply Forall_impl; [exact Hall|].
  by intros e [(l & _ & ->)|(lg & lv & m & ->)].
Qed.

Lemma notify_run d w :
  exists r evs,
    notify (d, w)
    = (r, (d, {| events := (events w ++ evs)%list; clock := clock w;
                 threads := threads w |})).
Proof.
  unfold notify, bind. cbn [get_self gets fst snd].
  destruct (has_changed d).
  - destruct (listener_loop d
              (ev_changed (path d) (previous_value d) (current_value d))
              (fun l => dataref_changed l (path d) (previous_value d)
                          (current_value d))
              msg_changed_page msg_changed_nopage
              (listeners d) d w) as (r & evs & Heq & _).
    by exists r, evs.
  - exists (Ok tt), []. destruct w. cbn. by rewrite app_nil_r.
Qed.

(** What one call of [update_value] does to the dataref, whatever the
    listeners do. *)
Lemma update_value_fields d w v c x :
  value_to_store d v = Ok x ->
  let out := update_value v c (d, w) in
  let d' := fst (snd out) in
  previous_value d' = current_value d
  /\ current_value d' = x
  /\ _updated d' = _updated d + 1
  /\ round d' = round d
  /\ listeners d' = listeners d
  /\ path d' = path d
  /\ (has_changed d' = false ->
      _changed d' = _changed d
      /\ List.filter is_changed_event (new_events w (snd (snd out))) = []).
Proof.
  intros Hx out d'. subst d' out. rewrite update_value_eq, Hx.
  destruct (notify_updated_run (stage_updated d v x (clock w)) (tick w))
    as (r & evs & -> & Hall).
  assert (Hnone : List.filter is_changed_event evs = []).
  { clear -Hall. induction Hall as [|e evs He _ IH]; [done|].
    cbn. rewrite He. exact IH. }
  destruct r as [[]|e].
  - destruct (has_changed (stage_updated d v x (clock w))) eqn:Hc.
    + cbn [events clock threads tick].
      set (d3 := stage_changed _ _). set (w3 := emit _ _).
      assert (Hd3 : has_changed d3 = true) by exact Hc.
      destruct c.
      * destruct (notify_run d3 w3) as (r' & evs' & ->). cbn [fst snd].
        do 6 (split; [reflexivity|]). intros Hf. congruence.
      * cbn [fst snd]. do 6 (split; [reflexivity|]). intros Hf. congruence.
    + cbn [fst snd]. do 6 (split; [reflexivity|]). intros _.
      split; [reflexivity|].
      erewrite new_events_app; [exact Hnone|reflexivity].
  - cbn [fst snd]. do 6 (split; [reflexivity|]). intros _.
    split; [reflexivity|].
    erewrite new_events_app; [exact Hnone|reflexivity].
Qed.

Lemma notify_updated_quiet d w :
  Forall quiet (listeners d) ->
  notify_updated (d, w)
  = (Ok tt,
     (d, {| events :=
              (events w
               ++ flat_map
                    (call_events
                       (ev_updated (path d) (previous_value d)
                          (current_value d))
                       msg_updated_page msg_updated_nopage) (listeners d))%list;
            clock := clock w; threads := threads w |})).
Proof.
  intros Hq. unfold notify_updated, bind. cbn [get_self gets fst snd].
  apply (listener_loop_quiet d
           (ev_updated (path d) (previous_value d) (current_value d))).
  eapply Forall_impl; [exact Hq|]. intros l (Hn & _ & Hu). by split.
Qed.

Lemma notify_quiet d w :
  Forall quiet (listeners d) ->
  has_changed d = true ->
  notify (d, w)
  = (Ok tt,
     (d, {| events :=
              (events w
               ++ flat_map
                    (call_events
                       (ev_changed (path d) (previous_value d)
                          (current_value d))
                       msg_changed_page msg_changed_nopage) (listeners d))%list;
            clock := clock w; threads := threads w |})).
Proof.
  intros Hq Hc. unfold notify, bind. cbn [get_self gets fst snd]. rewrite Hc.
  apply (listener_loop_quiet d
           (ev_changed (path d) (previous_value d) (current_value d))).
  eapply Forall_impl; [exact Hq|]. intros l (Hn & Hch & _). by split.
Qed.

Lemma stage_updated_fields d v x t0 :
  path (stage_updated d v x t0) = path d
  /\ previous_value (stage_updated d v x t0) = current_value d
  /\ current_value (stage_updated d v x t0) = x
  /\ listeners (stage_updated d v x t0) = listeners d.
Proof. by repeat split. Qed.

Lemma stage_changed_fields d t1 :
  path (stage_changed d t1) = path d
  /\ previous_value (stage_changed d t1) = previous_value d
  /\ current_value (stage_changed d t1) = current_value d
  /\ listeners (stage_changed d t1) = listeners d.
Proof. by repeat split. Qed.

Lemma update_value_quiet d w v c x :
  Forall quiet (listeners d) ->
  value_to_store d v = Ok x ->
  update_value v c (d, w)
  = (Ok tt,
     (updated_dataref d v x (clock w),
      {| events := (events w ++ update_events d x c)%list;
         clock := if changed_values (current_value d) x
                  then S (S (clock w)) else S (clock w);
         threads := threads w |})).
Proof.
  intros Hq Hx. rewrite update_value_eq, Hx.
  destruct (stage_updated_fields d v x (clock w)) as (Hp & Ho & Hn & Hl).
  rewrite notify_updated_quiet by (rewrite Hl; exact Hq).
  rewrite has_changed_values, Hp, Ho, Hn, Hl.
  unfold updated_dataref, update_events.
  destruct (changed_values (current_value d) x) eqn:Hc.
  - cbn zeta. cbn [tick clock].
    destruct (stage_changed_fields (stage_updated d v x (clock w))
                (S (clock w))) as (Hp3 & Ho3 & Hn3 & Hl3).
    rewrite Hp in Hp3. rewrite Ho in Ho3. rewrite Hn in Hn3.
    rewrite Hl in Hl3.
    destruct c.
    + rewrite notify_quiet;
        [|rewrite Hl3; exact Hq
         |rewrite has_changed_values, Ho3, Hn3; exact Hc].
      rewrite Hp3, Ho3, Hn3, Hl3.
      unfold emit, tick. cbn [events clock threads].
      rewrite <- !app_assoc. reflexivity.
    + unfold emit, tick. cbn [events clock threads].
      rewrite <- !app_assoc. reflexivity.
  - by rewrite app_nil_r.
Qed.

Lemma py_ne_changed_values o n : changed_values o n = py_ne n o.
Proof. by destruct o, n. Qed.

(** C3, as amended. After [update_value(v1)] then [update_value(v2)],
    where [x1] and [x2] are the values stored for [v1] and [v2] (the value
    rounded to the dataref's precision when one is set and the value is an
    int or a float, else the value itself), [has_changed()] is [x2 != x1]:
    false from None to None, true from None to a value or from a value to
    None; and when no rounding is set it is [v2 != v1]. This holds whatever
    the listeners do. *)
Theorem has_changed_after_updates (d : t) (w : World)
    (v1 v2 x1 x2 : pyval) (c1 c2 : bool) :
  value_to_store d v1 = Ok x1 ->
  value_to_store d v2 = Ok x2 ->
  let st1 := snd (update_value v1 c1 (d, w)) in
  let st2 := snd (update_value v2 c2 st1) in
  has_changed (fst st2) = py_ne x2 x1
  /\ (is_None x1 = true -> is_None x2 = true -> has_changed (fst st2) = false)
  /\ (is_None x1 = true -> is_None x2 = false -> has_changed (fst st2) = true)
  /\ (is_None x1 = false -> is_None x2 = true -> has_changed (fst st2) = true)
  /\ (round d = None -> has_changed (fst st2) = py_ne v2 v1).
Proof.
  intros H1 H2 st1 st2.
  pose proof (update_value_fields d w v1 c1 x1 H1) as (_ & Hc1 & _ & Hr1 & _).
  fold st1 in Hc1, Hr1. destruct st1 as [d1 w1]. cbn [fst snd] in *.
  assert (H2' : value_to_store d1 v2 = Ok x2)
    by (unfold value_to_store in *; by rewrite Hr1).
  pose proof (update_value_fields d1 w1 v2 c2 x2 H2') as (Hp2 & Hc2 & _).
  fold st2 in Hp2, Hc2.
  assert (Hh : has_changed (fst st2) = py_ne x2 x1).
  { rewrite has_changed_values, Hp2, Hc2, Hc1. apply py_ne_changed_values. }
  split; [exact Hh|]. rewrite Hh.
  split; [|split; [|split]].
  - clear. intros Ha Hb. by destruct x1, x2.
  - clear. intros Ha Hb. by destruct x1, x2.
  - clear. intros Ha Hb. by destruct x1, x2.
  - intros Hn. unfold value_to_store in H1, H2. rewrite Hn in H1, H2.
    congruence.
Qed.

(** C10. On a dataref with rounding precision [ndigits], for two
    successive [update_value] calls with ints or floats [v1], [v2] whose
    roundings [x1], [x2] are equal ([x2 == x1]), whatever [cascade] is and
    whatever the listeners do: the update counter is incremented by each
    call, the rounded values are what is stored, the change counter is the
    same after the second call as before it, and the second call makes no
    'changed' call to any listener. *)
Theorem rounded_updates_no_change (d : t) (w : World)
    (v1 v2 x1 x2 : pyval) (c1 c2 : bool) (ndigits : Z) :
  round d = Some ndigits ->
  type_in_int_float v1 = true -> type_in_int_float v2 = true ->
  Py.round v1 ndigits = Ok x1 -> Py.round v2 ndigits = Ok x2 ->
  py_eq x2 x1 = true ->
  let st1 := snd (update_value v1 c1 (d, w)) in
  let st2 := snd (update_value v2 c2 st1) in
  _updated (fst st1) = _updated d + 1
  /\ _updated (fst st2) = _updated d + 2
  /\ current_value (fst st1) = x1 /\ current_value (fst st2) = x2
  /\ _changed (fst st2) = _changed (fst st1)
  /\ List.filter is_changed_event (new_events (snd st1) (snd st2)) = [].
Proof.
  intros Hr Ht1 Ht2 H1 H2 Heq st1 st2.
  assert (Hs1 : value_to_store d v1 = Ok x1)
    by (unfold value_to_store; by rewrite Hr, Ht1).
  pose proof (update_value_fields d w v1 c1 x1 Hs1)
    as (_ & Hc1 & Hu1 & Hr1 & _).
  fold st1 in Hc1, Hu1, Hr1. destruct st1 as [d1 w1]. cbn [fst snd] in *.
  assert (Hs2 : value_to_store d1 v2 = Ok x2)
    by (unfold value_to_store; by rewrite Hr1, Hr, Ht2).
  pose proof (update_value_fields d1 w1 v2 c2 x2 Hs2)
    as (Hp2 & Hc2 & Hu2 & _ & _ & _ & Hno).
  fold st2 in Hp2, Hc2, Hu2, Hno.
  assert (Hh : has_changed (fst st2) = false).
  { rewrite has_changed_values, Hp2, Hc2, Hc1, py_ne_changed_values.
    unfold py_ne. by rewrite Heq. }
  destruct (Hno Hh) as [Hch Hev].
  repeat split; try done. lia.
Qed.

Lemma add_listener_run obj d w :
  exists w',
    add_listener obj (d, w)
    = (Ok tt, (set_listeners (with_listener obj (listeners d)) d, w')).
Proof.
  unfold add_listener, with_listener, bind.
  destruct (is_DatarefListener obj); cbn [negb ret log modify fst snd];
    cbn [get_self gets fst snd];
    destruct (listener_in obj (listeners d)) eqn:E; cbn [negb ret];
    cbn [modify_self modify fst snd log]; eexists; try reflexivity.
  all: destruct d; reflexivity.
Qed.

Lemma listener_in_filter obj ls :
  listener_in obj ls = false -> List.filter (same_listener obj) ls = [].
Proof.
  unfold listener_in. induction ls as [|x ls IH]; [done|].
  cbn. unfold same_listener at 1.
  destruct (Nat.eqb (lid x) (lid obj)); [done|]. exact IH.
Qed.

Lemma listener_in_with obj ls : listener_in obj (with_listener obj ls) = true.
Proof.
  unfold with_listener. destruct (listener_in obj ls) eqn:E; [done|].
  unfold listener_in. rewrite existsb_app. cbn. rewrite Nat.eqb_refl.
  by rewrite orb_true_r.
Qed.

Lemma with_listener_once obj ls :
  NoDup (map lid ls) ->
  List.length (List.filter (same_listener obj) (with_listener obj ls)) = 1%nat.
Proof.
  unfold with_listener. destruct (listener_in obj ls) eqn:E.
  - induction ls as [|x ls IH]; [discriminate|].
    cbn [map]. intros Hnd. apply NoDup_cons in Hnd as [Hx Hnd].
    cbn in E |- *. unfold same_listener at 1.
    destruct (Nat.eqb (lid x) (lid obj)) eqn:Ex.
    + apply Nat.eqb_eq in Ex. cbn. f_equal.
      rewrite listener_in_filter; [done|].
      unfold listener_in. apply not_true_iff_false. intros Hin.
      apply existsb_exists in Hin as (y & Hy & Hyo).
      apply Nat.eqb_eq in Hyo. apply Hx. rewrite Ex, <- Hyo.
      apply list_elem_of_fmap. exists y. split; [done|].
      by apply list_elem_of_In.
    + by apply IH.
  - intros _. rewrite List.filter_app, (listener_in_filter _ _ E). cbn.
    unfold same_listener. by rewrite Nat.eqb_refl.
Qed.

Lemma filter_changed_updated k p o n mp mn ls :
  List.filter (changed_event_of k)
    (flat_map (call_events (ev_updated p o n) mp mn) ls) = [].
Proof. induction ls as [|l ls IH]; [done|]. cbn. exact IH. Qed.

Lemma filter_changed_changed obj p o n mp mn ls :
  List.length
    (List.filter (changed_event_of (lid obj))
       (flat_map (call_events (ev_changed p o n) mp mn) ls))
  = List.length (List.filter (same_listener obj) ls).
Proof.
  induction ls as [|l ls IH]; [done|]. cbn. unfold same_listener at 1.
  destruct (Nat.eqb (lid l) (lid obj)); cbn; by rewrite IH.
Qed.

(** The 'changed' calls that a loop of listener calls makes to one listener
    are no more than the entries it has in the list, whatever the listeners
    do. *)
Lemma listener_loop_calls self p o n outcome mp mn obj ls d w :
  exists r evs,
    for_each ls (fun dref =>
      logged_call self dref (ev_changed p o n dref) (outcome dref) mp mn)
      (d, w)
    = (r, (d, {| events := (events w ++ evs)%list; clock := clock w;
                 threads := threads w |}))
    /\ (List.length (List.filter (changed_event_of (lid obj)) evs)
        <= List.length (List.filter (same_listener obj) ls))%nat.
Proof.
  revert w. induction ls as [|l ls IH]; intros w.
  - exists (Ok tt), []. split; [|done].
    destruct w. cbn. by rewrite app_nil_r.
  - cbn [for_each List.filter]. unfold bind at 1. rewrite logged_call_run.
    unfold same_listener at 1.
    assert (Hone : forall rest,
      (List.length rest <= List.length (List.filter (same_listener obj) ls))%nat ->
      (List.length
         (List.filter (changed_event_of (lid obj))
            (ev_changed p o n l :: rest))
       <= List.length
            (if Nat.eqb (lid l) (lid obj)
             then l :: List.filter (same_listener obj) ls
             else List.filter (same_listener obj) ls))%nat).
    { intros rest Hrest. cbn [List.filter ev_changed changed_event_of].
      destruct (Nat.eqb (lid l) (lid obj)); cbn [List.length].
      - pose proof (List.filter_length_le (changed_event_of (lid obj)) rest).
        lia.
      - pose proof (List.filter_length_le (changed_event_of (lid obj)) rest).
        lia. }
    destruct (outcome l) as [e|].
    { exists (Raise e), [ev_changed p o n l]. split; [reflexivity|].
      cbn [List.filter ev_changed changed_event_of].
      destruct (Nat.eqb (lid l) (lid obj)); cbn [List.length]; lia. }
    destruct (lname l) as [nm|].
    2:{ exists (Raise AttributeError), [ev_changed p o n l].
        split; [reflexivity|].
        cbn [List.filter ev_changed changed_event_of].
        destruct (Nat.eqb (lid l) (lid obj)); cbn [List.length]; lia. }
    set (lg := EvLog "Dataref" SPAM_LEVEL
                 match lpage l with Some _ => mp | None => mn end).
    destruct (IH (emit lg (emit (ev_changed p o n l) w)))
      as (r & evs & Heq & Hle).
    exists r, (ev_changed p o n l :: lg :: evs). split.
    + rewrite Heq. cbn [emit events clock threads].
      rewrite <- !app_assoc. reflexivity.
    + cbn [List.filter ev_changed changed_event_of lg].
      destruct (Nat.eqb (lid l) (lid obj)); cbn [List.length]; lia.
Qed.

Lemma not_changed_filter k evs :
  Forall (fun e => is_changed_event e = false) evs ->
  List.filter (changed_event_of k) evs = [].
Proof.
  induction 1 as [|e evs He _ IH]; [done|]. cbn [List.filter].
  destruct e; try discriminate; cbn [changed_event_of]; exact IH.
Qed.

(** One [update_value] calls [dataref_changed] of a listener no more often
    than the listener has entries, whatever the listeners do. *)
Lemma update_value_calls d w v c obj :
  (List.length
     (List.filter (changed_event_of (lid obj))
        (new_events w (snd (snd (update_value v c (d, w))))))
   <= List.length (List.filter (same_listener obj) (listeners d)))%nat.
Proof.
  rewrite update_value_eq.
  destruct (value_to_store d v) as [x|e].
  2:{ cbn [fst snd]. unfold new_events. rewrite drop_all. cbn. lia. }
  destruct (notify_updated_run (stage_updated d v x (clock w)) (tick w))
    as (r & evs & -> & Hall).
  pose proof (not_changed_filter (lid obj) evs Hall) as Hnone.
  destruct r as [[]|e].
  2:{ cbn [fst snd]. erewrite new_events_app by reflexivity.
      rewrite Hnone. cbn. lia. }
  destruct (has_changed (stage_updated d v x (clock w))) eqn:Hc.
  2:{ cbn [fst snd]. erewrite new_events_app by reflexivity.
      rewrite Hnone. cbn. lia. }
  cbn [events clock threads tick].
  set (d3 := stage_changed _ _). set (w3 := emit _ _).
  destruct c.
  2:{ cbn [fst snd]. subst w3.
      erewrite new_events_app
        by (cbn [emit tick events clock threads];
            rewrite <- !app_assoc; reflexivity).
      rewrite List.filter_app, Hnone. cbn. lia. }
  unfold notify, bind. cbn [get_self gets fst snd].
  assert (Hd3 : has_changed d3 = true) by exact Hc. rewrite Hd3.
  destruct (listener_loop_calls d3 (path d3) (previous_value d3)
              (current_value d3)
              (fun l => dataref_changed l (path d3) (previous_value d3)
                          (current_value d3))
              msg_changed_page msg_changed_nopage obj (listeners d3) d3 w3)
    as (r' & evs' & Heq & Hle).
  unfold ev_changed in Heq. rewrite Heq. cbn [fst snd].
  subst w3.
  erewrite new_events_app
    by (cbn [emit tick events clock threads];
        rewrite <- !app_assoc; reflexivity).
  rewrite !List.filter_app, Hnone. cbn [app List.filter log_updated
                                        changed_event_of].
  exact Hle.
Qed.

(** C8. Calling [add_listener(obj)] twice returns and leaves the same
    listener list as calling it once; on a dataref whose list has no
    duplicate (as [__init__] and [add_listener] keep it) that list has
    exactly one entry for [obj]. A following
    [update_value(v, cascade=True)] then calls [obj.dataref_changed] at
    most once, whatever the listeners do; and exactly once when the value
    it stores differs from the value stored before, and not at all when it
    does not, provided every listener returns from its calls. *)
Theorem add_listener_idempotent (d : t) (w w2 : World) (obj : Listener)
    (v x : pyval) :
  let d1 := fst (snd (add_listener obj (d, w))) in
  let d2 :=
    fst (snd ((do add_listener obj then add_listener obj) (d, w))) in
  let out := update_value v true (d2, w2) in
  let calls :=
    List.length
      (List.filter (changed_event_of (lid obj))
         (new_events w2 (snd (snd out)))) in
  fst ((do add_listener obj then add_listener obj) (d, w)) = Ok tt
  /\ listeners d2 = listeners d1
  /\ (NoDup (map lid (listeners d)) ->
      List.length (List.filter (same_listener obj) (listeners d2)) = 1%nat
      /\ (calls <= 1)%nat
      /\ (value_to_store d v = Ok x ->
          quiet obj -> Forall quiet (listeners d) ->
          fst out = Ok tt
          /\ calls
             = if changed_values (current_value d) x then 1%nat else 0%nat)).
Proof.
  intros d1 d2 out calls.
  destruct (add_listener_run obj d w) as [w1 H1].
  assert (Hd1 : d1 = set_listeners (with_listener obj (listeners d)) d)
    by (subst d1; by rewrite H1).
  destruct (add_listener_run obj d1 w1) as [w1' H2].
  assert (Hrun : (do add_listener obj then add_listener obj) (d, w)
                 = (Ok tt,
                    (set_listeners (with_listener obj (listeners d1)) d1,
                     w1'))).
  { unfold bind. rewrite H1. rewrite <- Hd1. exact H2. }
  assert (Hd2 : d2 = set_listeners (with_listener obj (listeners d1)) d1)
    by (subst d2; by rewrite Hrun).
  assert (Hl1 : listeners d1 = with_listener obj (listeners d))
    by (by rewrite Hd1).
  assert (Hl2 : listeners d2 = listeners d1).
  { rewrite Hd2. cbn [listeners set_listeners]. rewrite Hl1.
    unfold with_listener at 1. by rewrite listener_in_with. }
  split; [by rewrite Hrun|]. split; [exact Hl2|].
  intros Hnd.
  assert (Hone : List.length (List.filter (same_listener obj) (listeners d2))
                 = 1%nat).
  { rewrite Hl2, Hl1. by apply with_listener_once. }
  split; [exact Hone|]. split.
  { subst calls out. rewrite <- Hone. apply update_value_calls. }
  intros Hx Hqo Hq.
  assert (Hq2 : Forall quiet (listeners d2)).
  { rewrite Hl2, Hl1. unfold with_listener.
    destruct (listener_in obj (listeners d)); [done|].
    apply Forall_app. split; [done|]. by constructor. }
  assert (Hx2 : value_to_store d2 v = Ok x) by (by rewrite Hd2, Hd1).
  assert (Hcv : current_value d2 = current_value d) by (by rewrite Hd2, Hd1).
  subst calls out. rewrite (update_value_quiet d2 w2 v true x Hq2 Hx2).
  cbn [fst snd]. split; [done|].
  erewrite new_events_app by reflexivity.
  unfold update_events.
  rewrite List.filter_app, filter_changed_updated. cbn [app].
  rewrite Hcv.
  destruct (changed_values (current_value d) x) eqn:Hc.
  - cbn [List.filter changed_event_of log_updated].
    by rewrite filter_changed_changed.
  - reflexivity.
Qed.

End DatarefFacts.

Section Detection.
Import Py Py.Notations Simulator.

Lemma detect_changed_try_eq sim w :
  detect_changed_try (sim, w)
  = for_each (keys (current_values sim)) (detect_step (current_values sim))
      (sim, w).
Proof. reflexivity. Qed.

Lemma detect_step_skip cur d v sim w :
  getitem cur d = Ok v ->
  needs_update (previous_values sim) d v = false ->
  detect_step cur d (sim, w) = (Ok tt, (sim, w)).
Proof.
  intros Hg Hn. unfold detect_step, bind. cbn [get_self gets fst snd].
  unfold lift. rewrite Hg. unfold needs_update in Hn.
  destruct (previous_values sim !! d); by rewrite Hn.
Qed.

Lemma detect_step_missing cur d v sim w :
  getitem cur d = Ok v ->
  needs_update (previous_values sim) d v = true ->
  all_datarefs sim !! d = None ->
  detect_step cur d (sim, w) = (Raise (KeyError d), (sim, w)).
Proof.
  intros Hg Hn Hm. unfold detect_step, bind. cbn [get_self gets fst snd].
  unfold lift. rewrite Hg. unfold needs_update in Hn.
  replace (match previous_values sim !! d with
           | Some pv => py_ne v pv | None => true end) with true
    by (by destruct (previous_values sim !! d)).
  destruct (bool_decide _); unfold on_dataref; cbn [fst snd]; by rewrite Hm.
Qed.

Lemma detect_step_update cur d v sim w dr x :
  getitem cur d = Ok v ->
  needs_update (previous_values sim) d v = true ->
  all_datarefs sim !! d = Some dr ->
  Forall quiet (Dataref.listeners dr) ->
  Dataref.value_to_store dr v = Ok x ->
  detect_step cur d (sim, w)
  = (Ok tt,
     (set_all_datarefs
        (<[d := updated_dataref dr v x (clock w)]> (all_datarefs sim)) sim,
      {| events :=
           (events w
            ++ update_events dr x (monitored (datarefs_to_monitor sim) d))%list;
         clock := if changed_values (Dataref.current_value dr) x
                  then S (S (clock w)) else S (clock w);
         threads := threads w |})).
Proof.
  intros Hg Hn Hm Hq Hx. unfold detect_step, bind.
  cbn [get_self gets fst snd]. unfold lift. rewrite Hg.
  unfold needs_update in Hn.
  replace (match previous_values sim !! d with
           | Some pv => py_ne v pv | None => true end) with true
    by (by destruct (previous_values sim !! d)).
  unfold monitored.
  destruct (bool_decide _); unfold on_dataref; cbn [fst snd]; rewrite Hm;
    rewrite (update_value_quiet dr w v _ x Hq Hx); reflexivity.
Qed.

Lemma getitem_elem {V} (cur : odict V) d :
  d ∈ keys cur -> exists v, getitem cur d = Ok v /\ (d, v) ∈ cur.
Proof.
  induction cur as [|[k v] cur IH]; cbn; [by intros H%elem_of_nil|].
  intros H. destruct (String.eqb_spec k d) as [->|Hne].
  - exists v. split; [done|left].
  - apply elem_of_cons in H as [H|H]; [congruence|].
    destruct (IH H) as (v' & Hg & Hin). exists v'. split; [done|by right].
Qed.

Lemma getitem_nodup {V} (cur : odict V) d v :
  NoDup (keys cur) -> (d, v) ∈ cur -> getitem cur d = Ok v.
Proof.
  induction cur as [|[k v'] cur IH]; cbn; [by intros _ H%elem_of_nil|].
  intros Hnd H. apply NoDup_cons in Hnd as [Hk Hnd].
  apply elem_of_cons in H as [H|H].
  - injection H as <- <-. by rewrite String.eqb_refl.
  - destruct (String.eqb_spec k d) as [->|Hne]; [|by apply IH].
    exfalso. apply Hk. apply list_elem_of_fmap. by exists (d, v).
Qed.

Lemma pass_events_ext sim sim' cur ks :
  previous_values sim' = previous_values sim ->
  datarefs_to_monitor sim' = datarefs_to_monitor sim ->
  (forall d, d ∈ ks -> all_datarefs sim' !! d = all_datarefs sim !! d) ->
  pass_events sim' cur ks = pass_events sim cur ks.
Proof.
  intros Hp Hm Ha. unfold pass_events. rewrite Hp, Hm.
  induction ks as [|d ks IH]; [done|]. cbn [flat_map].
  rewrite (Ha d) by left. f_equal. apply IH. intros d' Hd'. apply Ha.
  by right.
Qed.

(** The loop of a detection pass over paths that are ready. *)
Lemma pass_loop cur ks sim w :
  NoDup ks ->
  (forall d, d ∈ ks ->
     exists v, getitem cur d = Ok v /\ entry_ready sim d v) ->
  exists sim' w',
    for_each ks (detect_step cur) (sim, w) = (Ok tt, (sim', w'))
    /\ previous_values sim' = previous_values sim
    /\ datarefs_to_monitor sim' = datarefs_to_monitor sim
    /\ current_values sim' = current_values sim
    /\ (forall d, d ∉ ks -> all_datarefs sim' !! d = all_datarefs sim !! d)
    /\ (forall d v, d ∈ ks -> getitem cur d = Ok v ->
        if needs_update (previous_values sim) d v then
          exists dr x t0,
            all_datarefs sim !! d = Some dr
            /\ Dataref.value_to_store dr v = Ok x
            /\ all_datarefs sim' !! d = Some (updated_dataref dr v x t0)
        else all_datarefs sim' !! d = all_datarefs sim !! d)
    /\ events w' = (events w ++ pass_events sim cur ks)%list.
Proof.
  revert sim w. induction ks as [|d ks IH]; intros sim w Hnd Hready.
  - exists sim, w. split; [reflexivity|]. repeat split; try done.
    + by intros d v H%elem_of_nil.
    + cbn. by rewrite app_nil_r.
  - apply NoDup_cons in Hnd as [Hd Hnd].
    destruct (Hready d ltac:(left)) as (v & Hg & Hr).
    cbn [for_each]. unfold bind at 1.
    destruct (needs_update (previous_values sim) d v) eqn:Hn.
    + destruct (Hr Hn) as (dr & x & Hm & Hq & Hx & Hp).
      rewrite (detect_step_update cur d v sim w dr x Hg Hn Hm Hq Hx).
      set (sim1 := set_all_datarefs _ sim). set (w1 := mkWorld _ _ _).
      destruct (IH sim1 w1 Hnd) as (sim' & w' & Hrun & Hpv & Hmo & Hcv & Hfr
                                    & Hks & Hev).
      { intros d' Hd'. destruct (Hready d' ltac:(by right)) as (v' & Hg' & Hr').
        exists v'. split; [done|]. intros Hn'.
        destruct (Hr' Hn') as (dr' & x' & Hm' & Hrest).
        exists dr', x'. split; [|done]. subst sim1. cbn.
        rewrite lookup_insert_ne; [done|]. intros ->. done. }
      exists sim', w'. split; [exact Hrun|]. split; [done|]. split; [done|].
      split; [done|]. split; [|split].
      * intros d' Hd'. apply not_elem_of_cons in Hd' as [Hne Hd'].
        rewrite Hfr by done. subst sim1. cbn. by rewrite lookup_insert_ne.
      * intros d' v' Hd' Hg'. apply elem_of_cons in Hd' as [->|Hd'].
        -- assert (v' = v) as -> by congruence. rewrite Hn.
           exists dr, x, (clock w). split; [done|]. split; [done|].
           rewrite Hfr by done. subst sim1. cbn. by rewrite lookup_insert_eq.
        -- assert (d' <> d) by (intros ->; done).
           specialize (Hks d' v' Hd' Hg'). change (previous_values sim1)
             with (previous_values sim) in Hks.
           subst sim1. cbn in Hks. by rewrite lookup_insert_ne in Hks.
      * rewrite Hev. subst w1. cbn [events].
        rewrite (pass_events_ext sim sim1 cur ks); try done.
        -- rewrite <- app_assoc. f_equal. unfold pass_events at 2.
           cbn [flat_map]. fold (pass_events sim cur ks).
           by rewrite Hg, Hm, Hn, Hx.
        -- intros d' Hd'. subst sim1. cbn. rewrite lookup_insert_ne; [done|].
           intros ->. done.
    + rewrite (detect_step_skip cur d v sim w Hg Hn).
      destruct (IH sim w Hnd) as (sim' & w' & Hrun & Hpv & Hmo & Hcv & Hfr
                                  & Hks & Hev).
      { intros d' Hd'. apply Hready. by right. }
      exists sim', w'. split; [exact Hrun|]. split; [done|]. split; [done|].
      split; [done|]. split; [|split].
      * intros d' Hd'. apply not_elem_of_cons in Hd' as [Hne Hd'].
        by apply Hfr.
      * intros d' v' Hd' Hg'. apply elem_of_cons in Hd' as [->|Hd'].
        -- assert (v' = v) as -> by congruence. rewrite Hn. by apply Hfr.
        -- by apply Hks.
      * rewrite Hev. f_equal. unfold pass_events at 2. cbn [flat_map].
        fold (pass_events sim cur ks). rewrite Hg, Hn.
        by destruct (all_datarefs sim !! d).
Qed.

Lemma filter_changed_on_updated d p o n mp mn ls :
  List.filter (changed_on d)
    (flat_map (call_events (ev_updated p o n) mp mn) ls) = [].
Proof. induction ls as [|l ls IH]; [done|]. cbn. exact IH. Qed.

Lemma filter_changed_on_changed d p o n mp mn ls :
  List.filter (changed_on d)
    (flat_map (call_events (ev_changed p o n) mp mn) ls)
  = if String.eqb p d then map (ev_changed p o n) ls else [].
Proof.
  induction ls as [|l ls IH]; [by destruct (String.eqb p d)|].
  cbn. rewrite IH. by destruct (String.eqb p d).
Qed.

Lemma filter_changed_on_update d dr x c :
  List.filter (changed_on d) (update_events dr x c)
  = if String.eqb (Dataref.path dr) d && c
       && changed_values (Dataref.current_value dr) x
    then map (ev_changed (Dataref.path dr) (Dataref.current_value dr) x)
           (Dataref.listeners dr)
    else [].
Proof.
  unfold update_events. rewrite List.filter_app, filter_changed_on_updated.
  cbn [app]. destruct (changed_values _ x); [|by rewrite !andb_false_r].
  cbn [List.filter changed_on log_updated]. destruct c.
  - rewrite filter_changed_on_changed.
    by destruct (String.eqb (Dataref.path dr) d).
  - by rewrite andb_false_r.
Qed.

(** The events of one snapshot entry in a detection pass. *)
Lemma pass_events_cons sim cur d ks :
  pass_events sim cur (d :: ks)
  = (pass_events sim cur [d] ++ pass_events sim cur ks)%list.
Proof. unfold pass_events. cbn [flat_map]. by rewrite app_nil_r. Qed.

Lemma filter_changed_on_other d d' sim cur :
  d' <> d ->
  (forall v, getitem cur d' = Ok v -> entry_ready sim d' v) ->
  List.filter (changed_on d) (pass_events sim cur [d']) = [].
Proof.
  intros Hne Hr. unfold pass_events. cbn [flat_map]. rewrite app_nil_r.
  destruct (getitem cur d') as [v|] eqn:Hg; [|done].
  destruct (all_datarefs sim !! d') as [dr|] eqn:Hm; [|done].
  destruct (needs_update _ d' v) eqn:Hn; [|done].
  destruct (Hr v eq_refl Hn) as (dr' & x & Hm' & _ & Hx & Hp).
  assert (dr' = dr) as -> by congruence. rewrite Hx.
  rewrite filter_changed_on_update, Hp.
  by destruct (String.eqb_spec d' d).
Qed.

Lemma filter_changed_on_pass d sim cur ks :
  NoDup ks ->
  (forall d' v, d' ∈ ks -> getitem cur d' = Ok v -> entry_ready sim d' v) ->
  List.filter (changed_on d) (pass_events sim cur ks)
  = if bool_decide (d ∈ ks)
    then List.filter (changed_on d) (pass_events sim cur [d])
    else [].
Proof.
  induction ks as [|d' ks IH]; intros Hnd Hr; [done|].
  apply NoDup_cons in Hnd as [Hd' Hnd].
  rewrite pass_events_cons, List.filter_app, IH; [|done|];
    [|intros d'' v Hin; apply Hr; by right].
  destruct (decide (d' = d)) as [->|Hne].
  - rewrite (bool_decide_eq_false_2 (d ∈ ks)) by done.
    rewrite bool_decide_eq_true_2 by left. by rewrite app_nil_r.
  - rewrite (filter_changed_on_other d d'); [|done|].
    2:{ intros v. apply Hr. left. }
    cbn [app]. destruct (bool_decide (d ∈ ks)) eqn:E.
    + apply bool_decide_eq_true in E.
      by rewrite bool_decide_eq_true_2 by (by right).
    + apply bool_decide_eq_false in E.
      rewrite bool_decide_eq_false_2; [done|].
      intros [?|?]%elem_of_cons; done.
Qed.

End Detection.

Section DetectionTheorems.
Import Py Py.Notations Simulator.

Lemma detect_changed_ok st st' :
  detect_changed_try st = (Ok tt, st') -> detect_changed st = (Ok tt, st').
Proof. intros H. unfold detect_changed, try_except. by rewrite H. Qed.

Lemma updated_dataref_fields dr v x t0 :
  let dr' := updated_dataref dr v x t0 in
  Dataref.previous_value dr' = Dataref.current_value dr
  /\ Dataref.current_value dr' = x
  /\ Dataref._updated dr' = Dataref._updated dr + 1
  /\ Dataref._changed dr'
     = Dataref._changed dr + (if Dataref.has_changed dr' then 1 else 0).
Proof.
  unfold updated_dataref.
  destruct (changed_values (Dataref.current_value dr) x) eqn:E; cbn zeta.
  - rewrite has_changed_values.
    destruct (stage_changed_fields (stage_updated dr v x t0) (S t0))
      as (_ & -> & -> & _).
    destruct (stage_updated_fields dr v x t0) as (_ & -> & -> & _).
    rewrite E. by repeat split.
  - rewrite has_changed_values.
    destruct (stage_updated_fields dr v x t0) as (_ & -> & -> & _).
    rewrite E. repeat split; try done. cbn. lia.
Qed.

(** C1. For a snapshot with pairwise distinct paths in which every path
    that needs an update is registered under its own path, with quiet
    listeners and a value that can be stored: [detect_changed] returns
    normally; for each path of the snapshot whose value is new or differs
    from the last one seen, the registered dataref is updated (previous
    value, stored value, update counter, change counter) and its listeners
    get their 'changed' call, one each, exactly when the path is monitored
    and the value stored, which is the snapshot's value rounded as the
    dataref demands, differs from the value stored before; every other
    dataref is left as it was, with no 'changed' call. And for the
    registry of one dataref "a/b" with one listener and monitor count 1,
    the snapshots {"a/b": 1.0}, {"a/b": 1.0}, {"a/b": 2.0} give one
    'changed' call (old None, new 1.0), then none, then one (old 1.0, new
    2.0), whether or not the transport moves [previous_values] along. *)
Theorem detect_changed_updates (sim : t) (w : World) :
  NoDup (keys (current_values sim)) ->
  (forall d v, (d, v) ∈ current_values sim -> entry_ready sim d v) ->
  (exists sim' w',
     detect_changed (sim, w) = (Ok tt, (sim', w'))
     /\ (forall d v, (d, v) ∈ current_values sim ->
         if needs_update (previous_values sim) d v then
           exists dr dr' x,
             all_datarefs sim !! d = Some dr
             /\ Dataref.value_to_store dr v = Ok x
             /\ all_datarefs sim' !! d = Some dr'
             /\ Dataref.previous_value dr' = Dataref.current_value dr
             /\ Dataref.current_value dr' = x
             /\ Dataref._updated dr' = Dataref._updated dr + 1
             /\ Dataref._changed dr'
                = Dataref._changed dr
                  + (if changed_values (Dataref.current_value dr) x
                     then 1 else 0)
             /\ List.filter (changed_on d) (new_events w w')
                = if monitored (datarefs_to_monitor sim) d
                     && changed_values (Dataref.current_value dr) x
                  then map (ev_changed d (Dataref.current_value dr) x)
                         (Dataref.listeners dr)
                  else []
         else all_datarefs sim' !! d = all_datarefs sim !! d
              /\ List.filter (changed_on d) (new_events w w') = [])
     /\ (forall d, d ∉ keys (current_values sim) ->
         all_datarefs sim' !! d = all_datarefs sim !! d))
  /\ forall shift : bool,
       let s0 := registry_of "a/b" (quiet_listener 0 "button") in
       let s1 := arrives shift [("a/b", VFloat 1)] s0 in
       let s1' := snd (detect_changed s1) in
       let s2 := arrives shift [("a/b", VFloat 1)] s1' in
       let s2' := snd (detect_changed s2) in
       let s3 := arrives shift [("a/b", VFloat 2)] s2' in
       let s3' := snd (detect_changed s3) in
       datarefs_to_monitor (fst s0) !! "a/b" = Some 1
       /\ changed_calls s1 s1' = [EvChanged 0 "a/b" VNone (VFloat 1)]
       /\ changed_calls s2 s2' = []
       /\ changed_calls s3 s3' = [EvChanged 0 "a/b" (VFloat 1) (VFloat 2)].
Proof.
  intros Hnd Hready. split.
  - destruct (pass_loop (current_values sim) (keys (current_values sim))
                sim w Hnd)
      as (sim' & w' & Hrun & Hpv & Hmo & Hcv & Hfr & Hks & Hev).
    { intros d Hd. destruct (getitem_elem _ _ Hd) as (v & Hg & Hin).
      exists v. split; [done|]. by apply Hready. }
    exists sim', w'. split.
    { apply detect_changed_ok. by rewrite detect_changed_try_eq. }
    split; [|exact Hfr].
    intros d v Hin.
    assert (Hk : d ∈ keys (current_values sim))
      by (apply list_elem_of_fmap; by exists (d, v)).
    pose proof (getitem_nodup _ _ _ Hnd Hin) as Hg.
    assert (Hfil : List.filter (changed_on d) (new_events w w')
                   = List.filter (changed_on d)
                       (pass_events sim (current_values sim) [d])).
    { rewrite (new_events_app _ _ _ Hev), filter_changed_on_pass; [|done|].
      - by rewrite bool_decide_eq_true_2.
      - intros d' v' Hd' Hg'. apply Hready.
        destruct (getitem_elem _ _ Hd') as (v'' & Hg'' & Hin'). congruence. }
    specialize (Hks d v Hk Hg).
    destruct (needs_update (previous_values sim) d v) eqn:Hn.
    + destruct Hks as (dr & x & t0 & Hm & Hx & Hm').
      destruct (Hready d v Hin Hn) as (dr0 & x0 & Hm0 & _ & _ & Hp).
      assert (dr0 = dr) as -> by congruence.
      destruct (updated_dataref_fields dr v x t0) as (Ho & Hc & Hu & Hch).
      assert (Hhc : Dataref.has_changed (updated_dataref dr v x t0)
                    = changed_values (Dataref.current_value dr) x)
        by (by rewrite has_changed_values, Ho, Hc).
      rewrite Hhc in Hch.
      exists dr, (updated_dataref dr v x t0), x.
      do 7 (split; [done|]).
      rewrite Hfil. unfold pass_events. cbn [flat_map].
      rewrite app_nil_r, Hg, Hm, Hn, Hx, filter_changed_on_update, Hp.
      rewrite String.eqb_refl. done.
    + split; [done|]. rewrite Hfil. unfold pass_events. cbn [flat_map].
      rewrite Hg, Hn. by destruct (all_datarefs sim !! d).
  - intros []; vm_compute; repeat split; reflexivity.
Qed.

Lemma for_each_app {S B} (l1 l2 : list B) (f : B -> M S unit) st :
  for_each (l1 ++ l2)%list f st
  = match for_each l1 f st with
    | (Ok _, st') => for_each l2 f st'
    | (Raise e, st') => (Raise e, st')
    end.
Proof.
  revert st. induction l1 as [|x l1 IH]; intros st; [done|].
  cbn [app for_each]. unfold bind. destruct (f x st) as [[[]|e] st']; [|done].
  apply IH.
Qed.

(** C6, as amended. [detect_changed] never lets a [RuntimeError] (or a
    subclass) reach its caller: it logs a warning and returns, the state
    being what the pass had made of it when the exception was raised. Any
    other exception reaches the caller, with the state likewise. In
    particular, when the snapshot has a path that needs an update and is
    absent from the all-values map, the paths before it being ready, the
    call raises [KeyError] for that path after the datarefs of the earlier
    paths have been updated. *)
Theorem detect_changed_exceptions (sim : t) (w : World)
    (pre post : odict pyval) (d : string) (v : pyval) :
  current_values sim = (pre ++ (d, v) :: post)%list ->
  NoDup (keys (current_values sim)) ->
  (forall d' v', (d', v') ∈ pre -> entry_ready sim d' v') ->
  needs_update (previous_values sim) d v = true ->
  all_datarefs sim !! d = None ->
  (exists sim' w',
     detect_changed (sim, w) = (Raise (KeyError d), (sim', w'))
     /\ forall d' v', (d', v') ∈ pre ->
        needs_update (previous_values sim) d' v' = true ->
        exists dr x t0,
          all_datarefs sim !! d' = Some dr
          /\ Dataref.value_to_store dr v' = Ok x
          /\ all_datarefs sim' !! d' = Some (updated_dataref dr v' x t0))
  /\ (forall st e, fst (detect_changed st) = Raise e ->
      is_RuntimeError e = false)
  /\ (forall st st' e,
        detect_changed_try st = (Raise e, st') ->
        if is_RuntimeError e
        then detect_changed st
             = (Ok tt,
                (fst st',
                 emit (EvLog logger WARNING "detect_changed:") (snd st')))
        else detect_changed st = (Raise e, st')).
Proof.
  intros Hcur Hnd Hready Hn Hm. split; [|split].
  - assert (Hkeys : keys (current_values sim)
                    = (keys pre ++ d :: keys post)%list)
      by (unfold keys; by rewrite Hcur, map_app).
    rewrite Hkeys in Hnd. pose proof Hnd as Hnd'.
    apply NoDup_app in Hnd' as (Hndpre & Hdisj & Hndpost).
    assert (Hget : forall d' v', (d', v') ∈ pre ->
                     getitem (current_values sim) d' = Ok v').
    { intros d' v' Hin. apply getitem_nodup; [by rewrite Hkeys|].
      rewrite Hcur. apply elem_of_app. by left. }
    destruct (pass_loop (current_values sim) (keys pre) sim w Hndpre)
      as (sim' & w' & Hrun & Hpv & Hmo & Hcv & Hfr & Hks & Hev).
    { intros d' Hd'. apply list_elem_of_fmap in Hd' as ([d'' v'] & -> & Hin).
      exists v'. split; [by apply Hget|]. by apply Hready. }
    exists sim', w'. split.
    + unfold detect_changed, try_except.
      rewrite detect_changed_try_eq, Hkeys, for_each_app, Hrun.
      cbn [for_each]. unfold bind.
      rewrite (detect_step_missing _ d v sim' w').
      * reflexivity.
      * apply getitem_nodup; [by rewrite Hkeys|].
        rewrite Hcur. apply elem_of_app. right. left.
      * by rewrite Hpv.
      * rewrite Hfr; [done|]. intros Hin. apply (Hdisj d Hin). left.
    + intros d' v' Hin Hn'.
      assert (Hk : d' ∈ keys pre)
        by (apply list_elem_of_fmap; by exists (d', v')).
      specialize (Hks d' v' Hk (Hget d' v' Hin)). by rewrite Hn' in Hks.
  - intros st e. unfold detect_changed, try_except.
    destruct (detect_changed_try st) as [[[]|e'] st']; [done|].
    destruct (is_RuntimeError e') eqn:E; cbn; [done|]. congruence.
  - intros st st' e H. unfold detect_changed, try_except. rewrite H.
    by destruct (is_RuntimeError e).
Qed.

(** C6, as stated, fails: with a snapshot value for a path that was never
    registered, [detect_changed] raises [KeyError] to its caller. *)
Lemma detect_changed_raises_KeyError :
  detect_changed
    (set_current_values [("a/b", VFloat 1)] (Simulator.__init__ ∅ ∅),
     new_world)
  = (Raise (KeyError "a/b"),
     (set_current_values [("a/b", VFloat 1)] (Simulator.__init__ ∅ ∅),
      new_world)).
Proof. reflexivity. Qed.

End DetectionTheorems.

Section Witnesses.
Import Py Py.Notations.

(** C7, at the failing input. [Dataref("sim/x:d")] keeps "sim/x:d" as
    [path] and as [dataref], and stays a float that is not decimal: the
    suffix is stripped from a local variable only, and the type letter is
    read after the stripping, so it is the last character of "sim/x".
    Likewise "sim/x:s" is not made a string. *)
Theorem Dataref_init_suffix_not_applied (w : World) :
  (exists d,
     Dataref.__init__ "sim/x:d" false false None (tt, w) = (Ok d, (tt, w))
     /\ Dataref.path d = "sim/x:d"
     /\ Dataref.dataref d = "sim/x:d"
     /\ Dataref.is_decimal d = false
     /\ Dataref.data_type d = "float")
  /\ (exists d,
        Dataref.__init__ "sim/x:s" false false None (tt, w) = (Ok d, (tt, w))
        /\ Dataref.path d = "sim/x:s"
        /\ Dataref.is_string d = VBool false
        /\ Dataref.data_type d = "float").
Proof. split; eexists; (split; [reflexivity|]); repeat split. Qed.



Lemma has_changed_after_updates_witness :
  Dataref.value_to_store sample_dataref (VFloat 1) = Ok (VFloat 1)
  /\ Dataref.value_to_store sample_dataref (VFloat 2) = Ok (VFloat 2)
  /\ Dataref.has_changed
       (fst (snd (Dataref.update_value (VFloat 2) true
                    (snd (Dataref.update_value (VFloat 1) true
                            (sample_dataref, new_world))))))
     = py_ne (VFloat 2) (VFloat 1).
Proof.
  split; [reflexivity|]. split; [reflexivity|].
  apply (has_changed_after_updates sample_dataref new_world (VFloat 1)
           (VFloat 2)); reflexivity.
Defined.

(** C3, as stated, fails on a dataref with a rounding: rounded to whole
    numbers, updates with 1.25 then 1.375 store 1.0 twice, so
    [has_changed()] is false although 1.375 differs from 1.25. *)
Lemma has_changed_ignores_rounded_difference :
  Dataref.has_changed
    (fst (snd (Dataref.update_value (VFloat 1.375) true
                 (snd (Dataref.update_value (VFloat 1.25) true
                         (rounded_dataref, new_world))))))
  = false
  /\ py_ne (VFloat 1.375) (VFloat 1.25) = true.
Proof. vm_compute. split; reflexivity. Qed.

Lemma rounded_updates_no_change_witness :
  Py.round (VFloat 1.25) 0 = Ok (VFloat 1)
  /\ Py.round (VFloat 1.375) 0 = Ok (VFloat 1)
  /\ Dataref._updated
       (fst (snd (Dataref.update_value (VFloat 1.375) true
                    (snd (Dataref.update_value (VFloat 1.25) true
                            (rounded_dataref, new_world))))))
     = Dataref._updated rounded_dataref + 2
  /\ Dataref._changed
       (fst (snd (Dataref.update_value (VFloat 1.375) true
                    (snd (Dataref.update_value (VFloat 1.25) true
                            (rounded_dataref, new_world))))))
     = Dataref._changed
         (fst (snd (Dataref.update_value (VFloat 1.25) true
                      (rounded_dataref, new_world)))).
Proof.
  assert (H1 : Py.round (VFloat 1.25) 0 = Ok (VFloat 1)) by reflexivity.
  assert (H2 : Py.round (VFloat 1.375) 0 = Ok (VFloat 1)) by reflexivity.
  split; [exact H1|]. split; [exact H2|].
  destruct (rounded_updates_no_change rounded_dataref new_world (VFloat 1.25)
              (VFloat 1.375) (VFloat 1) (VFloat 1) true true 0
              eq_refl eq_refl eq_refl H1 H2 eq_refl)
    as (_ & Hu & _ & _ & Hc & _).
  split; [exact Hu | exact Hc].
Defined.

Lemma add_listener_idempotent_witness :
  NoDup (map Dataref.lid (Dataref.listeners sample_dataref))
  /\ quiet (quiet_listener 0 "button")
  /\ List.length
       (List.filter (same_listener (quiet_listener 0 "button"))
          (Dataref.listeners
             (fst (snd ((do Dataref.add_listener (quiet_listener 0 "button")
                         then Dataref.add_listener
                                (quiet_listener 0 "button"))
                          (sample_dataref, new_world))))))
     = 1%nat
  /\ List.length
       (List.filter (changed_event_of 0)
          (new_events new_world
             (snd (snd (Dataref.update_value (VFloat 1) true
                          (fst (snd ((do Dataref.add_listener
                                           (quiet_listener 0 "button")
                                      then Dataref.add_listener
                                             (quiet_listener 0 "button"))
                                       (sample_dataref, new_world))),
                           new_world))))))
     = 1%nat.
Proof.
  assert (Hnd : NoDup (map Dataref.lid (Dataref.listeners sample_dataref)))
    by constructor.
  assert (Hq : quiet (quiet_listener 0 "button"))
    by (split; [by eexists|]; by split).
  split; [exact Hnd|]. split; [exact Hq|].
  destruct (add_listener_idempotent sample_dataref new_world new_world
              (quiet_listener 0 "button") (VFloat 1) (VFloat 1))
    as (_ & _ & H).
  destruct (H Hnd) as (Hone & _ & Hc).
  split; [exact Hone|].
  destruct (Hc eq_refl Hq ltac:(constructor)) as [_ Hcalls].
  exact Hcalls.
Defined.

(** C8, as stated, fails when a listener registered before raises: the
    object added twice has its one entry and the stored value changes,
    but the cascade ends at the listener that raises and the object's
    [dataref_changed] is not called. *)
Lemma add_listener_twice_not_called :
  let obj := quiet_listener 1 "button" in
  let d2 :=
    fst (snd ((do Dataref.add_listener obj then Dataref.add_listener obj)
                (guarded_dataref, new_world))) in
  let out := Dataref.update_value (VFloat 1) true (d2, new_world) in
  List.length (List.filter (same_listener obj) (Dataref.listeners d2))
  = 1%nat
  /\ fst out = Raise RuntimeError
  /\ Dataref.has_changed (fst (snd out)) = true
  /\ List.filter (changed_event_of 1)
       (new_events new_world (snd (snd out))) = [].
Proof. vm_compute. repeat split; reflexivity. Qed.

Lemma detect_changed_updates_witness :
  NoDup (Simulator.keys (Simulator.current_values (fst first_snapshot)))
  /\ fst (Simulator.detect_changed
            (fst first_snapshot, snd first_snapshot)) = Ok tt.
Proof.
  set (st := first_snapshot).
  assert (Hnd : NoDup (Simulator.keys (Simulator.current_values (fst st)))).
  { apply NoDup_cons. split; [apply not_elem_of_nil | apply NoDup_nil_2]. }
  split; [exact Hnd|].
  destruct (detect_changed_updates (fst st) (snd st) Hnd)
    as [(sim' & w' & Heq & _) _].
  - intros d v Hin. apply list_elem_of_singleton in Hin.
    injection Hin as -> ->. intros _.
    eexists _, _. split; [vm_compute; reflexivity|].
    split; [|split; reflexivity].
    constructor; [|constructor]. split; [by eexists|]. by split.
  - by rewrite Heq.
Defined.

(** C1, as stated, fails on a dataref with a rounding: with "a/b" rounded
    to whole numbers and monitored, the snapshot {"a/b": 1.25} gives one
    'changed' call, and the next snapshot {"a/b": 1.375}, whose value
    differs from the last one seen, is updated and gives none, since 1.0
    is stored both times. *)
Lemma detect_changed_rounded_no_call :
  let s1 := arrives true [("a/b", VFloat 1.25)] rounding_registry in
  let s1' := snd (Simulator.detect_changed s1) in
  let s2 := arrives true [("a/b", VFloat 1.375)] s1' in
  let out := Simulator.detect_changed s2 in
  monitored (Simulator.datarefs_to_monitor (fst s2)) "a/b" = true
  /\ needs_update (Simulator.previous_values (fst s2)) "a/b" (VFloat 1.375)
     = true
  /\ changed_calls s1 s1' = [EvChanged 0 "a/b" VNone (VFloat 1)]
  /\ fst out = Ok tt
  /\ changed_calls s2 (snd out) = [].
Proof. vm_compute. repeat split; reflexivity. Qed.

Lemma detect_changed_exceptions_witness :
  Simulator.all_datarefs unregistered_snapshot !! "a/b" = None
  /\ fst (Simulator.detect_changed (unregistered_snapshot, new_world))
     = Raise (KeyError "a/b").
Proof.
  set (sim := unregistered_snapshot). split; [reflexivity|].
  destruct (detect_changed_exceptions sim new_world [] [] "a/b" (VFloat 1))
    as [(sim' & w' & Heq & _) _].
  - reflexivity.
  - apply NoDup_cons. split; [apply not_elem_of_nil | apply NoDup_nil_2].
  - intros d' v' Hin. by apply elem_of_nil in Hin.
  - reflexivity.
  - reflexivity.
  - by rewrite Heq.
Defined.

Example detect_changed_catches_RuntimeError :
  let st := arrives false [("a/b", VFloat 1)]
              (registry_of "a/b" (raising_listener 0 "button" RuntimeError)) in
  let out := Simulator.detect_changed st in
  fst out = Ok tt
  /\ last (events (snd (snd out)))
     = Some (EvLog Simulator.logger WARNING "detect_changed:")
  /\ (Dataref.current_value
        <$> Simulator.all_datarefs (fst (snd out)) !! "a/b")
     = Some (VFloat 1).
Proof. vm_compute. repeat split; reflexivity. Qed.

(** The pass ends at the exception: the dataref of a later path is not
    updated. *)
Example detect_changed_ends_early :
  let st :=
    arrives false [("a/b", VFloat 1); ("c/d", VFloat 1)]
      (snd ((do enroll "a/b" (raising_listener 0 "button" RuntimeError)
             then enroll "c/d" (quiet_listener 1 "other"))
              (Simulator.__init__ ∅ ∅, new_world))) in
  let out := Simulator.detect_changed st in
  fst out = Ok tt
  /\ (Dataref.current_value
        <$> Simulator.all_datarefs (fst (snd out)) !! "a/b")
     = Some (VFloat 1)
  /\ (Dataref.current_value
        <$> Simulator.all_datarefs (fst (snd out)) !! "c/d")
     = Some VNone.
Proof. vm_compute. repeat split; reflexivity. Qed.

Example detect_changed_propagates_other :
  let st := arrives false [("a/b", VFloat 1)]
              (registry_of "a/b" (raising_listener 0 "button" ValueError)) in
  fst (Simulator.detect_changed st) = Raise ValueError.
Proof. reflexivity. Qed.

End Witnesses.

(* ===================================================================== *)
(** * Further facts *)
(* ===================================================================== *)

(** ** Monitoring counts *)

Section Monitoring.
Import Py Py.Notations Simulator.

Lemma add_loop ds sim w :
  exists evs,
    for_each ds (fun d =>
       if startswith (Dataref.path d) Dataref.INTERNAL_DATAREF_PREFIX
       then log logger DEBUG "local dataref {d.path} is not monitored"
       else
         modify_self (fun s =>
           match datarefs_to_monitor s !! Dataref.path d with
           | None =>
               set_datarefs_to_monitor
                 (<[Dataref.path d := 1]> (datarefs_to_monitor s)) s
           | Some n =>
               set_datarefs_to_monitor
                 (<[Dataref.path d := n + 1]> (datarefs_to_monitor s)) s
           end)) (sim, w)
    = (Ok tt,
       (set_datarefs_to_monitor
          (fold_left counted ds (datarefs_to_monitor sim)) sim,
        {| events := (events w ++ evs)%list; clock := clock w;
           threads := threads w |}))
    /\ evs = map (fun _ => log_local) (List.filter is_local ds).
Proof.
  revert sim w. induction ds as [|d ds IH]; intros sim w.
  - exists []. split; [|done]. destruct sim, w. cbn. by rewrite app_nil_r.
  - cbn [for_each fold_left List.filter]. unfold bind at 1.
    unfold counted at 2. unfold is_local at 1 2.
    destruct (startswith (Dataref.path d) Dataref.INTERNAL_DATAREF_PREFIX)
      eqn:E.
    + cbn [log modify fst snd].
      destruct (IH sim (emit log_local w)) as (evs & Heq & Hevs).
      exists (log_local :: evs). split.
      * unfold log_local in Heq at 1. rewrite Heq. cbn [emit events clock threads].
        by rewrite <- app_assoc.
      * cbn [map]. by rewrite Hevs.
    + cbn [modify_self modify fst snd].
      set (sim1 := match datarefs_to_monitor sim !! Dataref.path d with
                   | Some n => _ | None => _ end).
      destruct (IH sim1 w) as (evs & Heq & Hevs).
      exists evs. split; [|done]. rewrite Heq. subst sim1.
      by destruct (datarefs_to_monitor sim !! Dataref.path d).
Qed.

Lemma occurrences_cons d ds p :
  occurrences (d :: ds) p
  = (if negb (is_local d) && String.eqb (Dataref.path d) p then 1 else 0)
    + occurrences ds p.
Proof.
  unfold occurrences. cbn [List.filter].
  destruct (negb (is_local d) && String.eqb (Dataref.path d) p); cbn [List.length]; lia.
Qed.

Lemma occurrences_nonneg ds p : 0 <= occurrences ds p.
Proof. unfold occurrences. lia. Qed.

Lemma counted_lookup mon d p :
  counted mon d !! p
  = if negb (is_local d) && String.eqb (Dataref.path d) p
    then Some (default 0 (mon !! p) + 1)
    else mon !! p.
Proof.
  unfold counted. destruct (is_local d); [done|]. cbn [negb andb].
  destruct (String.eqb_spec (Dataref.path d) p) as [->|Hne].
  - destruct (mon !! p) as [n|] eqn:E; by rewrite lookup_insert_eq.
  - destruct (mon !! Dataref.path d); by rewrite lookup_insert_ne.
Qed.

Lemma counted_fold ds mon p :
  fold_left counted ds mon !! p
  = if occurrences ds p =? 0 then mon !! p
    else Some (default 0 (mon !! p) + occurrences ds p).
Proof.
  revert mon. induction ds as [|d ds IH]; intros mon; [done|].
  cbn [fold_left]. rewrite IH, counted_lookup, occurrences_cons.
  pose proof (occurrences_nonneg ds p).
  destruct (negb (is_local d) && String.eqb (Dataref.path d) p).
  - destruct (Z.eqb_spec (occurrences ds p) 0) as [->|Hne];
      destruct (Z.eqb_spec (1 + occurrences ds p) 0); try lia;
      cbn; f_equal; lia.
  - rewrite Z.add_0_l. done.
Qed.

Lemma prefix_app p q : String.prefix p (p ++ q) = true.
Proof.
  induction p as [|a p IH]; [by destruct q|].
  change (String a p ++ q) with (String a (p ++ q)). cbn [String.prefix].
  by destruct (ascii_dec a a).
Qed.

Lemma occurrences_local ds q :
  occurrences ds (Dataref.mk_internal_dataref q) = 0.
Proof.
  unfold occurrences. induction ds as [|d ds IH]; [done|]. cbn [List.filter].
  destruct (String.eqb_spec (Dataref.path d) (Dataref.mk_internal_dataref q))
    as [He|Hne].
  - replace (is_local d) with true
      by (unfold is_local; rewrite He; symmetry; apply prefix_app).
    exact IH.
  - rewrite andb_false_r. exact IH.
Qed.

Lemma add_run ds sim w :
  exists w',
    add_datarefs_to_monitor ds (sim, w)
    = (Ok tt,
       (set_datarefs_to_monitor
          (fold_left counted ds (datarefs_to_monitor sim)) sim, w'))
    /\ new_events w w'
       = (map (fun _ => log_local) (List.filter is_local ds)
          ++ [EvLog logger DEBUG "added {prnt}";
              EvLog logger DEBUG
                "currently monitoring {self.datarefs_to_monitor}"])%list.
Proof.
  destruct (add_loop ds sim w) as (evs & Heq & Hevs).
  eexists. split.
  - unfold add_datarefs_to_monitor. unfold bind at 1. rewrite Heq.
    unfold bind, log, modify. cbn [fst snd]. reflexivity.
  - eapply new_events_app. cbn [emit events]. rewrite Hevs.
    by rewrite <- !app_assoc.
Qed.

Lemma counted_fold_positive ds mon :
  counts_positive mon -> counts_positive (fold_left counted ds mon).
Proof.
  intros Hpos p n. rewrite counted_fold.
  pose proof (occurrences_nonneg ds p).
  destruct (Z.eqb_spec (occurrences ds p) 0); [apply Hpos|].
  intros [= <-]. destruct (mon !! p) as [c|] eqn:E.
  - specialize (Hpos p c E). cbn. lia.
  - cbn. lia.
Qed.

(** X1. [add_datarefs_to_monitor] returns; the count of a path grows by the
    number of datarefs given for it, a path not monitored before starting at
    that number; datarefs on internal paths ("data:...") are passed over
    with a debug record each; nothing else of the registry changes; and
    counts that were all at least 1 stay so. *)
Theorem add_datarefs_to_monitor_counts (ds : list Dataref.t) (sim : t)
    (w : World) :
  exists mon' w',
    add_datarefs_to_monitor ds (sim, w)
    = (Ok tt, (set_datarefs_to_monitor mon' sim, w'))
    /\ (forall p,
          mon' !! p
          = if occurrences ds p =? 0 then datarefs_to_monitor sim !! p
            else Some (default 0 (datarefs_to_monitor sim !! p)
                       + occurrences ds p))
    /\ (forall q,
          mon' !! Dataref.mk_internal_dataref q
          = datarefs_to_monitor sim !! Dataref.mk_internal_dataref q)
    /\ (counts_positive (datarefs_to_monitor sim) -> counts_positive mon')
    /\ new_events w w'
       = (map (fun _ => log_local) (List.filter is_local ds)
          ++ [EvLog logger DEBUG "added {prnt}";
              EvLog logger DEBUG
                "currently monitoring {self.datarefs_to_monitor}"])%list.
Proof.
  destruct (add_run ds sim w) as (w' & Heq & Hev).
  exists (fold_left counted ds (datarefs_to_monitor sim)), w'.
  split; [exact Heq|]. split; [|split; [|split; [|exact Hev]]].
  - intros p. apply counted_fold.
  - intros q. by rewrite counted_fold, occurrences_local.
  - apply counted_fold_positive.
Qed.

Lemma remove_loop ds sim w :
  exists evs,
    for_each ds (fun d =>
       if startswith (Dataref.path d) Dataref.INTERNAL_DATAREF_PREFIX
       then log logger DEBUG "local dataref {d.path} is not monitored"
       else
         let* self := get_self in
         match datarefs_to_monitor self !! Dataref.path d with
         | Some n =>
             if n - 1 =? 0
             then modify_self
                    (set_datarefs_to_monitor
                       (delete (Dataref.path d) (datarefs_to_monitor self)))
             else modify_self
                    (set_datarefs_to_monitor
                       (<[Dataref.path d := n - 1]>
                          (datarefs_to_monitor self)))
         | None =>
             if negb (_startup self)
             then log logger WARNING "dataref {d.path} not monitored"
             else ret tt
         end) (sim, w)
    = (Ok tt,
       (set_datarefs_to_monitor
          (fold_left discounted ds (datarefs_to_monitor sim)) sim,
        {| events := (events w ++ evs)%list; clock := clock w;
           threads := threads w |}))
    /\ Forall (fun e => e = log_local \/ e = log_not_monitored) evs
    /\ (_startup sim = true -> Forall (fun e => e = log_local) evs).
Proof.
  revert sim w. induction ds as [|d ds IH]; intros sim w.
  - exists []. split; [|by split]. destruct sim, w. cbn. by rewrite app_nil_r.
  - cbn [for_each fold_left]. unfold bind at 1.
    unfold discounted at 2. unfold is_local at 1.
    destruct (startswith (Dataref.path d) Dataref.INTERNAL_DATAREF_PREFIX)
      eqn:E.
    + cbn [log modify fst snd].
      destruct (IH sim (emit log_local w)) as (evs & Heq & Hall & Hst).
      exists (log_local :: evs). split; [|split].
      * unfold log_local in Heq at 1. rewrite Heq. cbn [emit events clock threads].
        by rewrite <- app_assoc.
      * constructor; [by left|done].
      * intros Hs. constructor; [done|by apply Hst].
    + unfold bind at 1. cbn [get_self gets fst snd].
      destruct (datarefs_to_monitor sim !! Dataref.path d) as [n|] eqn:En.
      * destruct (n - 1 =? 0); cbn [modify_self modify fst snd].
        -- destruct (IH (set_datarefs_to_monitor
                           (delete (Dataref.path d) (datarefs_to_monitor sim))
                           sim) w) as (evs & Heq & Hall & Hst).
           exists evs. split; [|split; [done|exact Hst]]. by rewrite Heq.
        -- destruct (IH (set_datarefs_to_monitor
                           (<[Dataref.path d := n - 1]>
                              (datarefs_to_monitor sim)) sim) w)
             as (evs & Heq & Hall & Hst).
           exists evs. split; [|split; [done|exact Hst]]. by rewrite Heq.
      * destruct (_startup sim) eqn:Es; cbn [negb ret log modify fst snd].
        -- destruct (IH sim w) as (evs & Heq & Hall & Hst).
           exists evs. split; [|split; [done|]].
           ++ rewrite Heq. by destruct sim.
           ++ intros _. apply Hst. exact Es.
        -- destruct (IH sim (emit log_not_monitored w))
             as (evs & Heq & Hall & Hst).
           exists (log_not_monitored :: evs). split; [|split].
           ++ unfold log_not_monitored in Heq at 1. rewrite Heq.
              cbn [emit events clock threads]. rewrite <- app_assoc.
              by destruct sim.
           ++ constructor; [by right|done].
           ++ intros Hs. congruence.
Qed.

Lemma discounted_lookup mon d p :
  discounted mon d !! p
  = if negb (is_local d) && String.eqb (Dataref.path d) p
    then match mon !! p with
         | Some n => if n - 1 =? 0 then None else Some (n - 1)
         | None => None
         end
    else mon !! p.
Proof.
  unfold discounted. destruct (is_local d); [done|]. cbn [negb andb].
  destruct (String.eqb_spec (Dataref.path d) p) as [->|Hne].
  - destruct (mon !! p) as [n|] eqn:E; [|done].
    destruct (n - 1 =? 0); [by rewrite lookup_delete_eq|by rewrite lookup_insert_eq].
  - destruct (mon !! Dataref.path d) as [n|]; [|done].
    destruct (n - 1 =? 0); [by rewrite lookup_delete_ne|by rewrite lookup_insert_ne].
Qed.

Lemma discounted_positive mon d :
  counts_positive mon -> counts_positive (discounted mon d).
Proof.
  intros Hpos p n. rewrite discounted_lookup.
  destruct (negb (is_local d) && String.eqb (Dataref.path d) p); [|apply Hpos].
  destruct (mon !! p) as [c|] eqn:E; [|done].
  specialize (Hpos p c E).
  destruct (Z.eqb_spec (c - 1) 0); [done|]. intros [= <-]. lia.
Qed.

Lemma discounted_fold ds mon p :
  counts_positive mon ->
  fold_left discounted ds mon !! p
  = match mon !! p with
    | Some c => if occurrences ds p <? c then Some (c - occurrences ds p)
                else None
    | None => None
    end.
Proof.
  revert mon. induction ds as [|d ds IH]; intros mon Hpos.
  - cbn [fold_left]. change (occurrences [] p) with 0.
    destruct (mon !! p) as [c|] eqn:E; [|done].
    specialize (Hpos p c E). destruct (Z.ltb_spec 0 c); [f_equal; lia|lia].
  - cbn [fold_left]. rewrite IH by (by apply discounted_positive).
    rewrite discounted_lookup, occurrences_cons.
    pose proof (occurrences_nonneg ds p).
    destruct (negb (is_local d) && String.eqb (Dataref.path d) p).
    + destruct (mon !! p) as [c|] eqn:E; [|done].
      specialize (Hpos p c E).
      destruct (Z.eqb_spec (c - 1) 0).
      * destruct (Z.ltb_spec (1 + occurrences ds p) c); [lia|done].
      * destruct (Z.ltb_spec (occurrences ds p) (c - 1));
          destruct (Z.ltb_spec (1 + occurrences ds p) c); try lia; try done.
        f_equal. lia.
    + by rewrite Z.add_0_l.
Qed.

Lemma discounted_fold_positive ds mon :
  counts_positive mon -> counts_positive (fold_left discounted ds mon).
Proof.
  revert mon. induction ds as [|d ds IH]; intros mon Hpos; [done|].
  cbn [fold_left]. apply IH. by apply discounted_positive.
Qed.

Lemma remove_run ds sim w :
  exists w' evs,
    remove_datarefs_to_monitor ds (sim, w)
    = (Ok tt,
       (set_datarefs_to_monitor
          (fold_left discounted ds (datarefs_to_monitor sim)) sim, w'))
    /\ new_events w w'
       = (evs ++ [EvLog logger DEBUG "removed {prnt}";
                  EvLog logger DEBUG
                    "currently monitoring {self.datarefs_to_monitor}"])%list
    /\ Forall (fun e => e = log_local \/ e = log_not_monitored) evs
    /\ (_startup sim = true -> Forall (fun e => e = log_local) evs).
Proof.
  destruct (remove_loop ds sim w) as (evs & Heq & Hall & Hst).
  eexists _, evs. split; [|split; [|by split]].
  - unfold remove_datarefs_to_monitor. unfold bind at 1. rewrite Heq.
    unfold bind, log, modify. cbn [fst snd]. reflexivity.
  - eapply new_events_app. cbn [emit events]. by rewrite <- !app_assoc.
Qed.

(** X2. With every count at least 1, [remove_datarefs_to_monitor] returns;
    the count of a path drops by the number of datarefs given for it, and
    the path leaves the table when that number reaches its count; a path
    that is not monitored stays so; counts stay at least 1; the only records
    logged by the loop are the debug record for an internal path and the
    warning for a path that is not monitored, and no warning is logged at
    startup. *)
Theorem remove_datarefs_to_monitor_counts (ds : list Dataref.t) (sim : t)
    (w : World) :
  counts_positive (datarefs_to_monitor sim) ->
  exists mon' w',
    remove_datarefs_to_monitor ds (sim, w)
    = (Ok tt, (set_datarefs_to_monitor mon' sim, w'))
    /\ (forall p,
          mon' !! p
          = match datarefs_to_monitor sim !! p with
            | Some c =>
                if occurrences ds p <? c then Some (c - occurrences ds p)
                else None
            | None => None
            end)
    /\ counts_positive mon'
    /\ exists evs,
         new_events w w'
         = (evs ++ [EvLog logger DEBUG "removed {prnt}";
                    EvLog logger DEBUG
                      "currently monitoring {self.datarefs_to_monitor}"])%list
         /\ Forall (fun e => e = log_local \/ e = log_not_monitored) evs
         /\ (_startup sim = true -> Forall (fun e => e = log_local) evs).
Proof.
  intros Hpos. destruct (remove_run ds sim w) as (w' & evs & Heq & Hev & Hall).
  exists (fold_left discounted ds (datarefs_to_monitor sim)), w'.
  split; [exact Heq|]. split; [|split].
  - intros p. by apply discounted_fold.
  - by apply discounted_fold_positive.
  - by exists evs.
Qed.

(** X3. Installing a page and leaving it again: [add_datarefs_to_monitor]
    followed by [remove_datarefs_to_monitor] for the same datarefs gives
    back the monitor table, when its counts are all at least 1. *)
Theorem monitor_add_remove_roundtrip (ds : list Dataref.t) (sim : t)
    (w : World) :
  counts_positive (datarefs_to_monitor sim) ->
  exists w',
    (do add_datarefs_to_monitor ds then remove_datarefs_to_monitor ds)
      (sim, w)
    = (Ok tt, (sim, w')).
Proof.
  intros Hpos.
  destruct (add_run ds sim w) as (w1 & Heq1 & _).
  set (mon1 := fold_left counted ds (datarefs_to_monitor sim)) in *.
  destruct (remove_run ds (set_datarefs_to_monitor mon1 sim) w1)
    as (w2 & _ & Heq2 & _).
  exists w2. unfold bind. rewrite Heq1, Heq2. f_equal. f_equal.
  change (datarefs_to_monitor (set_datarefs_to_monitor mon1 sim)) with mon1.
  assert (Hm : fold_left discounted ds mon1 = datarefs_to_monitor sim).
  { apply map_eq. intros p.
    rewrite discounted_fold by (by apply counted_fold_positive).
    subst mon1. rewrite counted_fold.
    pose proof (occurrences_nonneg ds p).
    destruct (Z.eqb_spec (occurrences ds p) 0) as [H0|Hn0].
    - rewrite H0. destruct (datarefs_to_monitor sim !! p) as [c|] eqn:E; [|done].
      specialize (Hpos p c E). destruct (Z.ltb_spec 0 c); [f_equal; lia|lia].
    - destruct (datarefs_to_monitor sim !! p) as [c|] eqn:E; cbn.
      + specialize (Hpos p c E).
        destruct (Z.ltb_spec (occurrences ds p) (c + occurrences ds p)); [|lia].
        f_equal. lia.
      + destruct (Z.ltb_spec (occurrences ds p) (0 + occurrences ds p));
          [lia|done]. }
  rewrite Hm. by destruct sim.
Qed.

End Monitoring.

(** ** Strings *)

Section Strings.
Import Py.

Lemma append_cons a s t : String a s ++ t = String a (s ++ t).
Proof. reflexivity. Qed.

Lemma append_nil_l t : "" ++ t = t.
Proof. reflexivity. Qed.

Lemma prefix_nil s : String.prefix "" s = true.
Proof. by destruct s. Qed.

Lemma length_append s t :
  String.length (s ++ t) = (String.length s + String.length t)%nat.
Proof.
  induction s as [|a s IH]; [done|]. rewrite append_cons. cbn. by rewrite IH.
Qed.

Lemma len_append s t : len (s ++ t) = len s + len t.
Proof. unfold len. rewrite length_append. lia. Qed.

Lemma len_nonneg s : 0 <= len s.
Proof. unfold len. lia. Qed.

(** Search of a one-character string. *)
Lemma index_char_cons c a s :
  String.index 0 (char c) (String a s)
  = if Ascii.eqb c a then Some 0%nat
    else option_map S (String.index 0 (char c) s).
Proof.
  unfold char. cbn [String.index String.prefix].
  destruct (ascii_dec c a) as [->|Hne].
  - by rewrite prefix_nil, Ascii.eqb_refl.
  - apply Ascii.eqb_neq in Hne. rewrite Hne.
    by destruct (String.index 0 (String c "") s).
Qed.

Lemma str_in_char_cons c a s :
  str_in (char c) (String a s) = Ascii.eqb c a || str_in (char c) s.
Proof.
  unfold str_in. rewrite index_char_cons.
  destruct (Ascii.eqb c a); [done|].
  by destruct (String.index 0 (char c) s).
Qed.

Lemma str_in_char_app c s t :
  str_in (char c) (s ++ t) = str_in (char c) s || str_in (char c) t.
Proof.
  induction s as [|a s IH]; [by destruct t|].
  rewrite append_cons, !str_in_char_cons, IH. by rewrite orb_assoc.
Qed.

Lemma find_char_app c s t :
  str_in (char c) s = false ->
  find (s ++ String c t) (char c) = len s.
Proof.
  unfold find, len. induction s as [|a s IH]; intros Hs.
  - rewrite append_nil_l, index_char_cons, Ascii.eqb_refl. done.
  - rewrite str_in_char_cons in Hs. apply orb_false_iff in Hs as [Ha Hs].
    rewrite append_cons, index_char_cons, Ha. specialize (IH Hs).
    destruct (String.index 0 (char c) (s ++ String c t)) as [i|]; cbn in *; lia.
Qed.

Lemma find_char_none c s : str_in (char c) s = false -> find s (char c) = -1.
Proof. unfold str_in, find. by destruct (String.index 0 (char c) s). Qed.

Lemma substring_0_cons n a s :
  String.substring 0 (S n) (String a s) = String a (String.substring 0 n s).
Proof. reflexivity. Qed.

Lemma substring_S_cons n m a s :
  String.substring (S n) m (String a s) = String.substring n m s.
Proof. reflexivity. Qed.

Lemma substring_0_0 s : String.substring 0 0 s = "".
Proof. by destruct s. Qed.

Lemma substring_prefix s t :
  String.substring 0 (String.length s) (s ++ t) = s.
Proof.
  induction s as [|a s IH]; [apply substring_0_0|].
  rewrite append_cons. cbn [String.length]. by rewrite substring_0_cons, IH.
Qed.

Lemma substring_middle s u t :
  String.substring (String.length s) (String.length u) (s ++ u ++ t) = u.
Proof.
  induction s as [|a s IH]; [rewrite append_nil_l; apply substring_prefix|].
  rewrite append_cons. cbn [String.length]. by rewrite substring_S_cons.
Qed.

(** [p[:i]] and [p[i:j]] on a string of known shape. *)
Lemma slice_prefix s t : slice (s ++ t) None (Some (len s)) = s.
Proof.
  unfold slice, clamp_index. rewrite len_append.
  pose proof (len_nonneg s). pose proof (len_nonneg t).
  replace (len s <? 0) with false by (symmetry; apply Z.ltb_ge; lia).
  replace (Z.max 0 (Z.min (len s + len t) (len s)) - 0) with (len s) by lia.
  unfold len. rewrite Nat2Z.id. apply substring_prefix.
Qed.

Lemma slice_middle s u t :
  slice (s ++ u ++ t) (Some (len s)) (Some (len s + len u)) = u.
Proof.
  unfold slice, clamp_index. rewrite !len_append.
  pose proof (len_nonneg s). pose proof (len_nonneg t).
  pose proof (len_nonneg u).
  replace (len s <? 0) with false by (symmetry; apply Z.ltb_ge; lia).
  replace (len s + len u <? 0) with false by (symmetry; apply Z.ltb_ge; lia).
  replace (Z.max 0 (Z.min (len s + (len u + len t)) (len s))) with (len s)
    by lia.
  replace (Z.max 0 (Z.min (len s + (len u + len t)) (len s + len u)) - len s)
    with (len u) by lia.
  unfold len. rewrite !Nat2Z.id. apply substring_middle.
Qed.

Lemma substring_last s c :
  String.substring (String.length s) 1 (s ++ char c) = char c.
Proof.
  induction s as [|a s IH]; [done|].
  rewrite append_cons. cbn [String.length]. by rewrite substring_S_cons.
Qed.

Lemma last_char_app s c : last_char (s ++ char c) = Ok (char c).
Proof.
  unfold last_char. rewrite len_append. pose proof (len_nonneg s).
  change (len (char c)) with 1.
  replace (len s + 1 =? 0) with false by (symmetry; apply Z.eqb_neq; lia).
  f_equal. unfold slice, clamp_index. rewrite len_append.
  change (len (char c)) with 1. cbn [Z.ltb Z.compare].
  replace (Z.max 0 (Z.min (len s + 1) (-1 + (len s + 1)))) with (len s) by lia.
  replace (len s + 1 - len s) with 1 by lia.
  unfold len. rewrite Nat2Z.id. apply substring_last.
Qed.

End Strings.

(** ** Registration *)

Section Registry.
Import Py Py.Notations Simulator.

Lemma set_rounding_keeps sim d :
  Dataref.path (set_rounding sim d) = Dataref.path d
  /\ Dataref.listeners (set_rounding sim d) = Dataref.listeners d
  /\ Dataref.current_value (set_rounding sim d) = Dataref.current_value d
  /\ Dataref.update_frequency (set_rounding sim d)
     = Dataref.update_frequency d.
Proof.
  unfold set_rounding, Dataref.set_round_.
  destruct (0 <? find (Dataref.path d) "["); [|done].
  destruct (roundings sim !! Dataref.path d); [done|].
  by destruct (roundings sim !! _).
Qed.

Lemma set_frequency_keeps sim d :
  Dataref.path (set_frequency sim d) = Dataref.path d
  /\ Dataref.listeners (set_frequency sim d) = Dataref.listeners d
  /\ Dataref.current_value (set_frequency sim d) = Dataref.current_value d
  /\ Dataref.round (set_frequency sim d) = Dataref.round d.
Proof.
  unfold set_frequency, Dataref.set_update_frequency_.
  repeat case_match; done.
Qed.

(** X4. [set_rounding] on the path of an array element [base[...]]: the
    table entry of the path itself, else the entry of [base[*]], else the
    rounding the dataref had; on a path without "[" the table entry of the
    path, and no rounding when there is none. Nothing else of the dataref
    changes. *)
Theorem set_rounding_lookup (sim : t) (d : Dataref.t) :
  (forall base rest,
     Dataref.path d = base ++ "[" ++ rest ->
     base <> "" -> str_in "[" base = false ->
     Dataref.round (set_rounding sim d)
     = match roundings sim !! Dataref.path d with
       | Some r => Some r
       | None =>
           match roundings sim !! (base ++ "[*]") with
           | Some r => Some r
           | None => Dataref.round d
           end
       end)
  /\ (str_in "[" (Dataref.path d) = false ->
      Dataref.round (set_rounding sim d) = roundings sim !! Dataref.path d)
  /\ Dataref.set_round (Dataref.round d) (set_rounding sim d) = d.
Proof.
  split; [|split].
  - intros base rest Hp Hb Hin. unfold set_rounding. rewrite Hp.
    change ("[" ++ rest) with (String "["%char rest).
    pose proof (find_char_app "["%char base rest Hin) as Hf.
    unfold char in Hf. rewrite Hf.
    assert (0 < len base) by (destruct base; [done|unfold len; cbn; lia]).
    replace (0 <? len base) with true by (symmetry; apply Z.ltb_lt; lia).
    destruct (roundings sim !! (base ++ String "["%char rest)); [done|].
    rewrite slice_prefix. by destruct (roundings sim !! (base ++ "[*]")).
  - intros Hin. unfold set_rounding.
    pose proof (find_char_none "["%char _ Hin) as Hf.
    unfold char in Hf. rewrite Hf. done.
  - unfold set_rounding, Dataref.set_round_.
    destruct (0 <? find (Dataref.path d) "["); [|by destruct d].
    destruct (roundings sim !! Dataref.path d); [by destruct d|].
    destruct (roundings sim !! _); by destruct d.
Qed.

(** X5. [register] never replaces a dataref: on a path that is registered it
    returns its argument as it is and leaves the registry alone; on a new
    path the argument gets the rounding and the frequency of the tables and
    is stored under its path. No record is logged, the other paths keep
    their datarefs, and a registry keyed by path stays so. *)
Theorem register_first_wins (d : Dataref.t) (sim : t) (w : World) :
  exists d' sim',
    register d (sim, w) = (Ok d', (sim', w))
    /\ Dataref.path d' = Dataref.path d
    /\ Dataref.listeners d' = Dataref.listeners d
    /\ all_datarefs sim' !! Dataref.path d
       = Some (default d' (all_datarefs sim !! Dataref.path d))
    /\ (forall p, p <> Dataref.path d ->
        all_datarefs sim' !! p = all_datarefs sim !! p)
    /\ (is_Some (all_datarefs sim !! Dataref.path d) -> d' = d /\ sim' = sim)
    /\ (all_datarefs sim !! Dataref.path d = None ->
        d' = set_frequency sim (set_rounding sim d))
    /\ (keyed_by_path (all_datarefs sim) ->
        keyed_by_path (all_datarefs sim')).
Proof.
  unfold register, bind. cbn [get_self gets fst snd].
  destruct (all_datarefs sim !! Dataref.path d) as [old|] eqn:E.
  - exists d, sim. repeat split; try done.
  - destruct (set_frequency_keeps sim (set_rounding sim d))
      as (Hp & Hl & _).
    destruct (set_rounding_keeps sim d) as (Hp' & Hl' & _).
    eexists _, _. cbn [modify_self modify ret fst snd].
    split; [reflexivity|]. rewrite Hp, Hp'.
    split; [done|]. split; [by rewrite Hl|]. split; [|split; [|split; [|split]]].
    + cbn. by rewrite lookup_insert_eq.
    + intros p Hne. cbn. by rewrite lookup_insert_ne.
    + by intros [? ?].
    + done.
    + intros Hk p dr. cbn.
      destruct (decide (p = Dataref.path d)) as [->|Hne].
      * rewrite lookup_insert_eq. intros [= <-]. by rewrite Hp, Hp'.
      * rewrite lookup_insert_ne by done. apply Hk.
Qed.

End Registry.

(** ** Array elements *)

Section DatarefInit.
Import Py Py.Notations Dataref.

Lemma append_assoc s t u : (s ++ t) ++ u = s ++ (t ++ u).
Proof.
  induction s as [|a s IH]; [done|]. rewrite !append_cons. by rewrite IH.
Qed.

Lemma element_path_shape base txt :
  base ++ "[" ++ txt ++ "]" = (base ++ String "["%char txt) ++ char "]"%char.
Proof.
  rewrite append_assoc. f_equal.
Qed.

Lemma element_path_facts base txt :
  str_in "[" base = false -> str_in "]" base = false ->
  str_in "]" txt = false ->
  let p := base ++ "[" ++ txt ++ "]" in
  last_char p = Ok "]"
  /\ str_in "[" p = true
  /\ find p "[" = len base
  /\ slice p None (Some (len base)) = base
  /\ find p "]" = len base + 1 + len txt
  /\ slice p (Some (len base + 1)) (Some (len base + 1 + len txt)) = txt.
Proof.
  intros Hb1 Hb2 Ht p. subst p. repeat split.
  - rewrite element_path_shape. apply last_char_app.
  - change (str_in (char "["%char) (base ++ String "["%char (txt ++ "]")) = true).
    by rewrite str_in_char_app, str_in_char_cons, Ascii.eqb_refl, orb_true_r.
  - apply (find_char_app "["%char base (txt ++ "]") Hb1).
  - apply slice_prefix.
  - rewrite element_path_shape.
    change (find ((base ++ String "[" txt) ++ String "]"%char "") (char "]"%char)
            = len base + 1 + len txt).
    rewrite find_char_app.
    + rewrite len_append. unfold len at 2. cbn [String.length]. unfold len. lia.
    + rewrite str_in_char_app, str_in_char_cons. change (str_in (char "]") base)
        with (str_in "]" base). rewrite Hb2. change (str_in (char "]") txt)
        with (str_in "]" txt). by rewrite Ht.
  - pose proof (slice_middle (base ++ "[") txt "]") as H.
    rewrite append_assoc in H. rewrite len_append in H.
    change (len "[") with 1 in H. exact H.
Qed.

Lemma init_element_eq base txt dec str length0 w :
  str_in "[" base = false -> str_in "]" base = false ->
  str_in "]" txt = false ->
  let p := base ++ "[" ++ txt ++ "]" in
  let w1 := if dec && str then emit log_both_types w else w in
  __init__ p dec str length0 (tt, w)
  = match int_of_str txt with
    | Raise e => (Raise e, (tt, w1))
    | Ok n =>
        (Ok (set_length (Some (default (n + 1) length0))
               (set_is_array true
                  (set_index n
                     (set_dataref base (init_sized p dec str length0))))),
         (tt,
          match length0 with
          | Some l => if l <=? n then emit log_out_of_range w1 else w1
          | None => w1
          end))
    end.
Proof.
  intros Hb1 Hb2 Ht p w1.
  destruct (element_path_facts base txt Hb1 Hb2 Ht)
    as (Hlast & Hin & Hfind & Hpre & Hfind2 & Hmid).
  fold p in Hlast, Hin, Hfind, Hpre, Hfind2, Hmid.
  assert (Hsuf :
    (if (3 <? len p) && String.eqb (slice p (Some (-2)) (Some (-1))) ":"
     then let* c := lift (last_char p) in ret (str_in c "difsb")
     else ret false) = (ret false : M (unit * World) bool)).
  { destruct ((3 <? len p) && _); [|done]. by rewrite Hlast. }
  unfold __init__. rewrite Hsuf. unfold bind at 1. cbn [ret fst snd].
  unfold bind at 1. cbn [ret fst snd].
  assert (Hdec : is_decimal (init_fields p dec str length0)
                 && truthy (is_string (init_fields p dec str length0))
                 = dec && str) by reflexivity.
  rewrite Hdec, Hin.
  change (match length (init_fields p dec str length0) with
          | Some n =>
              if 1 <? n then set_is_array true (init_fields p dec str length0)
              else init_fields p dec str length0
          | None => init_fields p dec str length0
          end) with (init_sized p dec str length0).
  set (self1 := init_sized p dec str length0).
  assert (Hp1 : path self1 = p).
  { subst self1. unfold init_sized.
    destruct length0 as [n|]; [destruct (1 <? n)|]; reflexivity. }
  assert (Hl1 : length self1 = length0).
  { subst self1. unfold init_sized.
    destruct length0 as [n|]; [destruct (1 <? n)|]; reflexivity. }
  clearbody self1. clear Hsuf Hdec.
  cbn [path set_dataref]. rewrite Hp1, Hfind, Hpre, Hfind2, Hmid.
  unfold bind at 1.
  assert (Hw : (if dec && str
                then log "Dataref" ERROR
                       "__init__: index {path} cannot be both decimal and string"
                else ret tt) (tt, w) = (Ok tt, (tt, w1))).
  { subst w1. by destruct (dec && str). }
  rewrite Hw. clearbody w1.
  destruct (int_of_str txt) as [n|e]; [|reflexivity].
  unfold bind at 1. unfold lift at 1.
  cbn [length index set_is_array set_index set_dataref]. rewrite Hl1.
  destruct length0 as [l|]; cbn [length index set_length set_is_array
                                 set_index set_dataref default].
  - rewrite Hl1. unfold bind, log, modify, ret.
    destruct (l <=? n); cbn [fst snd]; f_equal; f_equal;
      by (destruct self1; cbn in *; subst).
  - replace (n + 1 <=? n) with false by (symmetry; apply Z.leb_gt; lia).
    reflexivity.
Qed.

Lemma init_element_cases base txt dec str length0 w :
  str_in "[" base = false -> str_in "]" base = false ->
  str_in "]" txt = false ->
  match int_of_str txt with
  | Ok n =>
      exists d w',
        __init__ (base ++ "[" ++ txt ++ "]") dec str length0 (tt, w)
        = (Ok d, (tt, w'))
        /\ path d = base ++ "[" ++ txt ++ "]"
        /\ dataref d = base
        /\ index d = n
        /\ is_array d = true
        /\ length d = Some (default (n + 1) length0)
        /\ data_type d = "float"
        /\ is_decimal d = dec
        /\ new_events w w'
           = ((if dec && str then [log_both_types] else [])
              ++ match length0 with
                 | Some l => if l <=? n then [log_out_of_range] else []
                 | None => []
                 end)%list
  | Raise e =>
      fst (__init__ (base ++ "[" ++ txt ++ "]") dec str length0 (tt, w))
      = Raise ValueError
  end.
Proof.
  intros Hb1 Hb2 Ht.
  pose proof (init_element_eq base txt dec str length0 w Hb1 Hb2 Ht) as Heq.
  cbv zeta in Heq.
  assert (Hint : forall e, int_of_str txt = Raise e -> e = ValueError).
  { intros e. unfold int_of_str. repeat case_match; congruence. }
  destruct (int_of_str txt) as [n|e].
  - eexists _, _. split; [exact Heq|].
    assert (Hs : forall f : t -> string,
               (forall x, f (set_is_array true x) = f x) ->
               f (init_sized (base ++ "[" ++ txt ++ "]") dec str length0)
               = f (init_fields (base ++ "[" ++ txt ++ "]") dec str length0)).
    { intros f Hf. unfold init_sized.
      destruct length0 as [l|]; [destruct (1 <? l)|]; by rewrite ?Hf. }
    cbn [path dataref index is_array length data_type is_decimal
         set_length set_is_array set_index set_dataref].
    split; [by rewrite (Hs path)|]. do 4 (split; [reflexivity|]).
    split; [by rewrite (Hs data_type)|].
    split.
    { unfold init_sized.
      destruct length0 as [l|]; [destruct (1 <? l)|]; reflexivity. }
    destruct (dec && str), length0 as [l|]; [destruct (l <=? n)| |
                                              destruct (l <=? n)|];
      cbn [app]; unfold emit; cbn [events];
      rewrite <- ?app_assoc; try (by apply new_events_app);
      unfold new_events; by rewrite drop_all.
  - rewrite Heq. by rewrite (Hint e eq_refl).
Qed.

(** Whitespace holds no digit, so stripping it keeps the digits. *)
Lemma space_not_digit c : is_space c = true -> digit_of c = None.
Proof.
  destruct c as [[] [] [] [] [] [] [] []]; vm_compute; congruence.
Qed.

Lemma digits_lstrip (f := fun c =>
    match digit_of c with Some _ => true | None => false end) l :
  List.filter f (lstrip l) = List.filter f l.
Proof.
  induction l as [|c l IH]; [done|]. cbn [lstrip].
  destruct (is_space c) eqn:E; [|done].
  cbn [List.filter]. unfold f at 2. by rewrite (space_not_digit c E).
Qed.

Lemma digits_strip (f := fun c =>
    match digit_of c with Some _ => true | None => false end) l :
  List.length (List.filter f (strip l)) = List.length (List.filter f l).
Proof.
  unfold strip.
  rewrite List.filter_rev, List.length_rev, digits_lstrip.
  by rewrite List.filter_rev, List.length_rev, digits_lstrip.
Qed.

(** [int] refuses a string of more than 4300 digits. *)
Lemma int_of_str_digit_limit s :
  int_max_str_digits < digit_count s -> int_of_str s = Raise ValueError.
Proof.
  unfold digit_count. rewrite <- digits_strip. unfold int_of_str.
  set (f := fun c => match digit_of c with Some _ => true | None => false end).
  set (l := strip (list_ascii_of_string s)). clearbody l. intros Hl.
  assert (Hbody : forall body z,
            int_max_str_digits < Z.of_nat (List.length (List.filter f body)) ->
            (if int_max_str_digits <? Z.of_nat (List.length (List.filter f body))
             then Raise ValueError else Ok z) = (Raise ValueError : result Z)).
  { intros body z H. by rewrite (proj2 (Z.ltb_lt _ _) H). }
  destruct l as [|c l']; [by cbn|].
  destruct (Ascii.eqb c "-") eqn:E1; [|destruct (Ascii.eqb c "+") eqn:E2].
  - apply Ascii.eqb_eq in E1. subst c. cbn [List.filter] in Hl.
    change (f "-"%char) with false in Hl.
    destruct (parse_digits l' 0 false); [by apply Hbody|done].
  - apply Ascii.eqb_eq in E2. subst c. cbn [List.filter] in Hl.
    change (f "+"%char) with false in Hl.
    destruct (parse_digits l' 0 false); [by apply Hbody|done].
  - destruct (parse_digits (c :: l') 0 false); [by apply Hbody|done].
Qed.

(** X6. [Dataref(path)] for the path of an array element, [base[txt]] with
    no bracket in [base] and no closing bracket in [txt]: when [int(txt)]
    gives an int [n] (whitespace around the digits, a sign and single
    underscores between digits are accepted) the dataref is [base], the
    index [n], the dataref is an array, and its length is the one given or
    else [n + 1]; an index beyond a given length is only logged. When
    [int(txt)] raises, for instance on the wildcard of the rounding table
    or on more than 4300 digits, the constructor raises [ValueError]. *)
Theorem Dataref_init_array_element (base txt : string)
    (dec str : bool) (length0 : option Z) (w : World) :
  str_in "[" base = false -> str_in "]" base = false ->
  str_in "]" txt = false ->
  match int_of_str txt with
  | Ok n =>
      exists d w',
        __init__ (base ++ "[" ++ txt ++ "]") dec str length0 (tt, w)
        = (Ok d, (tt, w'))
        /\ path d = base ++ "[" ++ txt ++ "]"
        /\ dataref d = base
        /\ index d = n
        /\ is_array d = true
        /\ length d = Some (default (n + 1) length0)
        /\ data_type d = "float"
        /\ is_decimal d = dec
        /\ digit_count txt <= int_max_str_digits
        /\ new_events w w'
           = ((if dec && str then [log_both_types] else [])
              ++ match length0 with
                 | Some l => if l <=? n then [log_out_of_range] else []
                 | None => []
                 end)%list
  | Raise e =>
      fst (__init__ (base ++ "[" ++ txt ++ "]") dec str length0 (tt, w))
      = Raise ValueError
  end
  /\ (int_max_str_digits < digit_count txt ->
      fst (__init__ (base ++ "[" ++ txt ++ "]") dec str length0 (tt, w))
      = Raise ValueError).
Proof.
  intros Hb1 Hb2 Ht.
  pose proof (init_element_cases base txt dec str length0 w Hb1 Hb2 Ht) as H.
  pose proof (int_of_str_digit_limit txt) as Hlim.
  split.
  - destruct (int_of_str txt) as [n|e]; [|exact H].
    destruct H as (d & w' & Heq & Hp & Hd & Hi & Ha & Hl & Hdt & Hdec & Hev).
    exists d, w'. do 8 (split; [done|]). split; [|exact Hev].
    destruct (Z.le_gt_cases (digit_count txt) int_max_str_digits) as [Hle|Hgt];
      [exact Hle|]. by specialize (Hlim Hgt).
  - intros Hgt. rewrite (Hlim Hgt) in H. exact H.
Qed.

End DatarefInit.

(** ** Updates *)

Section UpdateFacts.
Import Py Py.Notations Dataref.


(** What a call of [update_value] does to a dataref in every case: when the
    value cannot be stored, when a listener raises, when it returns. *)
Lemma update_value_frame d w v c :
  let out := update_value v c (d, w) in
  let d' := fst (snd out) in
  let w' := snd (snd out) in
  same_settings d d'
  /\ _current_value d' = v
  /\ _previous_value d' = _current_value d
  /\ previous_value d' = current_value d
  /\ ((_updated d' = _updated d /\ _changed d' = _changed d
       /\ current_value d' = current_value d
       /\ exists e, fst out = Raise e /\ w' = w)
      \/ (_updated d' = _updated d + 1
          /\ (_changed d' = _changed d \/ _changed d' = _changed d + 1)
          /\ value_to_store d v = Ok (current_value d')))
  /\ (clock w <= clock w')%nat
  /\ threads w' = threads w
  /\ exists evs, events w' = (events w ++ evs)%list.
Proof.
  intros out d' w'. subst out d' w'. rewrite update_value_eq.
  destruct (value_to_store d v) as [x|e] eqn:Hx.
  2:{ cbn [fst snd]. split; [by repeat split|]. do 3 (split; [reflexivity|]).
      split; [left; repeat split; by exists e|].
      split; [lia|]. split; [done|]. exists []. by rewrite app_nil_r. }
  destruct (notify_updated_run (stage_updated d v x (clock w)) (tick w))
    as (r & evs & -> & _).
  set (d2 := stage_updated d v x (clock w)).
  assert (H2 : same_settings d d2 /\ _current_value d2 = v
               /\ _previous_value d2 = _current_value d
               /\ previous_value d2 = current_value d
               /\ _updated d2 = _updated d + 1 /\ _changed d2 = _changed d
               /\ current_value d2 = x) by (by repeat split).
  destruct H2 as (G1 & G2 & G3 & G4 & G5 & G6 & G7).
  destruct r as [[]|e].
  - destruct (has_changed d2) eqn:Hc.
    + cbn [events clock threads tick].
      set (d3 := stage_changed _ _). set (w3 := emit _ _).
      assert (Hrest :
        same_settings d d3 /\ _current_value d3 = v
        /\ _previous_value d3 = _current_value d
        /\ previous_value d3 = current_value d
        /\ _updated d3 = _updated d + 1 /\ _changed d3 = _changed d + 1
        /\ current_value d3 = x) by (by repeat split).
      destruct Hrest as (H1 & H2 & H3 & H4 & H5 & H6 & H7).
      assert (Hw3 : (clock w <= clock w3)%nat /\ threads w3 = threads w
                    /\ exists evs0, events w3 = (events w ++ evs0)%list).
      { subst w3. cbn [emit events tick clock threads]. split; [lia|].
        split; [done|]. eexists. by rewrite <- !app_assoc. }
      destruct Hw3 as (Hck & Hth & evs0 & Hev0).
      destruct c.
      * destruct (notify_run d3 w3) as (r' & evs' & ->). cbn [fst snd].
        do 4 (split; [done|]).
        split; [right; split; [exact H5|]; split; [by right|by rewrite H7]|].
        cbn [clock threads events]. split; [done|]. split; [done|].
        rewrite Hev0. eexists. by rewrite <- !app_assoc.
      * cbn [fst snd]. do 4 (split; [done|]).
        split; [right; split; [exact H5|]; split; [by right|by rewrite H7]|].
        split; [done|]. split; [done|]. by eexists.
    + cbn [fst snd]. do 4 (split; [done|]).
      split; [right; split; [exact G5|]; split; [by left|by rewrite G7]|].
      cbn [clock tick threads events]. split; [lia|]. split; [done|].
      by eexists.
  - cbn [fst snd]. do 4 (split; [done|]).
    split; [right; split; [exact G5|]; split; [by left|by rewrite G7]|].
    cbn [clock tick threads events]. split; [lia|]. split; [done|].
    by eexists.
Qed.

Lemma same_settings_refl d : same_settings d d.
Proof. by repeat split. Qed.

Lemma same_settings_trans a b c :
  same_settings a b -> same_settings b c -> same_settings a c.
Proof.
  intros (H1 & H2 & H3 & H4) (G1 & G2 & G3 & G4).
  repeat split; congruence.
Qed.

(** X7. Whatever the listeners do and whether or not the value can be
    stored, a run of [update_value] calls leaves the path, the dataref name,
    the listeners and the rounding of a dataref alone; the update counter
    grows by at most one per call and the change counter by no more than the
    update counter, so that a dataref never counts more changes than
    updates; the last call leaves the raw value it was given in
    [_current_value], not rounded. *)
Theorem update_value_counters (us : list (pyval * bool)) (d : t)
    (w : World) :
  let d' := fst (after_updates us (d, w)) in
  same_settings d d'
  /\ _updated d <= _updated d' <= _updated d + Z.of_nat (List.length us)
  /\ 0 <= _changed d' - _changed d <= _updated d' - _updated d
  /\ (_changed d <= _updated d -> _changed d' <= _updated d')
  /\ (forall us0 v c, us = (us0 ++ [(v, c)])%list -> _current_value d' = v).
Proof.
  revert d w. induction us as [|[v c] us IH] using rev_ind; intros d w d'.
  - subst d'. cbn. split; [apply same_settings_refl|].
    repeat split; try lia. intros us0 v c H. by destruct us0.
  - subst d'. unfold after_updates. rewrite fold_left_app. cbn [fold_left].
    fold (after_updates us (d, w)).
    specialize (IH d w). cbv zeta in IH.
    destruct (after_updates us (d, w)) as [d1 w1]. cbn [fst snd] in *.
    destruct IH as (Hs & Hu & Hc & _).
    pose proof (update_value_frame d1 w1 v c) as (Hs' & Hraw & _ & _ & Hcnt & _).
    cbv zeta in Hs', Hraw, Hcnt.
    set (d2 := fst (snd (update_value v c (d1, w1)))) in *.
    split; [by eapply same_settings_trans|].
    rewrite length_app. cbn [List.length].
    assert (Hstep : _updated d1 <= _updated d2 <= _updated d1 + 1
                    /\ 0 <= _changed d2 - _changed d1
                            <= _updated d2 - _updated d1).
    { destruct Hcnt as [(-> & -> & _)|(-> & [->| ->] & _)]; lia. }
    split; [lia|]. split; [lia|]. split; [lia|].
    intros us0 v0 c0 H. apply app_inj_tail in H as [_ [= <- <-]]. exact Hraw.
Qed.


End UpdateFacts.

(** ** Detection passes *)

Section DetectionFrame.
Import Py Py.Notations Simulator.

Lemma registry_frame_refl ks sim : registry_frame ks sim sim.
Proof.
  repeat split; try done. intros p.
  destruct (all_datarefs sim !! p); [|done].
  split; [apply same_settings_refl|done].
Qed.

Lemma registry_frame_trans ks1 ks2 a b c :
  registry_frame ks1 a b -> registry_frame ks2 b c ->
  registry_frame (ks1 ++ ks2) a c.
Proof.
  intros (H1 & H2 & H3 & H4 & H5 & H6 & H7) (G1 & G2 & G3 & G4 & G5 & G6 & G7).
  repeat split; try congruence. intros p. specialize (H7 p). specialize (G7 p).
  destruct (all_datarefs a !! p) as [da|], (all_datarefs b !! p) as [db|],
    (all_datarefs c !! p) as [dc|]; try done.
  destruct H7 as [Hs Hk], G7 as [Gs Gk].
  split; [by eapply same_settings_trans|].
  intros Hn. apply not_elem_of_app in Hn as [Hn1 Hn2].
  rewrite Gk, Hk; done.
Qed.

Lemma registry_frame_set sim d dr dr' :
  all_datarefs sim !! d = Some dr ->
  same_settings dr dr' ->
  registry_frame [d] sim
    (set_all_datarefs (<[d := dr']> (all_datarefs sim)) sim).
Proof.
  intros Hm Hs. repeat split; try done. intros p. cbn.
  destruct (decide (p = d)) as [->|Hne].
  - rewrite lookup_insert_eq, Hm. split; [done|].
    intros Hn. exfalso. apply Hn. left.
  - rewrite lookup_insert_ne by done.
    destruct (all_datarefs sim !! p); [|done].
    split; [apply same_settings_refl|done].
Qed.

Lemma detect_step_frame cur d sim w :
  registry_frame [d] sim (fst (snd (detect_step cur d (sim, w)))).
Proof.
  unfold detect_step, bind. cbn [get_self gets fst snd]. unfold lift.
  destruct (getitem cur d) as [v|e]; [|apply registry_frame_refl].
  destruct (match previous_values sim !! d with
            | Some pv => py_ne v pv | None => true end);
    [|apply registry_frame_refl].
  destruct (bool_decide _); unfold on_dataref; cbn [fst snd];
    (destruct (all_datarefs sim !! d) as [dr|] eqn:Hm;
     [|apply registry_frame_refl]); cbn [fst snd];
    apply (registry_frame_set sim d dr); try done;
    apply (update_value_frame dr w v _).
Qed.

Lemma detect_loop_frame cur ks sim w :
  registry_frame ks sim (fst (snd (for_each ks (detect_step cur) (sim, w)))).
Proof.
  revert sim w. induction ks as [|d ks IH]; intros sim w.
  - apply registry_frame_refl.
  - cbn [for_each]. unfold bind.
    pose proof (detect_step_frame cur d sim w) as Hd.
    destruct (detect_step cur d (sim, w)) as [[[]|e] [sim1 w1]];
      cbn [fst snd] in *.
    + apply (registry_frame_trans [d] ks _ sim1); [done|apply IH].
    + apply (registry_frame_trans [d] ks _ sim1); [done|].
      apply registry_frame_refl.
Qed.

(** X9. A detection pass, whatever its outcome and whatever the listeners
    do, changes nothing of the registry but datarefs of the snapshot's
    paths: the values last seen, the snapshot, the monitor counts and the
    tables are as before (the pass itself never moves the snapshot to the
    values last seen), no path is registered or dropped, every dataref keeps
    its path, name, listeners and rounding, and a registry keyed by path
    stays keyed by path. *)
Theorem detect_changed_frame (sim : t) (w : World) :
  let sim' := fst (snd (detect_changed (sim, w))) in
  registry_frame (keys (current_values sim)) sim sim'
  /\ (forall p, is_Some (all_datarefs sim' !! p)
                <-> is_Some (all_datarefs sim !! p))
  /\ (forall p, p ∉ keys (current_values sim) ->
        all_datarefs sim' !! p = all_datarefs sim !! p)
  /\ (keyed_by_path (all_datarefs sim) -> keyed_by_path (all_datarefs sim')).
Proof.
  intros sim'.
  assert (Hf : registry_frame (keys (current_values sim)) sim sim').
  { subst sim'. unfold detect_changed, try_except.
    rewrite detect_changed_try_eq.
    pose proof (detect_loop_frame (current_values sim)
                  (keys (current_values sim)) sim w) as H.
    destruct (for_each _ _ _) as [[[]|e] [sim1 w1]]; cbn [fst snd] in *;
      [done|]. by destruct (is_RuntimeError e). }
  split; [exact Hf|].
  destruct Hf as (_ & _ & _ & _ & _ & _ & Hall).
  split; [|split].
  - intros p. specialize (Hall p).
    destruct (all_datarefs sim !! p), (all_datarefs sim' !! p); try done.
    all: split; intros [? ?]; done.
  - intros p Hp. specialize (Hall p).
    destruct (all_datarefs sim !! p), (all_datarefs sim' !! p); try done.
    destruct Hall as [_ Hk]. by rewrite Hk.
  - intros Hk p dr' Hp. specialize (Hall p). rewrite Hp in Hall.
    destruct (all_datarefs sim !! p) as [dr|] eqn:E; [|done].
    destruct Hall as [(Hpath & _) _]. rewrite Hpath. by apply Hk.
Qed.

(** X10. [get_dataref_value]: for a path that is not registered the result
    is [None], whatever the default, and a warning is logged; for a
    registered dataref it is the stored value, or the default while that is
    [None]; the registry is never changed. After a detection pass over a
    snapshot that is ready, the value read for a path that needed an update
    is the value stored for the snapshot's, rounded as the dataref demands. *)
Theorem get_dataref_value_reads (sim : t) (w : World) (d : string)
    (default : pyval) :
  (all_datarefs sim !! d = None ->
   get_dataref_value d default (sim, w)
   = (Ok VNone, (sim, emit (EvLog logger WARNING "{dataref} not found") w)))
  /\ (forall dr, all_datarefs sim !! d = Some dr ->
      get_dataref_value d default (sim, w)
      = (Ok (if is_None (Dataref.current_value dr) then default
             else Dataref.current_value dr), (sim, w)))
  /\ (forall v,
        NoDup (keys (current_values sim)) ->
        (forall d' v', (d', v') ∈ current_values sim ->
                       entry_ready sim d' v') ->
        (d, v) ∈ current_values sim ->
        needs_update (previous_values sim) d v = true ->
        exists dr x st',
          all_datarefs sim !! d = Some dr
          /\ Dataref.value_to_store dr v = Ok x
          /\ detect_changed (sim, w) = (Ok tt, st')
          /\ get_dataref_value d default st'
             = (Ok (if is_None x then default else x), st')).
Proof.
  split; [|split].
  - intros Hm. unfold get_dataref_value, bind. cbn [get_self gets fst snd].
    by rewrite Hm.
  - intros dr Hm. unfold get_dataref_value, bind. cbn [get_self gets fst snd].
    rewrite Hm. by destruct (is_None (Dataref.current_value dr)).
  - intros v Hnd Hready Hin Hn.
    destruct (pass_loop (current_values sim) (keys (current_values sim))
                sim w Hnd)
      as (sim' & w' & Hrun & _ & _ & _ & _ & Hks & _).
    { intros d' Hd'. destruct (getitem_elem _ _ Hd') as (v' & Hg & Hin').
      exists v'. split; [done|]. by apply Hready. }
    assert (Hk : d ∈ keys (current_values sim))
      by (apply list_elem_of_fmap; by exists (d, v)).
    specialize (Hks d v Hk (getitem_nodup _ _ _ Hnd Hin)). rewrite Hn in Hks.
    destruct Hks as (dr & x & t0 & Hm & Hx & Hm').
    exists dr, x, (sim', w'). split; [done|]. split; [done|].
    split; [apply detect_changed_ok; by rewrite detect_changed_try_eq|].
    unfold get_dataref_value, bind. cbn [get_self gets fst snd]. rewrite Hm'.
    destruct (updated_dataref_fields dr v x t0) as (_ & -> & _).
    by destruct (is_None x).
Qed.

End DetectionFrame.

(** ** Stopping an animation *)

Section AnimationStop.
Import Py Py.Notations DrawAnimation.

(** X11. [anim_stop] on a running animation whose loop has begun, called
    from another thread than the loop's: the running flag is cleared, the
    stop event is set, the thread is joined once with a timeout of twice
    the speed, a warning is logged exactly when the thread is still alive
    after that, and the call returns. Called from the loop thread itself,
    [anim_stop] raises [RuntimeError] at the join, after it has cleared
    the flag and set the event: nothing is joined and nothing logged. In
    both cases a second [anim_stop], from any thread, does nothing but log
    that the animation is stopped already: no event is set, no thread
    joined. *)
Theorem anim_stop_joins_once (a : t) (w : World)
    (caller caller2 : option nat) (is_alive is_alive2 : bool)
    (ex : bool) (th : nat) (sp : float) :
  running a = Some true -> exit a = Some ex -> thread a = Some th ->
  speed a = Some sp ->
  let a' := set_exit (Some true) (set_running (Some false) a) in
  (caller <> Some th ->
   exists w',
     anim_stop caller is_alive (a, w) = (Ok tt, (a', w'))
     /\ new_events w w'
        = (EvThreadJoin th (VFloat (2 * sp))
             :: (if is_alive then [log_not_terminated] else [])
             ++ [log_stopped])%list
     /\ anim_stop caller2 is_alive2 (a', w')
        = (Ok tt, (a', emit log_already_stopped w')))
  /\ (caller = Some th ->
      anim_stop caller is_alive (a, w) = (Raise RuntimeError, (a', w))
      /\ anim_stop caller2 is_alive2 (a', w)
         = (Ok tt, (a', emit log_already_stopped w))).
Proof.
  intros Hr He Ht Hs a'.
  assert (Hrun : is_running a = true) by (unfold is_running; by rewrite Hr).
  assert (H2 : forall w0,
            anim_stop caller2 is_alive2 (a', w0)
            = (Ok tt, (a', emit log_already_stopped w0)))
    by (intros w0; by rewrite anim_stop_eq).
  split.
  - intros Hc. rewrite anim_stop_eq, Hrun, He, Ht, Hs. cbv zeta.
    rewrite bool_decide_eq_false_2 by exact Hc.
    destruct is_alive; (eexists; split; [reflexivity|]; split; [|apply H2]);
      unfold emit; cbn [events]; rewrite <- ?app_assoc;
      by apply new_events_app.
  - intros Hc. rewrite anim_stop_eq, Hrun, He, Ht. cbv zeta.
    rewrite bool_decide_eq_true_2 by exact Hc. split; [reflexivity|apply H2].
Qed.

(** X12. [anim_stop] on an animation that was started but whose loop thread
    has not run its first statement yet (there is no stop event): the
    call raises [AttributeError] after it has cleared the running flag;
    the thread is not joined, and a later [anim_stop] takes the animation
    for stopped. This is what [anim_start] followed at once by
    [anim_stop] does on a new animation, whatever thread makes the
    calls. *)
Theorem anim_stop_before_loop (a : t) (w : World) (caller : option nat)
    (is_alive : bool) :
  exit a = None ->
  (is_running a = true ->
   anim_stop caller is_alive (a, w)
   = (Raise AttributeError, (set_running (Some false) a, w)))
  /\ (is_running a = false -> is_Some (speed a) ->
      exists w',
        (do anim_start then anim_stop caller is_alive) (a, w)
        = (Raise AttributeError,
           (set_thread (Some (threads w)) (set_running (Some false) a), w'))
        /\ new_events w w'
           = [EvThreadStart (threads w)
                "ButtonAnimate::loop({self.button.name})";
              log_started]
        /\ anim_stop caller is_alive
             (set_thread (Some (threads w)) (set_running (Some false) a), w')
           = (Ok tt,
              (set_thread (Some (threads w)) (set_running (Some false) a),
               emit log_already_stopped w'))).
Proof.
  intros He. split.
  - intros Hr. by rewrite anim_stop_eq, Hr, He.
  - intros Hr Hsp. unfold bind at 1.
    rewrite anim_start_fresh by done. eexists. split; [|split].
    + rewrite anim_stop_eq. cbn [is_running running exit set_thread
                                 set_running]. rewrite He. reflexivity.
    + by apply new_events_app.
    + by rewrite anim_stop_eq.
Qed.

End AnimationStop.

Section ScanStep.
Import Py.

(** One round of the parser's loop. *)
Lemma scan_step m b msgs :
  LoupedeckLive.scan m b msgs =
  match LoupedeckLive.next_frame m b with
  | None => (b, msgs)
  | Some fr => LoupedeckLive.scan m (snd fr) (msgs ++ [fst fr])%list
  end.
Proof. apply scan_unfold. Qed.

End ScanStep.

(** ** Decoding frames *)

Section Decoding.
Import Py Py.Notations LoupedeckLive.

Lemma read_serial_chunks chunks d w :
  next_frame x82 (_buffer d) = None ->
  _read_serial chunks (d, w)
  = (Ok tt, (parsed (concat chunks) x82 d, w)).
Proof.
  revert d. induction chunks as [|c chunks IH]; intros d Hd.
  - cbn. by rewrite parsed_nil.
  - cbn [_read_serial for_each concat]. unfold bind.
    destruct (bool_decide (c = [])) eqn:E.
    + apply bool_decide_eq_true in E. subst c. cbn [negb ret app].
      apply IH, Hd.
    + cbn [negb]. rewrite parser_run.
      change (for_each chunks _) with (_read_serial chunks).
      rewrite IH by apply parsed_residue.
      by rewrite parsed_app.
Qed.

Lemma bytes_find_noise g rest :
  no_magic g -> bytes_find (g ++ x82 :: rest)%list x82 = Some (List.length g).
Proof.
  unfold no_magic. induction g as [|y g IH]; [done|]. cbn.
  destruct (Byte.eqb y x82); [discriminate|].
  destruct (bytes_find g x82); [discriminate|]. intros _.
  by rewrite IH.
Qed.

Lemma length_byte (payload : list byte) :
  (List.length payload < 256)%nat ->
  Z.to_nat
    (int_of_byte (default x00 (Byte.of_N (N.of_nat (List.length payload)))))
  = List.length payload.
Proof.
  intros Hl. unfold int_of_byte.
  destruct (Byte.of_N (N.of_nat (List.length payload))) as [b|] eqn:Hb.
  - apply Byte.to_of_N in Hb. cbn. rewrite Hb. lia.
  - apply Byte.of_N_None_iff in Hb. lia.
Qed.

Lemma next_frame_noisy (g payload rest : list byte) :
  no_magic g -> (List.length payload < 256)%nat ->
  next_frame x82 (noisy_frame (g, payload) ++ rest)%list
  = Some (payload, rest).
Proof.
  intros Hg Hl. unfold noisy_frame, frame. cbn [fst snd].
  rewrite <- app_assoc. cbn [app].
  unfold next_frame. rewrite (bytes_find_noise g _ Hg).
  rewrite !length_app. cbn [List.length].
  replace (_ <? _)%nat with false by (symmetry; apply Nat.ltb_ge; lia).
  rewrite lookup_app_r by lia.
  replace (List.length g + 1 - List.length g)%nat with 1%nat by lia.
  cbn [lookup list_lookup]. rewrite (length_byte _ Hl).
  rewrite length_app.
  replace (_ <? _)%nat with false by (symmetry; apply Nat.ltb_ge; lia).
  f_equal. f_equal.
  - rewrite drop_app_ge by lia.
    replace (List.length g + 2 - List.length g)%nat with 2%nat by lia.
    change (drop 2 (x82 :: ?[b] :: payload ++ rest)) with (payload ++ rest)%list.
    replace (List.length g + List.length payload + 2 - (List.length g + 2))%nat
      with (List.length payload) by lia.
    by rewrite take_app_length.
  - rewrite drop_app_ge by lia.
    replace (List.length g + List.length payload + 2 - List.length g)%nat
      with (S (S (List.length payload))) by lia.
    cbn [drop]. by rewrite drop_app_length.
Qed.

Lemma scan_frames items msgs :
  Forall (fun gp => no_magic (fst gp) /\ (List.length (snd gp) < 256)%nat)
    items ->
  scan x82 (concat (map noisy_frame items)) msgs
  = ([], (msgs ++ map snd items)%list).
Proof.
  revert msgs. induction items as [|[g p] items IH]; intros msgs Hall.
  - cbn [map concat]. rewrite scan_step.
    change (next_frame x82 []) with (@None (list byte * list byte)).
    by rewrite app_nil_r.
  - apply Forall_cons in Hall as [[Hg Hl] Hall]. cbn [map concat].
    rewrite scan_step, (next_frame_noisy g p _ Hg Hl). cbn [fst snd].
    rewrite IH by done. by rewrite <- app_assoc.
Qed.

(** X13. Decoding what the device encodes: a stream of frames, each a magic
    byte, a length byte and a payload of at most 255 bytes, with any bytes
    other than the magic byte before each frame, read from an empty buffer
    in chunks of any sizes, enqueues exactly the payloads, in order, and
    leaves the buffer empty. The bytes before a frame are dropped with it. *)
Theorem framing_decodes_frames (items : list (list byte * list byte))
    (chunks : list (list byte)) (d : t) (w : World) :
  _buffer d = [] ->
  Forall (fun gp => no_magic (fst gp) /\ (List.length (snd gp) < 256)%nat)
    items ->
  concat chunks = concat (map noisy_frame items) ->
  _read_serial chunks (d, w)
  = (Ok tt,
     (set__messages (_messages d ++ map snd items)%list d, w)).
Proof.
  intros Hb Hall Hc.
  rewrite read_serial_chunks by (by rewrite Hb).
  unfold parsed. rewrite Hb, Hc. cbn [app].
  rewrite (scan_frames items _ Hall). cbn [fst snd].
  destruct d; cbn in *; by subst.
Qed.

End Decoding.

(** ** Requests *)

Section Requests.
Import Py Py.Notations LoupedeckLive.

Lemma to_bytes_big_ok n k :
  0 <= n < 256 ^ Z.of_nat k -> to_bytes n k BIG_ENDIAN = Ok (be_digits k n).
Proof.
  intros H. unfold to_bytes. change (negb _) with false. cbv iota.
  replace (n <? 0) with false by (symmetry; apply Z.ltb_ge; lia).
  replace (256 ^ Z.of_nat k <=? n) with false
    by (symmetry; apply Z.leb_gt; lia).
  reflexivity.
Qed.

Lemma to_bytes_big_overflow n k :
  ~ (0 <= n < 256 ^ Z.of_nat k) -> to_bytes n k BIG_ENDIAN = Raise OverflowError.
Proof.
  intros H. unfold to_bytes. change (negb _) with false. cbv iota.
  destruct (Z.ltb_spec n 0); [done|].
  destruct (Z.leb_spec (256 ^ Z.of_nat k) n); [done|]. lia.
Qed.

(** [do_action] on a started device, up to its call of [send]. *)
Lemma do_action_eq action data track d w :
  inited d = true ->
  do_action action data track (d, w)
  = match data_bytes data with
    | Raise e => (Raise e, (d, w))
    | Ok bs =>
        match to_bytes action 2 BIG_ENDIAN with
        | Raise e =>
            (Raise e, (set_transaction_id (next_id (transaction_id d)) d, w))
        | Ok _ =>
            send (request action (next_id (transaction_id d)) bs) false
              (requested action track d, w)
        end
    end.
Proof.
  intros Hi. unfold do_action. unfold bind at 1. cbn [get_self gets fst snd].
  rewrite Hi. cbn [negb]. unfold bind at 1.
  assert (Hdata :
    match data with
    | Some (DataInt n) => let* b := lift (to_bytes n 1 BIG_ENDIAN) in ret (Some b)
    | Some (DataBytes b) => ret (Some b)
    | None => ret None
    end (d, w)
    = match data_bytes data with
      | Raise e => (Raise e, (d, w))
      | Ok bs => (Ok (match data with None => None | _ => Some bs end), (d, w))
      end).
  { destruct data as [[b|n]|]; reflexivity. }
  rewrite Hdata. destruct (data_bytes data) as [bs|e] eqn:Hdb; [|reflexivity].
  unfold bind at 1. cbn [modify_self modify fst snd].
  unfold bind at 1. cbn [get_self gets fst snd transaction_id
                         set_transaction_id].
  unfold bind at 1.
  assert (Hid :
    (if (transaction_id d + 1) mod MAX_TRANSACTIONS =? 0
     then modify_self (fun d0 => set_transaction_id (transaction_id d0 + 1) d0)
     else ret tt)
      (set_transaction_id ((transaction_id d + 1) mod MAX_TRANSACTIONS) d, w)
    = (Ok tt, (set_transaction_id (next_id (transaction_id d)) d, w))).
  { unfold next_id, MAX_TRANSACTIONS.
    destruct ((transaction_id d + 1) mod 256 =? 0) eqn:E; [|reflexivity].
    apply Z.eqb_eq in E. cbn [modify_self modify fst snd transaction_id
                               set_transaction_id]. by rewrite E. }
  rewrite Hid. unfold bind at 1. cbn [get_self gets fst snd].
  unfold bind at 1. unfold lift at 1.
  destruct (to_bytes action 2 BIG_ENDIAN) as [ha|e] eqn:Ha; [|reflexivity].
  unfold bind at 1. unfold lift at 1. cbn [transaction_id set_transaction_id].
  pose proof (next_id_range (transaction_id d)) as Hr.
  rewrite (to_bytes_big_ok (next_id (transaction_id d)) 1)
    by (change (256 ^ Z.of_nat 1) with 256; lia).
  assert (Hha : ha = be_digits 2 action).
  { destruct (decide (0 <= action < 256 ^ Z.of_nat 2)) as [Hin|Hout].
    - rewrite (to_bytes_big_ok action 2 Hin) in Ha. congruence.
    - rewrite (to_bytes_big_overflow action 2 Hout) in Ha. discriminate. }
  subst ha. unfold bind at 1.
  assert (Hpay :
    match match data with None => None | _ => Some bs end with
    | Some data0 =>
        ((be_digits 2 action ++ be_digits 1 (next_id (transaction_id d)))
           ++ data0)%list
    | None => (be_digits 2 action ++ be_digits 1 (next_id (transaction_id d)))%list
    end = request action (next_id (transaction_id d)) bs).
  { unfold request. destruct data as [[b|n]|]; rewrite <- ?app_assoc; try done.
    cbn in Hdb. injection Hdb as <-. by rewrite app_nil_r. }
  rewrite Hpay. unfold requested.
  destruct track; cbn [modify_self modify ret fst snd transaction_id
                       set_transaction_id pendingTransactions]; reflexivity.
Qed.

Lemma send_run buff d w :
  blen buff <> 0x80 -> blen buff < 2 ^ 32 ->
  send buff false (d, w)
  = (Ok tt,
     (d, emit (EvSerialWrite buff)
           (emit (EvSerialWrite (send_header (blen buff))) w))).
Proof.
  intros Hne Hlt. unfold send_header.
  destruct (Z.ltb_spec 0x80 (blen buff)).
  - by apply send_large.
  - destruct (send_small buff d w ltac:(lia)) as (b & Hb & ->).
    unfold int_of_byte in Hb.
    rewrite <- Hb, N2Z.id, Byte.of_to_N. done.
Qed.

Lemma send_0x80_run buff d w :
  blen buff = 0x80 -> send buff false (d, w) = (Raise ValueError, (d, w)).
Proof.
  intros Hl. unfold send. cbn -[byte_of_int blen Z.ltb].
  unfold bind at 1. unfold bind at 1. rewrite Hl. simpl Z.ltb. cbv iota.
  unfold bind at 1. unfold lift. reflexivity.
Qed.

Lemma request_length action id bs :
  blen (request action id bs) = blen bs + 3.
Proof.
  unfold blen, request. rewrite !length_app. cbn [be_digits List.length app].
  lia.
Qed.

(** A request that goes through: the two writes of [send]. *)
Lemma do_action_run action data track d w bs :
  inited d = true -> 0 <= action < 65536 -> data_bytes data = Ok bs ->
  blen bs + 3 <> 0x80 -> blen bs + 3 < 2 ^ 32 ->
  do_action action data track (d, w)
  = (Ok tt,
     (requested action track d,
      emit (EvSerialWrite (request action (next_id (transaction_id d)) bs))
        (emit (EvSerialWrite (send_header (blen bs + 3))) w))).
Proof.
  intros Hi Ha Hd Hne Hlt.
  rewrite do_action_eq, Hd by done.
  rewrite (to_bytes_big_ok action 2) by (change (256 ^ Z.of_nat 2) with 65536; lia).
  rewrite send_run by (rewrite request_length; lia).
  by rewrite request_length.
Qed.


(** X14. The bytes of a request on the wire. On a started device, for an
    action that fits two bytes and data that are bytes or an int that fits
    one byte, when the payload (three bytes and the data) is not exactly
    0x80 bytes long (and below 2 ** 32): [do_action] returns after two
    writes, the header of [send] for the payload's length, then the payload,
    which is the action in two bytes, most significant first, the
    transaction id that follows the device's in one byte, and the data. The
    device has taken that id, and holds the action as pending under it when
    the request is tracked; nothing else of it changes. *)
Theorem do_action_wire (action : Z) (data : option data_arg) (track : bool)
    (d : t) (w : World) (bs : list byte) :
  inited d = true -> 0 <= action < 65536 -> data_bytes data = Ok bs ->
  blen bs + 3 <> 0x80 -> blen bs + 3 < 2 ^ 32 ->
  exists w',
    do_action action data track (d, w)
    = (Ok tt, (requested action track d, w'))
    /\ new_events w w'
       = [EvSerialWrite (send_header (blen bs + 3));
          EvSerialWrite (request action (next_id (transaction_id d)) bs)]
    /\ List.length (request action (next_id (transaction_id d)) bs)
       = (3 + List.length bs)%nat.
Proof.
  intros Hi Ha Hd Hne Hlt.
  rewrite (do_action_run action data track d w bs) by done.
  eexists. split; [reflexivity|]. split.
  - unfold emit. cbn [events]. rewrite <- app_assoc. by apply new_events_app.
  - unfold request. rewrite !length_app. cbn [be_digits List.length app]. lia.
Qed.

(** X15. How [do_action] fails. On a device that is not started it only logs
    a warning. On a started device: an int given as data that does not fit
    one byte raises [OverflowError] and leaves the device as it was; an
    action that does not fit two bytes raises [OverflowError] after the next
    transaction id has been taken; a payload of exactly 0x80 bytes raises
    [ValueError] in [send], after the id has been taken and, for a tracked
    request, after the request has been noted as pending. In none of these
    cases is anything written to the serial line. *)
Theorem do_action_failures (action : Z) (data : option data_arg)
    (track : bool) (d : t) (w : World) :
  (inited d = false ->
   do_action action data track (d, w)
   = (Ok tt, (d, emit (EvLog logger WARNING "do_action: not started") w)))
  /\ (inited d = true ->
      (forall n, data = Some (DataInt n) -> ~ (0 <= n < 256) ->
         do_action action data track (d, w) = (Raise OverflowError, (d, w)))
      /\ (forall bs, data_bytes data = Ok bs -> ~ (0 <= action < 65536) ->
            do_action action data track (d, w)
            = (Raise OverflowError,
               (set_transaction_id (next_id (transaction_id d)) d, w)))
      /\ (forall bs, data_bytes data = Ok bs -> 0 <= action < 65536 ->
            blen bs + 3 = 0x80 ->
            do_action action data track (d, w)
            = (Raise ValueError, (requested action track d, w))
            /\ (track = true ->
                pendingTransactions (requested action track d)
                  !! next_id (transaction_id d) = Some (Some action)))).
Proof.
  split.
  - intros Hi. unfold do_action, bind. cbn [get_self gets fst snd].
    by rewrite Hi.
  - intros Hi. split; [|split].
    + intros n -> Hn. rewrite do_action_eq by done. cbn [data_bytes].
      rewrite (to_bytes_big_overflow n 1)
        by (change (256 ^ Z.of_nat 1) with 256; lia). done.
    + intros bs Hd Ha. rewrite do_action_eq, Hd by done.
      rewrite (to_bytes_big_overflow action 2)
        by (change (256 ^ Z.of_nat 2) with 65536; lia). done.
    + intros bs Hd Ha Hl. rewrite do_action_eq, Hd by done.
      rewrite (to_bytes_big_ok action 2)
        by (change (256 ^ Z.of_nat 2) with 65536; lia).
      split.
      * apply send_0x80_run. unfold blen, request. rewrite !length_app.
        cbn [be_digits List.length app]. unfold blen in Hl. lia.
      * intros ->. unfold requested. cbn. by rewrite lookup_insert_eq.
Qed.

End Requests.

(** ** Touches *)

Section TouchFacts.
Import Py Py.Notations LoupedeckLive.

Lemma forall_range_spec fuel lo P :
  forall_range fuel lo P = true ->
  forall z, lo <= z < lo + Z.of_nat fuel -> P z = true.
Proof.
  revert lo. induction fuel as [|fuel IH]; intros lo H z Hz; [lia|].
  cbn [forall_range] in H. apply andb_true_iff in H as [H0 H].
  destruct (Z.eq_dec z lo) as [->|Hne]; [done|].
  apply (IH (lo + 1) H). lia.
Qed.

Lemma floors_as_90_check :
  forall_range (Z.to_nat 65536) 0 (floors_as 90) = true.
Proof. vm_compute. reflexivity. Qed.

Lemma floors_as_4_check :
  forall_range (Z.to_nat 256) 0 (floors_as 4) = true.
Proof. vm_compute. reflexivity. Qed.

Lemma floors_as_spec b a :
  floors_as b a = true ->
  exists q, int_truediv a b = Ok q /\ floor q = Ok (a / b).
Proof.
  unfold floors_as. destruct (int_truediv a b) as [q|]; [|discriminate].
  intros H. exists q. split; [done|].
  destruct (floor q) as [z|]; [|discriminate].
  apply Z.eqb_eq in H. by subst.
Qed.

Lemma floor_div_90 a :
  0 <= a < 65536 ->
  exists q, int_truediv a 90 = Ok q /\ floor q = Ok (a / 90).
Proof.
  intros Ha. apply floors_as_spec.
  apply (forall_range_spec _ _ _ floors_as_90_check). lia.
Qed.

Lemma floor_div_4 a :
  0 <= a < 256 ->
  exists q, int_truediv a 4 = Ok q /\ floor q = Ok (a / 4).
Proof.
  intros Ha. apply floors_as_spec.
  apply (forall_range_spec _ _ _ floors_as_4_check). lia.
Qed.

Lemma int_of_byte_range b : 0 <= int_of_byte b < 256.
Proof.
  unfold int_of_byte. pose proof (Byte.to_N_bounded b). lia.
Qed.

Lemma word_range hi lo : 0 <= word hi lo < 65536.
Proof.
  unfold word. pose proof (int_of_byte_range hi).
  pose proof (int_of_byte_range lo). lia.
Qed.

Lemma from_bytes_word hi lo : from_bytes [hi; lo] BIG_ENDIAN = Ok (word hi lo).
Proof. reflexivity. Qed.

(** The key computed by [on_touch] for a touch at [(x, y)]. *)
Lemma on_touch_key {S} x y (st : S) :
  0 <= x < 65536 -> 0 <= y < 65536 ->
  (if String.eqb (screen_of x) "center" then
     let* q := lift (int_truediv (x - 60) 90) in
     let* column := lift (floor q) in
     let* q := lift (int_truediv y 90) in
     let* row := lift (floor q) in
     ret (Some (row * 4 + column))
   else ret None) st
  = (Ok (key_of x y), st).
Proof.
  intros Hx Hy. unfold screen_of, key_of.
  destruct (Z.ltb_spec x 60).
  { replace (60 <=? x) with false by (symmetry; apply Z.leb_gt; lia). done. }
  replace (60 <=? x) with true by (symmetry; apply Z.leb_le; lia).
  destruct (Z.ltb_spec 420 x).
  { replace (x <=? 420) with false by (symmetry; apply Z.leb_gt; lia). done. }
  replace (x <=? 420) with true by (symmetry; apply Z.leb_le; lia).
  cbn [String.eqb Ascii.eqb Bool.eqb andb].
  destruct (floor_div_90 (x - 60) ltac:(lia)) as (q1 & Hq1 & Hf1).
  destruct (floor_div_90 y Hy) as (q2 & Hq2 & Hf2).
  unfold bind, lift, ret. by rewrite Hq1, Hf1, Hq2, Hf2.
Qed.

Lemma on_touch_eq b0 x1 x2 y1 y2 i rest event d w :
  on_touch (b0 :: x1 :: x2 :: y1 :: y2 :: i :: rest) event (d, w)
  = let idx := int_of_byte i in
    let m := touch_at idx event (word x1 x2) (word y1 y2) (clock w) in
    if String.eqb event "touchmove" then
      match touches d !! idx with
      | None =>
          let m' := set_touch_action "touchstart" m in
          let out := deliver m' (set_touches (<[idx := m']> (touches d)) d) in
          (fst out, (snd out, tick w))
      | Some _ =>
          let out := deliver m d in (fst out, (snd out, tick w))
      end
    else
      match touches d !! idx with
      | Some _ =>
          let out := deliver m (set_touches (delete idx (touches d)) d) in
          (fst out, (snd out, tick w))
      | None => (Raise (KeyError (str_of_int idx)), (d, tick w))
      end.
Proof.
  unfold on_touch.
  change (bytes_slice (b0 :: x1 :: x2 :: y1 :: y2 :: i :: rest) 1 3)
    with [x1; x2].
  change (bytes_slice (b0 :: x1 :: x2 :: y1 :: y2 :: i :: rest) 3 5)
    with [y1; y2].
  rewrite !from_bytes_word.
  change (byte_at (b0 :: x1 :: x2 :: y1 :: y2 :: i :: rest) 5)
    with (Ok (int_of_byte i) : result Z).
  unfold bind at 1. unfold lift at 1. unfold bind at 1. unfold lift at 1.
  unfold bind at 1. unfold lift at 1.
  unfold bind at 1.
  change (if word x1 x2 <? 60 then "left"
          else if 420 <? word x1 x2 then "right" else "center")
    with (screen_of (word x1 x2)).
  rewrite (on_touch_key (word x1 x2) (word y1 y2) (d, w)
             (word_range _ _) (word_range _ _)).
  unfold bind at 1. cbn [now fst snd].
  fold (touch_at (int_of_byte i) event (word x1 x2) (word y1 y2) (clock w)).
  set (m := touch_at _ _ _ _ _). cbv zeta.
  unfold bind at 1.
  destruct (String.eqb event "touchmove").
  - unfold bind at 1. cbn [get_self gets fst snd].
    destruct (touches d !! int_of_byte i) as [old|].
    + cbn [ret]. unfold bind at 1. cbn [get_self gets fst snd]. unfold deliver.
      destruct (callback d) as [cb|]; [|reflexivity].
      unfold bind. cbn [modify_self modify fst snd].
      by destruct (cb m).
    + unfold bind at 1. cbn [modify_self modify ret fst snd].
      unfold bind at 1. cbn [get_self gets fst snd]. unfold deliver.
      cbn [callback set_touches].
      destruct (callback d) as [cb|]; [|reflexivity].
      unfold bind. cbn [modify_self modify fst snd].
      by destruct (cb (set_touch_action "touchstart" m)).
  - unfold bind at 1. cbn [get_self gets fst snd].
    destruct (touches d !! int_of_byte i) as [old|]; [|reflexivity].
    unfold bind at 1. cbn [modify_self modify ret fst snd].
    unfold bind at 1. cbn [get_self gets fst snd]. unfold deliver.
    cbn [callback set_touches].
    destruct (callback d) as [cb|]; [|reflexivity].
    unfold bind. cbn [modify_self modify fst snd].
    by destruct (cb m).
Qed.

(** X16. The touches in progress. A message of at least six bytes carries
    the abscissa in bytes 1-2, the ordinate in bytes 3-4 and the touch id in
    byte 5. A "touchmove" for an id that has no touch in progress is
    recorded under the id and reported to the callback as a "touchstart";
    for an id that has one it is reported as a "touchmove" and the recorded
    touch is left as it was; a "touchend" for an id in progress removes the
    record and is reported; a "touchend" for an id that has no touch in
    progress raises [KeyError] and the callback is not called. The clock is
    read once in each case. *)
Theorem on_touch_tracks_touches (b0 x1 x2 y1 y2 i : byte)
    (rest : list byte) (d : device) (w : World) :
  let buff := b0 :: x1 :: x2 :: y1 :: y2 :: i :: rest in
  let idx := int_of_byte i in
  let m := fun action =>
    touch_at idx action (word x1 x2) (word y1 y2) (clock w) in
  (touches d !! idx = None ->
   on_touch buff "touchmove" (d, w)
   = (let out :=
        deliver (m "touchstart")
          (set_touches (<[idx := m "touchstart"]> (touches d)) d) in
      (fst out, (snd out, tick w)))
   /\ on_touch_end buff (d, w)
      = (Raise (KeyError (str_of_int idx)), (d, tick w)))
  /\ (is_Some (touches d !! idx) ->
      on_touch buff "touchmove" (d, w)
      = (let out := deliver (m "touchmove") d in
         (fst out, (snd out, tick w)))
      /\ on_touch_end buff (d, w)
         = (let out :=
              deliver (m "touchend")
                (set_touches (delete idx (touches d)) d) in
            (fst out, (snd out, tick w)))).
Proof.
  intros buff idx m. subst buff idx m. split.
  - intros Hn. unfold on_touch_end. rewrite !on_touch_eq. cbv zeta.
    rewrite Hn. split; reflexivity.
  - intros [old Ho]. unfold on_touch_end. rewrite !on_touch_eq. cbv zeta.
    rewrite Ho. split; reflexivity.
Qed.

Lemma on_touch_short buff event d w :
  (List.length buff < 6)%nat ->
  on_touch buff event (d, w) = (Raise IndexError, (d, w)).
Proof.
  intros Hl. unfold on_touch.
  assert (Hx : exists x, from_bytes (bytes_slice buff 1 3) BIG_ENDIAN = Ok x)
    by (by eexists).
  assert (Hy : exists y, from_bytes (bytes_slice buff 3 5) BIG_ENDIAN = Ok y)
    by (by eexists).
  destruct Hx as [x ->], Hy as [y ->].
  unfold bind at 1. unfold lift at 1. unfold bind at 1. unfold lift at 1.
  unfold bind at 1. unfold lift at 1. unfold byte_at.
  rewrite lookup_ge_None_2 by lia. reflexivity.
Qed.

Lemma on_touch_keeps buff event st :
  transport (fst (snd (on_touch buff event st))) = transport (fst st).
Proof.
  destruct st as [d w].
  destruct buff as [|b0 [|x1 [|x2 [|y1 [|y2 [|i rest]]]]]].
  1-6: by rewrite on_touch_short by (cbn; lia).
  rewrite on_touch_eq. cbv zeta. unfold deliver.
  repeat case_match; reflexivity.
Qed.

(** Where a touch lands: left of abscissa 60 on the left screen, right of
    420 on the right screen, both without a key; every point of the image
    of a key from 0 to 11 on that key; the abscissa 420 in column 4. *)
Lemma key_of_key_image (idx dx dy : Z) :
  (forall x y, x < 60 -> screen_of x = "left" /\ key_of x y = None)
  /\ (forall x y, 420 < x -> screen_of x = "right" /\ key_of x y = None)
  /\ (0 <= idx < 12 -> 0 <= dx < 90 -> 0 <= dy < 90 ->
      let x := 60 + fst (key_origin idx) + dx in
      let y := snd (key_origin idx) + dy in
      screen_of x = "center" /\ key_of x y = Some idx)
  /\ (forall row, 0 <= row ->
      key_of 420 (row * 90) = Some (row * 4 + 4)
      /\ key_of 60 ((row + 1) * 90) = Some (row * 4 + 4)).
Proof.
  split; [|split; [|split]].
  - intros x y Hx. unfold screen_of, key_of.
    replace (x <? 60) with true by (symmetry; apply Z.ltb_lt; lia).
    replace (60 <=? x) with false by (symmetry; apply Z.leb_gt; lia). done.
  - intros x y Hx. unfold screen_of, key_of.
    replace (x <? 60) with false by (symmetry; apply Z.ltb_ge; lia).
    replace (420 <? x) with true by (symmetry; apply Z.ltb_lt; lia).
    replace (x <=? 420) with false by (symmetry; apply Z.leb_gt; lia).
    by rewrite andb_false_r.
  - intros Hi Hdx Hdy x y. subst x y. unfold key_origin. cbn [fst snd].
    assert (Hm : 0 <= idx mod 4 < 4) by (apply Z.mod_pos_bound; lia).
    assert (Hd : 0 <= idx / 4 < 3)
      by (split; [apply Z.div_pos; lia|apply Z.div_lt_upper_bound; lia]).
    unfold screen_of, key_of.
    replace (_ <? 60) with false by (symmetry; apply Z.ltb_ge; lia).
    replace (420 <? _) with false by (symmetry; apply Z.ltb_ge; lia).
    replace (60 <=? _) with true by (symmetry; apply Z.leb_le; lia).
    replace (_ <=? 420) with true by (symmetry; apply Z.leb_le; lia).
    split; [done|]. cbn [andb]. f_equal.
    replace (60 + idx mod 4 * 90 + dx - 60) with (dx + idx mod 4 * 90) by lia.
    replace (idx / 4 * 90 + dy) with (dy + idx / 4 * 90) by lia.
    rewrite !Z.div_add, !(Z.div_small _ 90) by lia.
    pose proof (Z.div_mod idx 4 ltac:(lia)). lia.
  - intros row Hr. unfold key_of. cbn [Z.leb Z.compare andb].
    rewrite !Z.div_mul by lia.
    change ((420 - 60) / 90) with 4. change ((60 - 60) / 90) with 0.
    split; f_equal; lia.
Qed.

End TouchFacts.

(** ** Displays *)

Section DisplayFacts.
Import Py Py.Notations LoupedeckLive.

Variable HEADERS : gmap string Z.
Variable DISPLAYS : gmap string display_info.
Variable MAX_BRIGHTNESS : Z.
Variable image : Type.
Variable to_native_format : string -> image -> result (list byte).

Lemma do_action_events action data track d w bs :
  inited d = true -> 0 <= action < 65536 -> data_bytes data = Ok bs ->
  sendable bs ->
  do_action action data track (d, w)
  = (Ok tt,
     (requested action track d,
      {| events :=
           (events w
            ++ request_writes action (next_id (transaction_id d)) bs)%list;
         clock := clock w; threads := threads w |})).
Proof.
  intros Hi Ha Hd [Hne Hlt].
  rewrite (do_action_run action data track d w bs) by done.
  unfold emit, request_writes. cbn [events clock threads].
  by rewrite <- app_assoc.
Qed.




Lemma set_key_image_eq idx b st :
  0 <= idx < 256 ->
  set_key_image HEADERS DISPLAYS image to_native_format idx
    (ImageBytearray image b) st
  = draw_buffer HEADERS DISPLAYS b "center" (Some 90) (Some 90)
      (fst (key_origin idx)) (snd (key_origin idx)) true st.
Proof.
  intros Hi. unfold set_key_image.
  destruct (floor_div_4 idx Hi) as (q & Hq & Hf).
  unfold bind at 1. unfold lift at 1. rewrite Hq.
  unfold bind at 1. unfold lift at 1. rewrite Hf. reflexivity.
Qed.

(** The touch that [on_touch] hands to the callback for a "touchmove". *)
Lemma on_touch_delivers b0 x1 x2 y1 y2 i rest dev w cb :
  callback dev = Some cb ->
  exists action,
    delivered (fst (snd (on_touch (b0 :: x1 :: x2 :: y1 :: y2 :: i :: rest)
                           "touchmove" (dev, w))))
    = (delivered dev
       ++ [touch_at (int_of_byte i) action (word x1 x2) (word y1 y2)
             (clock w)])%list.
Proof.
  intros Hcb. rewrite on_touch_eq. cbv zeta.
  change (String.eqb "touchmove" "touchmove") with true. cbv iota.
  unfold deliver.
  destruct (touches dev !! int_of_byte i) as [old|];
    cbn [callback set_touches]; rewrite Hcb;
    cbn [fst snd delivered set_delivered]; by eexists.
Qed.

(** X18. Keys and touches agree. [set_key_image] for a key [idx] from 0 to
    11 and a bytearray draws it on the center display, 90 by 90, at [(idx %
    4 * 90, idx // 4 * 90)]; and a touch message whose coordinates are those
    of any point of that image, moved right by the 60 columns of the left
    display, is reported by [on_touch] to the callback as a touch of the
    center screen on key [idx]. *)
Theorem set_key_image_touch_roundtrip (idx dx dy : Z) (pixels : list byte)
    (st : t * World) (b0 x1 x2 y1 y2 i : byte) (rest : list byte)
    (dev : device) (w : World) (cb : touch -> option exn) :
  0 <= idx < 12 -> 0 <= dx < 90 -> 0 <= dy < 90 ->
  word x1 x2 = 60 + idx mod 4 * 90 + dx ->
  word y1 y2 = idx / 4 * 90 + dy ->
  callback dev = Some cb ->
  set_key_image HEADERS DISPLAYS image to_native_format idx
    (ImageBytearray image pixels) st
  = draw_buffer HEADERS DISPLAYS pixels "center" (Some 90) (Some 90)
      (idx mod 4 * 90) (idx / 4 * 90) true st
  /\ exists m,
       delivered (fst (snd (on_touch (b0 :: x1 :: x2 :: y1 :: y2 :: i :: rest)
                              "touchmove" (dev, w))))
       = (delivered dev ++ [m])%list
       /\ touch_screen m = "center"
       /\ touch_key m = Some idx
       /\ touch_x m = 60 + idx mod 4 * 90 + dx
       /\ touch_y m = idx / 4 * 90 + dy.
Proof.
  intros Hi Hdx Hdy Hx Hy Hcb. split.
  - apply set_key_image_eq. lia.
  - destruct (on_touch_delivers b0 x1 x2 y1 y2 i rest dev w cb Hcb)
      as [action Hd].
    eexists. split; [exact Hd|].
    cbn [touch_at touch_screen touch_key touch_x touch_y]. rewrite Hx, Hy.
    destruct (key_of_key_image idx dx dy) as (_ & _ & Hk & _).
    destruct (Hk Hi Hdx Hdy) as [Hs Hkey]. cbn [key_origin fst snd] in Hs, Hkey.
    by repeat split.
Qed.

(** X19. The right edge of the center screen. The abscissa 420 is still
    taken for the center screen, where it falls in a fifth column: a touch
    there, in row [row], is reported to the callback with the key [row * 4 +
    4], the key whose image [set_key_image] draws at the left end of the row
    below. *)
Theorem on_touch_right_edge (row dy : Z) (pixels : list byte)
    (st : t * World) (b0 x1 x2 y1 y2 i : byte) (rest : list byte)
    (dev : device) (w : World) (cb : touch -> option exn) :
  0 <= row < 63 -> 0 <= dy < 90 ->
  word x1 x2 = 420 -> word y1 y2 = row * 90 + dy ->
  callback dev = Some cb ->
  (exists m,
     delivered (fst (snd (on_touch (b0 :: x1 :: x2 :: y1 :: y2 :: i :: rest)
                            "touchmove" (dev, w))))
     = (delivered dev ++ [m])%list
     /\ touch_screen m = "center"
     /\ touch_key m = Some (row * 4 + 4))
  /\ set_key_image HEADERS DISPLAYS image to_native_format (row * 4 + 4)
       (ImageBytearray image pixels) st
     = draw_buffer HEADERS DISPLAYS pixels "center" (Some 90) (Some 90)
         0 ((row + 1) * 90) true st.
Proof.
  intros Hr Hdy Hx Hy Hcb. split.
  - destruct (on_touch_delivers b0 x1 x2 y1 y2 i rest dev w cb Hcb)
      as [action Hd].
    eexists. split; [exact Hd|].
    cbn [touch_at touch_screen touch_key]. rewrite Hx, Hy.
    split; [reflexivity|]. unfold key_of. cbn [Z.leb Z.compare andb].
    f_equal. change ((420 - 60) / 90) with 4.
    replace (row * 90 + dy) with (dy + row * 90) by lia.
    rewrite Z.div_add, (Z.div_small dy 90) by lia. lia.
  - rewrite set_key_image_eq by lia. unfold key_origin. cbn [fst snd].
    replace ((row * 4 + 4) mod 4) with 0
      by (symmetry; replace (row * 4 + 4) with ((row + 1) * 4) by lia;
          apply Z.mod_mul; lia).
    replace ((row * 4 + 4) / 4) with (row + 1)
      by (symmetry; replace (row * 4 + 4) with ((row + 1) * 4) by lia;
          apply Z.div_mul; lia).
    reflexivity.
Qed.

Lemma floors_as_10_check :
  forall_range (Z.to_nat 2048) (-1024) (floors_as 10) = true.
Proof. vm_compute. reflexivity. Qed.

Lemma set_brightness_eq brightness a d w :
  HEADERS !! "SET_BRIGHTNESS" = Some a ->
  set_brightness HEADERS MAX_BRIGHTNESS brightness (d, w)
  = match int_truediv brightness 10 with
    | Raise e => (Raise e, (d, w))
    | Ok q =>
        match floor q with
        | Raise e => (Raise e, (d, w))
        | Ok v =>
            let level := if v <? 1 then 0 else v in
            let level :=
              if MAX_BRIGHTNESS <? level then MAX_BRIGHTNESS else level in
            let w1 := if v <? 1 then emit log_brightness_zero w else w in
            match to_bytes level 1 BIG_ENDIAN with
            | Raise e => (Raise e, (d, w1))
            | Ok data => do_action a (Some (DataBytes data)) false (d, w1)
            end
        end
    end.
Proof.
  intros Hh. unfold set_brightness, getkey. rewrite Hh.
  unfold bind at 1. unfold lift at 1.
  destruct (int_truediv brightness 10) as [q|e]; [|reflexivity].
  unfold bind at 1. unfold lift at 1.
  destruct (floor q) as [v|e]; [|reflexivity].
  unfold bind at 1. cbv zeta.
  destruct (v <? 1).
  - unfold bind at 1. cbn [log modify ret fst snd].
    unfold bind at 1. unfold lift at 1. unfold bind at 1. unfold lift at 1.
    by destruct (to_bytes _ 1 BIG_ENDIAN).
  - cbn [ret]. unfold bind at 1. unfold lift at 1. unfold bind at 1.
    unfold lift at 1. by destruct (to_bytes _ 1 BIG_ENDIAN).
Qed.

(** X20. [set_brightness] sends a level between 0 and [MAX_BRIGHTNESS]. With
    the action in the table, on a started device and for a bound that fits
    one byte: whatever the argument, a call that returns has made one
    request, not tracked, whose single data byte is a level from 0 to
    [MAX_BRIGHTNESS]; and for an argument from -1024 to 1023 the call
    returns, the level is the tenth of the argument, rounded down, brought
    to 0 when below 1 (with a warning) and to [MAX_BRIGHTNESS] when above. *)
Theorem set_brightness_level (brightness a : Z) (d : t) (w : World) :
  HEADERS !! "SET_BRIGHTNESS" = Some a -> 0 <= a < 65536 ->
  inited d = true -> 0 <= MAX_BRIGHTNESS < 256 ->
  (forall st', set_brightness HEADERS MAX_BRIGHTNESS brightness (d, w)
               = (Ok tt, st') ->
     exists level warned,
       0 <= level <= MAX_BRIGHTNESS
       /\ fst st' = requested a false d
       /\ new_events w (snd st')
          = ((if warned : bool then [log_brightness_zero] else [])
             ++ request_writes a (next_id (transaction_id d))
                  (be_digits 1 level))%list)
  /\ (-1024 <= brightness < 1024 ->
      exists w',
        set_brightness HEADERS MAX_BRIGHTNESS brightness (d, w)
        = (Ok tt, (requested a false d, w'))
        /\ new_events w w'
           = ((if brightness <? 10 then [log_brightness_zero] else [])
              ++ request_writes a (next_id (transaction_id d))
                   (be_digits 1
                      (brightness_level MAX_BRIGHTNESS brightness)))%list).
Proof.
  intros Hh Ha Hi Hmax.
  assert (Hsend : forall level w1,
    0 <= level <= MAX_BRIGHTNESS ->
    match to_bytes level 1 BIG_ENDIAN with
    | Raise e => (Raise e, (d, w1))
    | Ok data => do_action a (Some (DataBytes data)) false (d, w1)
    end
    = (Ok tt,
       (requested a false d,
        {| events :=
             (events w1
              ++ request_writes a (next_id (transaction_id d))
                   (be_digits 1 level))%list;
           clock := clock w1; threads := threads w1 |}))).
  { intros level w1 Hl.
    rewrite (to_bytes_big_ok level 1)
      by (change (256 ^ Z.of_nat 1) with 256; lia).
    apply do_action_events; first [done | by split]. }
  assert (Hlevel : forall v,
    0 <= (if MAX_BRIGHTNESS <? (if v <? 1 then 0 else v)
          then MAX_BRIGHTNESS else if v <? 1 then 0 else v)
      <= MAX_BRIGHTNESS).
  { intros v. destruct (Z.ltb_spec v 1).
    - destruct (Z.ltb_spec MAX_BRIGHTNESS 0); lia.
    - destruct (Z.ltb_spec MAX_BRIGHTNESS v); lia. }
  split.
  - intros st'. rewrite (set_brightness_eq _ a) by done.
    destruct (int_truediv brightness 10) as [q|e]; [|discriminate].
    destruct (floor q) as [v|e]; [|discriminate]. cbv zeta.
    set (level := if MAX_BRIGHTNESS <? _ then _ else _).
    rewrite (Hsend level) by apply Hlevel. intros [= <-]. cbn [fst snd].
    exists level, (v <? 1). split; [apply Hlevel|]. split; [done|].
    eapply new_events_app. cbn [events].
    destruct (v <? 1); cbn [emit events app]; by rewrite <- ?app_assoc.
  - intros Hb. rewrite (set_brightness_eq _ a) by done.
    destruct (floors_as_spec 10 brightness) as (q & -> & ->).
    { apply (forall_range_spec _ _ _ floors_as_10_check). lia. }
    cbv zeta. fold (brightness_level MAX_BRIGHTNESS brightness).
    rewrite (Hsend (brightness_level MAX_BRIGHTNESS brightness))
      by apply Hlevel.
    eexists. split; [reflexivity|].
    eapply new_events_app. cbn [events].
    assert (Hlt : (brightness / 10 <? 1) = (brightness <? 10)).
    { destruct (Z.ltb_spec brightness 10), (Z.ltb_spec (brightness / 10) 1);
        try done.
      - pose proof (Z.div_lt_upper_bound brightness 10 1 ltac:(lia) ltac:(lia)).
        lia.
      - pose proof (Z.div_le_lower_bound brightness 10 1 ltac:(lia) ltac:(lia)).
        lia. }
    rewrite <- Hlt.
    destruct (brightness / 10 <? 1); cbn [emit events app];
      by rewrite <- ?app_assoc.
Qed.

End DisplayFacts.

(** ** Message loop *)

Section MessageFacts.
Import Py Py.Notations LoupedeckLive.

Lemma process_message_eq handlers b0 b1 i rest d w :
  process_message handlers (b0 :: b1 :: i :: rest) (d, w)
  = let out := handled handlers (word b0 b1) rest (d, w) in
    let d1 := fst (snd out) in
    let w1 := snd (snd out) in
    match fst out with
    | Raise _ => (Ok tt, (d1, logged_exception w1))
    | Ok _ =>
        match pending d1 !! int_of_byte i with
        | Some (Some _) => (Ok tt, (d1, logged_exception w1))
        | _ =>
            (Ok tt,
             (set_transport
                (set_pendingTransactions
                   (<[int_of_byte i := None]> (pending d1)) (transport d1))
                d1, w1))
        end
    end.
Proof.
  unfold process_message, try_except, handled, pending.
  change (bytes_slice (b0 :: b1 :: i :: rest) 0 2) with [b0; b1].
  rewrite from_bytes_word.
  change (byte_at (b0 :: b1 :: i :: rest) 2) with (Ok (int_of_byte i) : result Z).
  change (drop 3 (b0 :: b1 :: i :: rest)) with rest.
  unfold bind at 1. unfold lift at 1. unfold bind at 1. unfold lift at 1.
  unfold bind at 1.
  destruct (handlers !! word b0 b1) as [h|].
  - unfold bind at 1. destruct (h rest (d, w)) as [[[]|e] [d1 w1]];
      cbn [fst snd ret]; [|reflexivity].
    unfold bind at 1. cbn [get_self gets fst snd].
    destruct (pendingTransactions (transport d1) !! int_of_byte i)
      as [[a|]|]; reflexivity.
  - cbn [ret fst snd]. unfold bind at 1. cbn [get_self gets fst snd].
    destruct (pendingTransactions (transport d) !! int_of_byte i)
      as [[a|]|]; reflexivity.
Qed.

Lemma process_message_short handlers buff d w :
  (List.length buff < 3)%nat ->
  process_message handlers buff (d, w) = (Ok tt, (d, logged_exception w)).
Proof.
  intros Hl. unfold process_message, try_except.
  assert (Hh : exists h, from_bytes (bytes_slice buff 0 2) BIG_ENDIAN = Ok h)
    by (by eexists).
  destruct Hh as [h ->].
  unfold bind at 1. unfold lift at 1. unfold bind at 1. unfold lift at 1.
  unfold byte_at. rewrite lookup_ge_None_2 by lia. reflexivity.
Qed.

Lemma process_message_returns handlers buff st :
  fst (process_message handlers buff st) = Ok tt.
Proof.
  unfold process_message, try_except.
  match goal with
  | |- fst (match ?x with _ => _ end) = _ => destruct x as [[[]|e] st']
  end; reflexivity.
Qed.

Lemma handled_keeps handlers header rest st :
  keeps_transport handlers ->
  transport (fst (snd (handled handlers header rest st)))
  = transport (fst st).
Proof.
  intros Hk. unfold handled.
  destruct (handlers !! header) as [h|] eqn:E; [|done].
  apply (Hk _ _ E).
Qed.

(** What processing a message does to the pending table. *)
Lemma process_message_transport handlers b0 b1 i rest d w :
  keeps_transport handlers ->
  let d' := fst (snd (process_message handlers (b0 :: b1 :: i :: rest)
                        (d, w))) in
  transport d'
  = match pending d !! int_of_byte i with
    | Some (Some _) => transport d
    | _ =>
        match fst (handled handlers (word b0 b1) rest (d, w)) with
        | Ok _ =>
            set_pendingTransactions
              (<[int_of_byte i := None]> (pending d)) (transport d)
        | Raise _ => transport d
        end
    end.
Proof.
  intros Hk d'. subst d'. rewrite process_message_eq. cbv zeta.
  pose proof (handled_keeps handlers (word b0 b1) rest (d, w) Hk) as Ht.
  cbn [fst] in Ht. unfold pending. rewrite Ht.
  destruct (fst (handled handlers (word b0 b1) rest (d, w))) as [[]|e].
  - destruct (pendingTransactions (transport d) !! int_of_byte i)
      as [[a|]|]; cbn [fst snd transport set_transport]; by rewrite ?Ht.
  - cbn [fst snd]. rewrite Ht.
    by destruct (pendingTransactions (transport d) !! int_of_byte i)
      as [[a|]|].
Qed.

Lemma process_loop_eq handlers n d w :
  _process_messages handlers (S n) (d, w)
  = match _messages (transport d) with
    | [] => (Ok tt, (d, w))
    | buff :: rest =>
        _process_messages handlers n
          (snd (process_message handlers buff
                  (set_transport (set__messages rest (transport d)) d, w)))
    end.
Proof.
  cbn [_process_messages]. unfold bind at 1. cbn [get_self gets fst snd].
  destruct (_messages (transport d)) as [|buff rest]; [reflexivity|].
  unfold bind at 1. cbn [modify_self modify fst snd]. unfold bind at 1.
  pose proof (process_message_returns handlers buff
                (set_transport (set__messages rest (transport d)) d, w)) as Hr.
  destruct (process_message handlers buff _) as [r st1].
  cbn [fst snd] in *. by subst r.
Qed.

Lemma process_loop_drains handlers rounds d w :
  keeps_transport handlers ->
  (List.length (_messages (transport d)) <= rounds)%nat ->
  let out := _process_messages handlers rounds (d, w) in
  fst out = Ok tt /\ _messages (transport (fst (snd out))) = [].
Proof.
  intros Hk. revert d w. induction rounds as [|n IH]; intros d w Hl out.
  - subst out. cbn. split; [done|].
    destruct (_messages (transport d)); [done|cbn in Hl; lia].
  - subst out. rewrite process_loop_eq.
    destruct (_messages (transport d)) as [|buff rest] eqn:Hq; [by split|].
    set (d0 := set_transport (set__messages rest (transport d)) d).
    destruct (process_message handlers buff (d0, w)) as [r [d1 w1]] eqn:Hp.
    cbn [snd].
    assert (Hm : _messages (transport d1) = rest).
    { destruct buff as [|b0 [|b1 [|i rest']]].
      1-3: rewrite process_message_short in Hp by (cbn; lia);
           by injection Hp as <- <- <-.
      pose proof (process_message_transport handlers b0 b1 i rest' d0 w Hk)
        as Ht. cbv zeta in Ht. rewrite Hp in Ht. cbn [fst snd] in Ht.
      rewrite Ht. repeat case_match; done. }
    apply IH. rewrite Hm. cbn in Hl. lia.
Qed.

(** X21. The message loop and the table of pending transactions. Processing
    a message never raises: whatever goes wrong is logged and the loop goes
    on; with handlers that leave the transport alone, as many rounds as
    there are messages empty the queue. A message of fewer than three bytes
    has no transaction id: it is logged as an exception and no handler is
    called. For a longer one, whose third byte is the transaction id: when
    the table holds an action under that id, as [do_action] leaves it for a
    tracked request, the table is left as it is, for the stored action is
    called as a resolver, which raises; in the other cases the id is entered
    in the table with [None], unless the handler raised. *)
Theorem process_message_pending (handlers : gmap Z handler) (d : device)
    (w : World) :
  (forall buff, fst (process_message handlers buff (d, w)) = Ok tt)
  /\ (forall buff, (List.length buff < 3)%nat ->
        process_message handlers buff (d, w)
        = (Ok tt, (d, logged_exception w)))
  /\ (keeps_transport handlers ->
      (forall b0 b1 i rest,
         let out := process_message handlers (b0 :: b1 :: i :: rest) (d, w) in
         let id := int_of_byte i in
         match pending d !! id with
         | Some (Some action) =>
             pending (fst (snd out)) = pending d
             /\ snd (snd out)
                = logged_exception
                    (snd (snd (handled handlers (word b0 b1) rest (d, w))))
         | _ =>
             match fst (handled handlers (word b0 b1) rest (d, w)) with
             | Ok _ => pending (fst (snd out)) = <[id := None]> (pending d)
             | Raise _ => pending (fst (snd out)) = pending d
             end
         end)
      /\ (forall rounds,
            (List.length (_messages (transport d)) <= rounds)%nat ->
            let out := _process_messages handlers rounds (d, w) in
            fst out = Ok tt /\ _messages (transport (fst (snd out))) = [])).
Proof.
  split; [intros buff; apply process_message_returns|].
  split; [intros buff Hl; by apply process_message_short|].
  intros Hk. split; [|intros rounds Hl; by apply process_loop_drains].
  intros b0 b1 i rest out id. subst out id.
  pose proof (process_message_transport handlers b0 b1 i rest d w Hk) as Ht.
  cbv zeta in Ht.
  assert (Hp :
    pending (fst (snd (process_message handlers (b0 :: b1 :: i :: rest)
                         (d, w))))
    = pendingTransactions
        (transport (fst (snd (process_message handlers
                                (b0 :: b1 :: i :: rest) (d, w))))))
    by reflexivity.
  rewrite Hp, Ht. clear Hp Ht.
  destruct (pending d !! int_of_byte i) as [[a|]|] eqn:E.
  - split; [done|]. rewrite process_message_eq. cbv zeta.
    pose proof (handled_keeps handlers (word b0 b1) rest (d, w) Hk) as Hh.
    cbn [fst] in Hh. unfold pending. rewrite Hh.
    unfold pending in E. rewrite E.
    by destruct (fst (handled handlers (word b0 b1) rest (d, w))).
  - destruct (fst (handled _ _ _ _)); done.
  - destruct (fst (handled _ _ _ _)); done.
Qed.

(** X22. A touch message that is cut short. With fewer than six bytes
    [on_touch] raises [IndexError] when it reads the touch id, before the
    clock is read, a touch recorded or the callback called, and the device
    is left as it was. In the message loop such a message, after its three
    leading bytes, is therefore logged as an exception and, unlike a
    complete one, leaves no entry for its transaction id in the table of
    pending transactions. *)
Theorem on_touch_short_message (buff : list byte) (event : string)
    (d : device) (w : World) :
  (List.length buff < 6)%nat ->
  on_touch buff event (d, w) = (Raise IndexError, (d, w))
  /\ on_touch_end buff (d, w) = (Raise IndexError, (d, w))
  /\ forall (handlers : gmap Z handler) b0 b1 i,
       handlers !! word b0 b1 = Some (fun b => on_touch b event) ->
       process_message handlers (b0 :: b1 :: i :: buff) (d, w)
       = (Ok tt, (d, logged_exception w)).
Proof.
  intros Hl. split; [by apply on_touch_short|].
  split; [by apply on_touch_short|].
  intros handlers b0 b1 i Hh.
  assert (Hh' : handled handlers (word b0 b1) buff (d, w)
                = (Raise IndexError, (d, w))).
  { rewrite <- (on_touch_short buff event d w Hl).
    exact (f_equal (fun o : option handler =>
                      match o with
                      | Some h => h buff (d, w)
                      | None => (Ok tt, (d, w))
                      end) Hh). }
  rewrite process_message_eq. cbv zeta. by rewrite Hh'.
Qed.

Lemma process_message_entry handlers buff d w id action :
  keeps_transport handlers ->
  pending d !! id = Some (Some action) ->
  pending (fst (snd (process_message handlers buff (d, w)))) !! id
  = Some (Some action).
Proof.
  intros Hk He.
  destruct buff as [|b0 [|b1 [|i rest]]].
  1-3: by rewrite process_message_short by (cbn; lia).
  pose proof (process_message_transport handlers b0 b1 i rest d w Hk) as Ht.
  cbv zeta in Ht. unfold pending at 1. rewrite Ht.
  destruct (decide (int_of_byte i = id)) as [->|Hne].
  - by rewrite He.
  - destruct (pending d !! int_of_byte i) as [[a|]|]; [done|..];
      (destruct (fst (handled _ _ _ _)); [|done]);
      cbn [pendingTransactions set_pendingTransactions];
      by rewrite lookup_insert_ne.
Qed.

(** X23. A tracked request is never resolved. After [do_action] with
    [track=True] has gone through, the table of pending transactions holds
    the action under the id of the request; and whatever messages the loop
    then processes, with handlers that leave the transport alone, be they
    responses with that id or anything else, the table still holds the
    action under that id: the response to a tracked request is met with an
    exception that the loop logs. *)
Theorem tracked_request_stays_pending (handlers : gmap Z handler)
    (action : Z) (data : option data_arg) (bs : list byte)
    (dev : device) (w : World) (msgs : list (list byte)) :
  keeps_transport handlers ->
  inited (transport dev) = true -> 0 <= action < 65536 ->
  data_bytes data = Ok bs -> sendable bs ->
  let id := next_id (transaction_id (transport dev)) in
  let st1 := snd (on_transport (do_action action data true) (dev, w)) in
  fst (on_transport (do_action action data true) (dev, w)) = Ok tt
  /\ pending (fst st1) !! id = Some (Some action)
  /\ pending (fst (after_messages handlers msgs st1)) !! id
     = Some (Some action)
  /\ (forall b0 b1 i rest,
        int_of_byte i = id ->
        let out := process_message handlers (b0 :: b1 :: i :: rest) st1 in
        pending (fst (snd out)) = pending (fst st1)
        /\ snd (snd out)
           = logged_exception
               (snd (snd (handled handlers (word b0 b1) rest st1)))).
Proof.
  intros Hk Hi Ha Hd Hs id st1.
  assert (Hrun : on_transport (do_action action data true) (dev, w)
                 = (Ok tt,
                    (set_transport (requested action true (transport dev)) dev,
                     {| events :=
                          (events w
                           ++ request_writes action id bs)%list;
                        clock := clock w; threads := threads w |}))).
  { unfold on_transport. cbn [fst snd].
    by rewrite (do_action_events action data true (transport dev) w bs). }
  assert (H1 : pending (fst st1) !! id = Some (Some action)).
  { subst st1. rewrite Hrun. cbn [fst snd]. unfold pending, requested.
    cbn. by rewrite lookup_insert_eq. }
  split; [by rewrite Hrun|]. split; [exact H1|]. split.
  - clearbody st1. clear Hrun. revert st1 H1.
    induction msgs as [|buff msgs IH]; intros st1 H1; [done|].
    cbn [after_messages fold_left]. apply IH.
    destruct st1 as [d1 w1]. by apply process_message_entry.
  - intros b0 b1 i rest Hid out. subst out. destruct st1 as [d1 w1].
    cbn [fst] in *.
    pose proof (process_message_transport handlers b0 b1 i rest d1 w1 Hk) as Ht.
    cbv zeta in Ht. rewrite Hid, H1 in Ht.
    split; [unfold pending; by rewrite Ht|].
    rewrite process_message_eq. cbv zeta.
    pose proof (handled_keeps handlers (word b0 b1) rest (d1, w1) Hk) as Hh.
    cbn [fst] in Hh. unfold pending. rewrite Hh.
    unfold pending in H1. rewrite Hid, H1.
    by destruct (fst (handled handlers (word b0 b1) rest (d1, w1))).
Qed.

End MessageFacts.

(** ** Further witnesses *)

Section MoreWitnesses.
Import Py Py.Notations.

Lemma counts_positive_singleton p n : 1 <= n -> counts_positive {[p := n]}.
Proof.
  intros Hn q m H. apply lookup_singleton_Some in H as [_ <-]. exact Hn.
Qed.

Lemma touch_handlers_keep : keeps_transport touch_handlers.
Proof.
  intros k h H. unfold touch_handlers in H.
  apply lookup_singleton_Some in H as [_ <-].
  intros b st. apply on_touch_keeps.
Qed.

Lemma remove_datarefs_to_monitor_counts_witness :
  counts_positive (Simulator.datarefs_to_monitor monitoring_registry)
  /\ exists mon' w',
       Simulator.remove_datarefs_to_monitor [sample_dataref]
         (monitoring_registry, new_world)
       = (Ok tt, (Simulator.set_datarefs_to_monitor mon' monitoring_registry,
                  w'))
       /\ mon' !! "a/b" = Some 1.
Proof.
  assert (H : counts_positive
                (Simulator.datarefs_to_monitor monitoring_registry))
    by (apply counts_positive_singleton; lia).
  split; [exact H|].
  destruct (remove_datarefs_to_monitor_counts [sample_dataref]
              monitoring_registry new_world H)
    as (mon' & w' & Heq & Hm & _).
  exists mon', w'. split; [exact Heq|]. rewrite Hm. reflexivity.
Defined.

Lemma monitor_add_remove_roundtrip_witness :
  counts_positive (Simulator.datarefs_to_monitor monitoring_registry)
  /\ exists w',
       (do Simulator.add_datarefs_to_monitor [sample_dataref] then
        Simulator.remove_datarefs_to_monitor [sample_dataref])
         (monitoring_registry, new_world)
       = (Ok tt, (monitoring_registry, w')).
Proof.
  assert (H : counts_positive
                (Simulator.datarefs_to_monitor monitoring_registry))
    by (apply counts_positive_singleton; lia).
  split; [exact H|].
  exact (monitor_add_remove_roundtrip [sample_dataref] monitoring_registry
           new_world H).
Defined.

Lemma set_rounding_lookup_witness :
  Dataref.path element_dataref = "sim/a" ++ "[" ++ "3]"
  /\ Dataref.round (Simulator.set_rounding wildcard_registry element_dataref)
     = Some 2.
Proof.
  split; [reflexivity|].
  destruct (set_rounding_lookup wildcard_registry element_dataref)
    as (H & _).
  rewrite (H "sim/a" "3]"); [reflexivity|reflexivity|discriminate|reflexivity].
Defined.

Lemma Dataref_init_array_element_witness :
  str_in "[" "sim/a" = false /\ str_in "]" "sim/a" = false
  /\ str_in "]" "3" = false
  /\ (exists d w',
        Dataref.__init__ "sim/a[3]" false false None (tt, new_world)
        = (Ok d, (tt, w'))
        /\ Dataref.dataref d = "sim/a" /\ Dataref.index d = 3
        /\ Dataref.length d = Some 4)
  /\ (exists d w',
        Dataref.__init__ ("sim/a" ++ "[" ++ nbsp_index ++ "]") false false
          None (tt, new_world)
        = (Ok d, (tt, w'))
        /\ Dataref.index d = 5)
  /\ fst (Dataref.__init__ "sim/a[*]" false false None (tt, new_world))
     = Raise ValueError.
Proof.
  do 3 (split; [reflexivity|]). split; [|split].
  - destruct (proj1 (Dataref_init_array_element "sim/a" "3" false false None
                       new_world eq_refl eq_refl eq_refl))
      as (d & w' & Heq & _ & Hd & Hi & _ & Hl & _).
    exists d, w'. by repeat split.
  - destruct (proj1 (Dataref_init_array_element "sim/a" nbsp_index false
                       false None new_world eq_refl eq_refl eq_refl))
      as (d & w' & Heq & _ & _ & Hi & _).
    exists d, w'. by split.
  - exact (proj1 (Dataref_init_array_element "sim/a" "*" false false None
                    new_world eq_refl eq_refl eq_refl)).
Defined.


Lemma get_dataref_value_reads_witness :
  NoDup (Simulator.keys (Simulator.current_values (fst first_snapshot)))
  /\ exists st',
       Simulator.detect_changed (fst first_snapshot, snd first_snapshot)
       = (Ok tt, st')
       /\ Simulator.get_dataref_value "a/b" VNone st'
          = (Ok (VFloat 1), st').
Proof.
  set (st := first_snapshot).
  assert (Hnd : NoDup (Simulator.keys (Simulator.current_values (fst st)))).
  { apply NoDup_cons. split; [apply not_elem_of_nil | apply NoDup_nil_2]. }
  split; [exact Hnd|].
  destruct (get_dataref_value_reads (fst st) (snd st) "a/b" VNone)
    as (_ & _ & H).
  destruct (H (VFloat 1) Hnd) as (dr & x & st' & Hm & Hx & Hrun & Hget).
  - intros d v Hin. apply list_elem_of_singleton in Hin.
    injection Hin as -> ->. intros _.
    eexists _, _. split; [vm_compute; reflexivity|].
    split; [|split; reflexivity].
    constructor; [|constructor]. split; [by eexists|]. by split.
  - apply list_elem_of_singleton. reflexivity.
  - reflexivity.
  - exists st'. split; [exact Hrun|]. rewrite Hget.
    vm_compute in Hm. injection Hm as <-. vm_compute in Hx.
    injection Hx as <-. reflexivity.
Defined.

Lemma anim_stop_joins_once_witness :
  DrawAnimation.running running_animation = Some true
  /\ (exists w',
        DrawAnimation.anim_stop None true (running_animation, new_world)
        = (Ok tt,
           (DrawAnimation.set_exit (Some true)
              (DrawAnimation.set_running (Some false) running_animation),
            w'))
        /\ new_events new_world w'
           = [EvThreadJoin 0 (VFloat (2 * 1)); log_not_terminated;
              log_stopped])
  /\ fst (DrawAnimation.anim_stop (Some 0%nat) true
            (running_animation, new_world))
     = Raise RuntimeError.
Proof.
  split; [reflexivity|].
  destruct (anim_stop_joins_once running_animation new_world None None true
              false false 0%nat 1%float eq_refl eq_refl eq_refl eq_refl)
    as (H & _).
  destruct (H ltac:(discriminate)) as (w' & Heq & Hev & _).
  split; [exists w'; split; [exact Heq|exact Hev]|].
  destruct (anim_stop_joins_once running_animation new_world (Some 0%nat)
              None true false false 0%nat 1%float eq_refl eq_refl eq_refl
              eq_refl) as (_ & H').
  destruct (H' eq_refl) as [Heq' _]. by rewrite Heq'.
Defined.

Lemma anim_stop_before_loop_witness :
  DrawAnimation.exit new_animation = None
  /\ fst ((do DrawAnimation.anim_start then
           DrawAnimation.anim_stop None false)
            (new_animation, new_world))
     = Raise AttributeError.
Proof.
  split; [reflexivity|].
  destruct (anim_stop_before_loop new_animation new_world None false eq_refl)
    as (_ & H).
  destruct (H eq_refl ltac:(by eexists)) as (w' & Heq & _).
  by rewrite Heq.
Defined.

Lemma framing_decodes_frames_witness :
  Forall (fun gp => no_magic (fst gp) /\ (List.length (snd gp) < 256)%nat)
    sample_stream
  /\ LoupedeckLive._read_serial [[x00; x82]; [x02; x01]; [x02; x82; x00]]
       (LoupedeckLive.connected, new_world)
     = (Ok tt,
        (LoupedeckLive.set__messages [[x01; x02]; []] LoupedeckLive.connected,
         new_world)).
Proof.
  assert (H : Forall (fun gp => no_magic (fst gp)
                                /\ (List.length (snd gp) < 256)%nat)
                sample_stream).
  { repeat constructor; cbn; lia. }
  split; [exact H|].
  exact (framing_decodes_frames sample_stream
           [[x00; x82]; [x02; x01]; [x02; x82; x00]]
           LoupedeckLive.connected new_world eq_refl H eq_refl).
Defined.

Lemma do_action_wire_witness :
  LoupedeckLive.inited LoupedeckLive.connected = true
  /\ exists w',
       LoupedeckLive.do_action 0x0409 (Some (LoupedeckLive.DataInt 5)) true
         (LoupedeckLive.connected, new_world)
       = (Ok tt, (requested 0x0409 true LoupedeckLive.connected, w'))
       /\ new_events new_world w'
          = [EvSerialWrite [x82; x84; x00; x00; x00; x00];
             EvSerialWrite [x04; x09; x01; x05]].
Proof.
  split; [reflexivity|].
  destruct (do_action_wire 0x0409 (Some (LoupedeckLive.DataInt 5)) true
              LoupedeckLive.connected new_world [x05])
    as (w' & Heq & Hev & _);
    [reflexivity|lia|reflexivity|discriminate|reflexivity|].
  exists w'. split; [exact Heq|exact Hev].
Defined.

Lemma do_action_failures_witness :
  blen (repeat x00 125) + 3 = 0x80
  /\ fst (LoupedeckLive.do_action 0x0409
            (Some (LoupedeckLive.DataBytes (repeat x00 125))) true
            (LoupedeckLive.connected, new_world))
     = Raise ValueError.
Proof.
  split; [reflexivity|].
  destruct (do_action_failures 0x0409
              (Some (LoupedeckLive.DataBytes (repeat x00 125))) true
              LoupedeckLive.connected new_world) as (_ & H).
  destruct (H eq_refl) as (_ & _ & H3).
  destruct (H3 (repeat x00 125) eq_refl ltac:(lia) eq_refl) as [Heq _].
  by rewrite Heq.
Defined.

Lemma on_touch_tracks_touches_witness :
  LoupedeckLive.touches idle_device !! int_of_byte x01 = None
  /\ fst (LoupedeckLive.on_touch_end [x00; x00; xa0; x00; x6e; x01]
            (idle_device, new_world))
     = Raise (KeyError "1").
Proof.
  split; [reflexivity|].
  destruct (on_touch_tracks_touches x00 x00 xa0 x00 x6e x01 [] idle_device
              new_world) as (H & _).
  destruct (H eq_refl) as [_ Heq]. by rewrite Heq.
Defined.

Lemma on_touch_short_message_witness :
  (List.length [x00; x00; xa0] < 6)%nat
  /\ LoupedeckLive.on_touch [x00; x00; xa0] "touchmove"
       (idle_device, new_world)
     = (Raise IndexError, (idle_device, new_world)).
Proof.
  assert (H : (List.length [x00; x00; xa0] < 6)%nat) by (cbn; lia).
  split; [exact H|].
  exact (proj1 (on_touch_short_message [x00; x00; xa0] "touchmove"
                  idle_device new_world H)).
Defined.


Lemma set_key_image_touch_roundtrip_witness :
  word x00 xa0 = 60 + 5 mod 4 * 90 + 10
  /\ word x00 x6e = 5 / 4 * 90 + 20
  /\ exists m,
       LoupedeckLive.delivered
         (fst (snd (LoupedeckLive.on_touch [x00; x00; xa0; x00; x6e; x01]
                      "touchmove" (listening_device, new_world))))
       = [m]
       /\ LoupedeckLive.touch_key m = Some 5.
Proof.
  split; [reflexivity|]. split; [reflexivity|].
  destruct (set_key_image_touch_roundtrip sample_headers sample_displays
              unit (fun _ _ => Ok []) 5 10 20 []
              (LoupedeckLive.connected, new_world)
              x00 x00 xa0 x00 x6e x01 [] listening_device new_world
              (fun _ => None))
    as (_ & m & Hd & _ & Hk & _);
    [lia|lia|lia|reflexivity|reflexivity|reflexivity|].
  exists m. split; [exact Hd|exact Hk].
Defined.

Lemma on_touch_right_edge_witness :
  word x01 xa4 = 420 /\ word x00 x6e = 1 * 90 + 20
  /\ exists m,
       LoupedeckLive.delivered
         (fst (snd (LoupedeckLive.on_touch [x00; x01; xa4; x00; x6e; x01]
                      "touchmove" (listening_device, new_world))))
       = [m]
       /\ LoupedeckLive.touch_screen m = "center"
       /\ LoupedeckLive.touch_key m = Some 8.
Proof.
  split; [reflexivity|]. split; [reflexivity|].
  destruct (on_touch_right_edge sample_headers sample_displays
              unit (fun _ _ => Ok []) 1 20 []
              (LoupedeckLive.connected, new_world)
              x00 x01 xa4 x00 x6e x01 [] listening_device new_world
              (fun _ => None))
    as ((m & Hd & Hs & Hk) & _);
    [lia|lia|reflexivity|reflexivity|reflexivity|].
  exists m. split; [exact Hd|]. split; [exact Hs|exact Hk].
Defined.

Lemma set_brightness_level_witness :
  sample_headers !! "SET_BRIGHTNESS" = Some 0x0409
  /\ exists w',
       LoupedeckLive.set_brightness sample_headers 10 55
         (LoupedeckLive.connected, new_world)
       = (Ok tt, (requested 0x0409 false LoupedeckLive.connected, w'))
       /\ new_events new_world w'
          = [EvSerialWrite [x82; x84; x00; x00; x00; x00];
             EvSerialWrite [x04; x09; x01; x05]].
Proof.
  split; [reflexivity|].
  destruct (set_brightness_level sample_headers 10 55 0x0409
              LoupedeckLive.connected new_world)
    as (_ & H); [reflexivity|lia|reflexivity|lia|].
  destruct (H ltac:(lia)) as (w' & Heq & Hev).
  exists w'. split; [exact Heq|exact Hev].
Defined.

Lemma process_message_pending_witness :
  keeps_transport touch_handlers
  /\ pending
       (fst (snd (LoupedeckLive.process_message touch_handlers
                    [x09; x4d; x00; x00; x00; xa0; x00; x6e; x01]
                    (idle_device, new_world))))
     = <[0 := None]> (pending idle_device).
Proof.
  split; [exact touch_handlers_keep|].
  destruct (process_message_pending touch_handlers idle_device new_world)
    as (_ & _ & H).
  destruct (H touch_handlers_keep) as (Hp & _).
  exact (Hp x09 x4d x00 [x00; x00; xa0; x00; x6e; x01]).
Defined.

Lemma tracked_request_stays_pending_witness :
  keeps_transport touch_handlers
  /\ pending
       (fst (after_messages touch_handlers
               [[x04; x09; x01]; [x09; x4d; x01]; [x00]]
               (snd (LoupedeckLive.on_transport
                       (LoupedeckLive.do_action 0x0409
                          (Some (LoupedeckLive.DataInt 5)) true)
                       (idle_device, new_world))))) !! 1
     = Some (Some 0x0409).
Proof.
  split; [exact touch_handlers_keep|].
  destruct (tracked_request_stays_pending touch_handlers 0x0409
              (Some (LoupedeckLive.DataInt 5)) [x05] idle_device new_world
              [[x04; x09; x01]; [x09; x4d; x01]; [x00]])
    as (_ & _ & H & _);
    [exact touch_handlers_keep|reflexivity|lia|reflexivity
    |split; [discriminate|reflexivity]|].
  exact H.
Defined.

End MoreWitnesses.
